(** * secure-pdf: a shallow embedding of the token store, the document
      store, the byte codec and the access gateway

    The development follows the layout of the plugin:

    - [JS]           the handful of JavaScript / Node primitives the plugin
                     relies on (typed-array writes, the [^] operator,
                     [Buffer], base64, POSIX [path]);
    - [Codec]        [partialXorEncode] of lib/controllers.js;
    - [NonceStore]   lib/nonce-store.js;
    - [PdfHandler]   lib/pdf-handler.js;
    - [Controllers]  the gateway of lib/controllers.js;
    - [Plugin]       the plugin entry point: the viewer route, the two
                     guards in front of the upload directory and the
                     meta-tag hook;
    - [ViewerApp]    [partialXorDecode] of static/viewer-app.js;
    - [System]       the routes and timers put together.

    Clock readings ([Date.now()]) and random draws ([uuidv4()],
    [crypto.randomBytes]) are inputs of the operations that use them.
    [Buffer]s live on a heap and are passed by reference, so that sharing
    between the derivative cache and a response is visible.  Strings are
    sequences of bytes; every test the plugin makes on them looks for
    ASCII characters only. *)

From Stdlib Require Import ZArith Lia List Ascii.
From stdpp Require Import base option list gmap strings.

Local Open Scope Z_scope.

(* ===================================================================== *)
(** * JavaScript and Node primitives *)
(* ===================================================================== *)

Module JS.

(** ** Numbers *)

(** A JavaScript value read from a typed array or a [Buffer]: an integer,
    or [None] for [undefined] (an index out of range, or a [NaN] index). *)
Abbreviation jsval := (option Z).

(** [ToInt32]: [undefined] becomes 0, an integer wraps to 32 bits. *)
Definition toInt32 (v : jsval) : Z :=
  match v with
  | None => 0
  | Some z => (z + 2147483648) mod 4294967296 - 2147483648
  end.

(** The [^] operator. *)
Definition xor (a b : jsval) : Z := Z.lxor (toInt32 a) (toInt32 b).

(** [ToUint8], applied by every write into a [Uint8Array] or [Buffer]. *)
Definition toUint8 (v : Z) : Z := v mod 256.

(** The elements a [Buffer] can hold. *)
Definition is_byte (b : Z) : Prop := 0 <= b < 256.
Definition is_bytes (bs : list Z) : Prop := Forall is_byte bs.

(** ** Buffers

    A [Buffer] is a mutable object: the heap maps an allocation index to
    the bytes it currently holds, and values of type [loc] are the
    references the program passes around. *)
Abbreviation loc := nat.
Abbreviation heap := (list (list Z)).

Definition alloc (bs : list Z) (h : heap) : loc * heap :=
  (length h, h ++ [bs]).

(** The bytes of [b]; a dangling reference reads as the empty buffer. *)
Definition bytesOf (h : heap) (b : loc) : list Z := default [] (h !! b).

(** [b.length] *)
Definition lengthOf (h : heap) (b : loc) : nat := length (bytesOf h b).

(** [Buffer.from(b)]: a new buffer holding a copy of [b]'s bytes. *)
Definition from (b : loc) (h : heap) : loc * heap := alloc (bytesOf h b) h.

(** [b[i]] *)
Definition get (h : heap) (b : loc) (i : nat) : jsval := bytesOf h b !! i.

(** [b[i] = v]; a write past the end of a typed array is dropped. *)
Definition set (b : loc) (i : nat) (v : Z) (h : heap) : heap :=
  alter (fun bs => <[i := toUint8 v]> bs) b h.

(** [key[i % key.length]] on an immutable byte string.  For the empty key
    the index is [NaN] and the read is [undefined]; [Nat.modulo i 0 = i]
    lands past the end of the empty list and gives the same [None]. *)
Definition keyAt (key : list Z) (i : nat) : jsval :=
  key !! (i mod length key)%nat.

(** ** Strings *)

Definition chars (s : string) : list ascii := String.list_ascii_of_string s.
Definition str (cs : list ascii) : string := String.string_of_list_ascii cs.

(** [s.startsWith(p)] *)
Fixpoint startsWithChars (p s : list ascii) : bool :=
  match p, s with
  | [], _ => true
  | _ :: _, [] => false
  | a :: p', b :: s' => bool_decide (a = b) && startsWithChars p' s'
  end.
Definition startsWith (s p : string) : bool :=
  startsWithChars (chars p) (chars s).

(** [s.endsWith(p)] *)
Definition endsWith (s p : string) : bool :=
  startsWithChars (rev (chars p)) (rev (chars s)).

(** [s.includes(p)] *)
Fixpoint includesChars (p s : list ascii) : bool :=
  startsWithChars p s ||
  match s with
  | [] => false
  | _ :: s' => includesChars p s'
  end.
Definition includes (s p : string) : bool :=
  includesChars (chars p) (chars s).

(** [s.toLowerCase()], on the ASCII letters. *)
Definition lowerChar (c : ascii) : ascii :=
  let n := nat_of_ascii c in
  if bool_decide (65 <= n <= 90)%nat then ascii_of_nat (n + 32) else c.
Definition toLowerCase (s : string) : string := str (map lowerChar (chars s)).

(** [!s] for a string: only the empty string is falsy. *)
Definition falsy (s : string) : bool := bool_decide (s = "").

(** ** Node's [path] module, POSIX flavour *)

Definition slash : ascii := "/"%char.

(** [path.basename(p)] scans [p] from its end: separators are skipped
    until the first other character, which ends the component; the
    component starts after the next separator met. *)
Fixpoint skipSlashes (r : list ascii) : list ascii :=
  match r with
  | c :: r' => if bool_decide (c = slash) then skipSlashes r' else r
  | [] => []
  end.
Fixpoint untilSlash (r : list ascii) : list ascii :=
  match r with
  | c :: r' => if bool_decide (c = slash) then [] else c :: untilSlash r'
  | [] => []
  end.
Definition basename (p : string) : string :=
  str (rev (untilSlash (skipSlashes (rev (chars p))))).

(** The segments between separators, [p.split('/')]. *)
Fixpoint splitSlash (cur : list ascii) (s : list ascii) : list string :=
  match s with
  | [] => [str (rev cur)]
  | c :: s' =>
      if bool_decide (c = slash) then str (rev cur) :: splitSlash [] s'
      else splitSlash (c :: cur) s'
  end.

(** [normalizeString]: empty and ["."] segments vanish, [".."] removes the
    segment before it, or is kept when there is none to remove and the
    path is relative.  [acc] is the result so far, last segment first. *)
Fixpoint normalizeSegments (allowAboveRoot : bool) (acc segs : list string)
    : list string :=
  match segs with
  | [] => rev acc
  | seg :: segs' =>
      if bool_decide (seg = "" \/ seg = ".") then
        normalizeSegments allowAboveRoot acc segs'
      else if bool_decide (seg = "..") then
        match acc with
        | top :: acc' =>
            if bool_decide (top = "..")
            then normalizeSegments allowAboveRoot
                   (if allowAboveRoot then ".." :: acc else acc) segs'
            else normalizeSegments allowAboveRoot acc' segs'
        | [] =>
            normalizeSegments allowAboveRoot
              (if allowAboveRoot then [".."] else []) segs'
        end
      else normalizeSegments allowAboveRoot (seg :: acc) segs'
  end.

Fixpoint joinWith (sep : string) (parts : list string) : string :=
  match parts with
  | [] => ""
  | [x] => x
  | x :: rest => x +:+ sep +:+ joinWith sep rest
  end.

Definition normalizeString (p : string) (allowAboveRoot : bool) : string :=
  joinWith "/" (normalizeSegments allowAboveRoot [] (splitSlash [] (chars p))).

(** [path.normalize(p)] *)
Definition normalize (p : string) : string :=
  if falsy p then "." else
  let isAbsolute := startsWith p "/" in
  let trailingSeparator := endsWith p "/" in
  let q := normalizeString p (negb isAbsolute) in
  if falsy q then
    (if isAbsolute then "/" else if trailingSeparator then "./" else ".")
  else
    (if isAbsolute then "/" else "") +:+ q +:+
    (if trailingSeparator then "/" else "").

(** [path.join(...args)] *)
Definition join (args : list string) : string :=
  match filter (fun a => a <> "") args with
  | [] => "."
  | parts => normalize (joinWith "/" parts)
  end.

(** [path.resolve(...args)] with [process.cwd()] given: the arguments are
    prepended right to left until an absolute one is met, the working
    directory standing to the left of them all. *)
Fixpoint resolveGo (rargs : list string) (resolvedPath : string)
    : string * bool :=
  match rargs with
  | [] => (resolvedPath, false)
  | p :: rest =>
      if falsy p then resolveGo rest resolvedPath
      else if startsWith p "/" then (p +:+ "/" +:+ resolvedPath, true)
      else resolveGo rest (p +:+ "/" +:+ resolvedPath)
  end.
Definition resolve (cwd : string) (args : list string) : string :=
  let '(resolvedPath, resolvedAbsolute) := resolveGo (rev args ++ [cwd]) "" in
  let q := normalizeString resolvedPath (negb resolvedAbsolute) in
  if resolvedAbsolute then "/" +:+ q
  else if falsy q then "." else q.

(** ** [buf.toString('base64')] *)

Definition base64Alphabet : list ascii :=
  chars "ABCDEFGHIJKLMNOPQRSTUVWXYZabcdefghijklmnopqrstuvwxyz0123456789+/".
Definition sextet (n : Z) : ascii := nth (Z.to_nat n) base64Alphabet "="%char.
Fixpoint base64Chars (bs : list Z) : list ascii :=
  match bs with
  | [] => []
  | [a] => [sextet (a / 4); sextet (a mod 4 * 16); "="%char; "="%char]
  | [a; b] =>
      [sextet (a / 4); sextet (a mod 4 * 16 + b / 16);
       sextet (b mod 16 * 4); "="%char]
  | a :: b :: c :: rest =>
      sextet (a / 4) :: sextet (a mod 4 * 16 + b / 16) ::
      sextet (b mod 16 * 4 + c / 64) :: sextet (c mod 64) ::
      base64Chars rest
  end.
Definition toBase64 (bs : list Z) : string := str (base64Chars bs).

(** ** [atob(text)], read as bytes

    [Uint8Array.from(atob(text), c => c.charCodeAt(0))] for text in the
    canonical padded form that [toBase64] produces; [None] stands for the
    exception [atob] throws on anything else. *)
Fixpoint indexIn (c : ascii) (alphabet : list ascii) (n : Z) : option Z :=
  match alphabet with
  | [] => None
  | a :: rest => if bool_decide (a = c) then Some n else indexIn c rest (n + 1)
  end.
Definition unsextet (c : ascii) : option Z := indexIn c base64Alphabet 0.
Definition isPad (c : ascii) : bool := bool_decide (c = "="%char).
Fixpoint fromBase64Chars (cs : list ascii) : option (list Z) :=
  match cs with
  | [] => Some []
  | a :: b :: c :: d :: rest =>
      x ← unsextet a; y ← unsextet b;
      if isPad c then
        if isPad d && bool_decide (rest = []) then Some [x * 4 + y / 16]
        else None
      else
        z ← unsextet c;
        if isPad d then
          if bool_decide (rest = [])
          then Some [x * 4 + y / 16; y mod 16 * 16 + z / 4]
          else None
        else
          w ← unsextet d;
          bs ← fromBase64Chars rest;
          Some (x * 4 + y / 16 :: y mod 16 * 16 + z / 4 :: z mod 4 * 64 + w :: bs)
  | _ => None
  end.
Definition fromBase64 (text : string) : option (list Z) :=
  fromBase64Chars (chars text).

(** ** Control: mutable module state and exceptions *)

(** A computation over module-level state [S]. *)
Definition St (S A : Type) : Type := S -> A * S.
Definition ret {S A} (a : A) : St S A := fun s => (a, s).
Definition bind {S A B} (m : St S A) (k : A -> St S B) : St S B :=
  fun s => let '(a, s') := m s in k a s'.
Definition gets {S A} (f : S -> A) : St S A := fun s => (f s, s).
Definition modify {S} (f : S -> S) : St S unit := fun s => (tt, f s).

(** How a call completes: with a value, or with a thrown [Error] of which
    only the [message] is ever inspected. *)
Inductive Completion (A : Type) : Type :=
  | Return (a : A)
  | Throw (message : string).
Arguments Return {A} a.
Arguments Throw {A} message.

(** Sequencing under which a [Throw] skips the rest of the function. *)
Definition bindT {S A B} (m : St S (Completion A))
    (k : A -> St S (Completion B)) : St S (Completion B) :=
  bind m (fun c => match c with
                   | Return a => k a
                   | Throw msg => ret (Throw msg)
                   end).

End JS.

Declare Scope js_scope.
Delimit Scope js_scope with js.
Notation "'let!' x ':=' m 'in' k" := (JS.bind m (fun x => k))
  (at level 10, x name, m at level 100, k at level 200) : js_scope.
Notation "'do!' m 'in' k" := (JS.bind m (fun _ => k))
  (at level 10, m at level 100, k at level 200) : js_scope.
Notation "'await!' x ':=' m 'in' k" := (JS.bindT m (fun x => k))
  (at level 10, x name, m at level 100, k at level 200) : js_scope.

(* ===================================================================== *)
(** * lib/controllers.js, first part: the byte codec *)
(* ===================================================================== *)

Module Codec.
Import JS.

(** The statement shared by both loops:
    [data[i] = data[i] ^ xorKey[i % keyLen]]. *)
Definition xorAt (data : loc) (xorKey : list Z) (i : nat) (h : heap) : heap :=
  set data i (xor (get h data i) (keyAt xorKey i)) h.

(** [for (let i = 0; i < fullEncryptLen; i++) ...].  The recursion is on
    [fuel]; the call site passes [fullEncryptLen], one unit for each
    iteration the test allows, so the loop always leaves through its
    test. *)
Fixpoint fullLoop (fuel : nat) (data : loc) (xorKey : list Z)
    (fullEncryptLen i : nat) (h : heap) : heap :=
  match fuel with
  | O => h
  | S fuel =>
      if decide (i < fullEncryptLen)%nat
      then fullLoop fuel data xorKey fullEncryptLen (i + 1)
             (xorAt data xorKey i h)
      else h
  end.

(** [for (let i = fullEncryptLen; i < data.length; i += 50) ...];
    [data.length] is read at every test. *)
Fixpoint strideLoop (fuel : nat) (data : loc) (xorKey : list Z)
    (i : nat) (h : heap) : heap :=
  match fuel with
  | O => h
  | S fuel =>
      if decide (i < lengthOf h data)%nat
      then strideLoop fuel data xorKey (i + 50) (xorAt data xorKey i h)
      else h
  end.

(** The literal [10240]. *)
Definition tenKiB : nat := Z.to_nat 10240.

(** [partialXorEncode(buffer, xorKey)] *)
Definition partialXorEncode (buffer : loc) (xorKey : list Z) (h : heap)
    : loc * heap :=
  let '(data, h) := from buffer h in
  let fullEncryptLen := Nat.min tenKiB (lengthOf h data) in
  let h := fullLoop fullEncryptLen data xorKey fullEncryptLen 0 h in
  let h := strideLoop (lengthOf h data) data xorKey fullEncryptLen h in
  (data, h).

End Codec.

(* ===================================================================== *)
(** * lib/nonce-store.js *)
(* ===================================================================== *)

Module NonceStore.
Import JS.
Local Open Scope js_scope.

(** The object stored under a nonce.  [xorKey] is a [Buffer] that is never
    written after [crypto.randomBytes] filled it, so the record carries
    its bytes. *)
Record NonceData := {
  uid : Z;
  file : string;
  isPremium : bool;
  xorKey : list Z;
  createdAt : Z;
}.

(** [const store = new Map()] *)
Abbreviation Store := (gmap string NonceData).

Definition NONCE_TTL : Z := 30 * 1000.
Definition CLEANUP_INTERVAL : Z := 60 * 1000.

(** The [setInterval] callback; [now] is its [Date.now()]. *)
Definition cleanup (now : Z) : St Store unit :=
  modify (filter (fun '(_, data) => ~ (now - createdAt data > NONCE_TTL))).

(** [NonceStore.generate(uid, file, isPremium)]; [nonce] is what
    [uuidv4()] returned, [key] what [generateXorKey()] returned, and
    [now] the [Date.now()] of the call. *)
Definition generate (uid : Z) (file : string) (isPremium : bool)
    (nonce : string) (key : list Z) (now : Z) : St Store (string * string) :=
  do! modify (insert nonce
        {| uid := uid; file := file; isPremium := isPremium;
           xorKey := key; createdAt := now |}) in
  ret (nonce, toBase64 key).

(** [NonceStore.getKey(nonce)] *)
Definition getKey (nonce : string) : St Store (option string) :=
  let! data := gets (fun store => store !! nonce) in
  match data with
  | None => ret None
  | Some data => ret (Some (toBase64 (xorKey data)))
  end.

(** [NonceStore.validate(nonce, uid)]; [now] is the [Date.now()] of the
    TTL check. *)
Definition validate (nonce : string) (uid' : Z) (now : Z)
    : St Store (option NonceData) :=
  let! data := gets (fun store => store !! nonce) in
  match data with
  | None => ret None
  | Some data =>
      do! modify (delete nonce) in
      if decide (uid data <> uid') then ret None
      else if decide (now - createdAt data > NONCE_TTL) then ret None
      else ret (Some data)
  end.

End NonceStore.

(* ===================================================================== *)
(** * lib/pdf-handler.js *)
(* ===================================================================== *)

Module PdfHandler.
Import JS.
Local Open Scope js_scope.

(** What [nconf] and the process provide. *)
Record Config := {
  upload_path : option string;   (* nconf.get('upload_path') *)
  base_dir : string;             (* nconf.get('base_dir') *)
  cwd : string;                  (* process.cwd() *)
}.

Inductive FsNode :=
  | RegularFile (content : list Z)
  | Directory.

(** An entry of [singlePageCache]. *)
Record CacheEntry := {
  buffer : loc;
  createdAt : Z;
}.

(** The calls a test double of [fs] and [pdf-lib] would count. *)
Inductive Event :=
  | ReadFile (path : string)
  | PdfLoad (bytes : list Z).

(** [singlePageCache], and what the functions of the module act on besides
    it: the [Buffer]s of the process, the filesystem, and the log of the
    calls made to [fs.promises.readFile] and to [pdf-lib]. *)
Record State := {
  heap : JS.heap;
  singlePageCache : gmap string CacheEntry;
  disk : gmap string FsNode;      (* by absolute path; never written *)
  calls : list Event;             (* most recent first *)
}.

Definition CACHE_TTL : Z := 60 * 60 * 1000.

Definition withHeap (f : JS.heap -> JS.heap) (s : State) : State :=
  {| heap := f (heap s); singlePageCache := singlePageCache s;
     disk := disk s; calls := calls s |}.
Definition withCache
    (f : gmap string CacheEntry -> gmap string CacheEntry) (s : State) : State :=
  {| heap := heap s; singlePageCache := f (singlePageCache s);
     disk := disk s; calls := calls s |}.
Definition record (e : Event) (s : State) : State :=
  {| heap := heap s; singlePageCache := singlePageCache s;
     disk := disk s; calls := e :: calls s |}.

(** [Buffer.from(array)], and the buffer [readFile] fills: a new [Buffer]
    holding [bs], every element truncated to a byte. *)
Definition newBuffer (bs : list Z) : St State loc :=
  fun s =>
    let '(b, h) := alloc (map toUint8 bs) (heap s) in
    (b, withHeap (fun _ => h) s).

(** The [setInterval] callback. *)
Definition cleanup (now : Z) : St State unit :=
  modify (withCache
    (filter (fun '(_, entry) => ~ (now - createdAt entry > CACHE_TTL)))).

Section WithEnvironment.

Variable cfg : Config.

(** [pdf-lib]: [PDFDocument.load(bytes)], a new document, page 0 copied
    into it, [save()].  It returns the serialised bytes or throws. *)
Variable firstPageOf : list Z -> Completion (list Z).

(** [nconf.get('upload_path') || path.join(nconf.get('base_dir'), 'public', 'uploads')] *)
Definition uploadPath : string :=
  match upload_path cfg with
  | Some p =>
      if falsy p then join [base_dir cfg; "public"; "uploads"] else p
  | None => join [base_dir cfg; "public"; "uploads"]
  end.

(** [PdfHandler.resolveFilePath(filename)]; [None] is [null]. *)
Definition resolveFilePath (filename : string) : option string :=
  let safeName := basename filename in
  if falsy safeName || bool_decide (safeName <> filename)
     || includes safeName ".."
  then None
  else
    let filePath := join [uploadPath; "files"; safeName] in
    let resolvedPath := resolve (cwd cfg) [filePath] in
    let resolvedUploadDir :=
      resolve (cwd cfg) [join [uploadPath; "files"]] in
    if negb (startsWith resolvedPath resolvedUploadDir) then None
    else Some filePath.

(** [fs.existsSync(p)] *)
Definition existsSync (p : string) : St State bool :=
  gets (fun s => bool_decide (is_Some (disk s !! resolve (cwd cfg) [p]))).

(** [await fs.promises.readFile(p)] *)
Definition readFile (p : string) : St State (Completion loc) :=
  do! modify (record (ReadFile p)) in
  let! node := gets (fun s => disk s !! resolve (cwd cfg) [p]) in
  match node with
  | Some (RegularFile content) =>
      let! b := newBuffer content in ret (Return b)
  | Some Directory =>
      ret (Throw "EISDIR: illegal operation on a directory, read")
  | None =>
      ret (Throw "ENOENT: no such file or directory")
  end.

(** [PdfHandler.getFullPdf(filename)] *)
Definition getFullPdf (filename : string) : St State (Completion loc) :=
  match resolveFilePath filename with
  | None => ret (Throw "Invalid filename")
  | Some filePath =>
      let! found := existsSync filePath in
      if negb found then ret (Throw "File not found")
      else readFile filePath
  end.

(** [PdfHandler.getSinglePagePdf(filename)]; [now] is the [Date.now()]
    of the freshness test and [later] the one stored with a new
    entry. *)
Definition getSinglePagePdf (filename : string) (now later : Z)
    : St State (Completion loc) :=
  let! cached := gets (fun s => singlePageCache s !! filename) in
  let fresh :=
    match cached with
    | Some entry =>
        if decide (now - createdAt entry < CACHE_TTL)
        then Some (buffer entry) else None
    | None => None
    end in
  match fresh with
  | Some cachedBuffer => ret (Return cachedBuffer)
  | None =>
  match resolveFilePath filename with
  | None => ret (Throw "Invalid filename")
  | Some filePath =>
      let! found := existsSync filePath in
      if negb found then ret (Throw "File not found") else
      await! existingPdfBytes := readFile filePath in
      let! src := gets (fun s => bytesOf (heap s) existingPdfBytes) in
      do! modify (record (PdfLoad src)) in
      match firstPageOf src with
      | Throw message => ret (Throw message)
      | Return pdfBytes =>
          let! buffer := newBuffer pdfBytes in
          do! modify (withCache (insert filename
                {| buffer := buffer; createdAt := later |})) in
          ret (Return buffer)
      end
  end
  end.

End WithEnvironment.

End PdfHandler.

(* ===================================================================== *)
(** * lib/controllers.js, second part: the gateway *)
(* ===================================================================== *)

Module Controllers.
Import JS.
Local Open Scope js_scope.

(** What the handlers read from [req]. *)
Record Request := {
  query_nonce : option string;   (* req.query.nonce *)
  query_file : option string;    (* req.query.file *)
  req_uid : option Z;            (* req.uid *)
}.

Inductive Body :=
  | Json (error : string)                    (* res.json({ error }) *)
  | Text (text : string)                     (* res.send(string) *)
  | Binary (data : loc)                      (* res.send(buffer) *)
  | ViewerPage (filename nonce dk : string). (* the injected viewer.html *)

Record Response := {
  status : Z;
  headers : list (string * string);
  body : Body;
}.

(** [res.status(code).json({ error: message })] *)
Definition jsonError (code : Z) (message : string) : Response :=
  {| status := code; headers := []; body := Json message |}.

(** The module-level state of the whole plugin. *)
Record World := {
  nonces : gmap string NonceStore.NonceData;
  pdf : PdfHandler.State;
}.

Definition inNonceStore {A} (m : St (gmap string NonceStore.NonceData) A)
    : St World A :=
  fun w => let '(a, n) := m (nonces w) in (a, {| nonces := n; pdf := pdf w |}).
Definition inPdfHandler {A} (m : St PdfHandler.State A) : St World A :=
  fun w => let '(a, p) := m (pdf w) in (a, {| nonces := nonces w; pdf := p |}).

(** [req.uid || 0] *)
Definition uidOrGuest (req : Request) : Z :=
  match req_uid req with
  | Some u => if decide (u = 0) then 0 else u
  | None => 0
  end.

(** The [Date.now()] readings one request can make, in program order. *)
Record Clock := {
  atValidate : Z;
  atCacheTest : Z;
  atCacheStore : Z;
}.

Definition binaryHeaders : list (string * string) :=
  [("Content-Type", "image/gif");
   ("Cache-Control", "no-store, no-cache, must-revalidate, private");
   ("X-Content-Type-Options", "nosniff");
   ("Content-Disposition", "inline")].

Section WithEnvironment.

Variable cfg : PdfHandler.Config.
Variable firstPageOf : list Z -> Completion (list Z).

(** [partialXorEncode] run on the heap of the document store. *)
Definition partialXorEncode (buffer : loc) (xorKey : list Z)
    : St PdfHandler.State loc :=
  fun s =>
    let '(data, h) := Codec.partialXorEncode buffer xorKey (PdfHandler.heap s) in
    (data, PdfHandler.withHeap (fun _ => h) s).

(** The [if (data.isPremium) ... else ...] of [servePdfBinary]: which
    variant of the document the request is served from. *)
Definition fetchPdf (data : NonceStore.NonceData) (clock : Clock)
    : St PdfHandler.State (Completion loc) :=
  if NonceStore.isPremium data
  then PdfHandler.getFullPdf cfg (NonceStore.file data)
  else PdfHandler.getSinglePagePdf cfg firstPageOf
         (NonceStore.file data) (atCacheTest clock) (atCacheStore clock).

(** [Controllers.servePdfBinary(req, res)] *)
Definition servePdfBinary (req : Request) (clock : Clock)
    : St World Response :=
  match query_nonce req with
  | None => ret (jsonError 400 "Missing nonce")
  | Some nonce =>
  if falsy nonce then ret (jsonError 400 "Missing nonce") else
  let uid := uidOrGuest req in
  let! data := inNonceStore (NonceStore.validate nonce uid (atValidate clock)) in
  match data with
  | None => ret (jsonError 403 "Invalid or expired nonce")
  | Some data =>
      let! pdfBuffer := inPdfHandler (fetchPdf data clock) in
      match pdfBuffer with
      | Return pdfBuffer =>
          let! encodedBuffer := inPdfHandler
            (partialXorEncode pdfBuffer (NonceStore.xorKey data)) in
          ret {| status := 200; headers := binaryHeaders;
                 body := Binary encodedBuffer |}
      | Throw message =>
          if decide (message = "File not found")
          then ret (jsonError 404 "PDF not found")
          else ret (jsonError 500 "Internal error")
      end
  end
  end.

End WithEnvironment.

End Controllers.

(* ===================================================================== *)
(** * The plugin entry point *)
(* ===================================================================== *)

Module Plugin.
Import JS Controllers.
Local Open Scope js_scope.

(** The object passed to [res.set] by the viewer route, and the content
    type [res.type('html')] adds. *)
Definition viewerHeaders : list (string * string) :=
  [("X-Frame-Options", "SAMEORIGIN");
   ("X-Content-Type-Options", "nosniff");
   ("X-XSS-Protection", "1; mode=block");
   ("Cache-Control", "no-store, no-cache, must-revalidate, private, max-age=0");
   ("Pragma", "no-cache");
   ("Expires", "0");
   ("Referrer-Policy", "no-referrer");
   ("Permissions-Policy",
    "accelerometer=(), camera=(), geolocation=(), gyroscope=(), magnetometer=(), microphone=(), payment=(), usb=()");
   ("Content-Security-Policy",
    "default-src 'self'; script-src 'self' 'unsafe-inline' 'unsafe-eval' https://cdnjs.cloudflare.com; style-src 'self' 'unsafe-inline' https://cdnjs.cloudflare.com; img-src 'self' data: blob:; connect-src 'self'; frame-ancestors 'self'");
   ("Content-Type", "text/html")].

(** [res.status(code).send(text)] *)
Definition sendText (code : Z) (text : string) : Response :=
  {| status := code; headers := []; body := Text text |}.

(** The handler of [/plugins/pdf-secure/viewer].  [viewerHtmlCache] is
    the module variable of that name; [nonce], [key] and [now] are what
    [NonceStore.generate] draws when it is reached. *)
Definition viewer (viewerHtmlCache : option string) (req : Request)
    (nonce : string) (key : list Z) (now : Z)
    : St (gmap string NonceStore.NonceData) Response :=
  match query_file req with
  | None => ret (sendText 400 "Missing file parameter")
  | Some file =>
  if falsy file then ret (sendText 400 "Missing file parameter") else
  let safeName := basename file in
  if falsy safeName || negb (endsWith (toLowerCase safeName) ".pdf")
  then ret (sendText 400 "Invalid file") else
  match viewerHtmlCache with
  | None => ret (sendText 500 "Viewer not available")
  | Some html =>
  if falsy html then ret (sendText 500 "Viewer not available") else
  let isPremium := true in
  let! nonceData :=
    NonceStore.generate (uidOrGuest req) safeName isPremium nonce key now in
  ret {| status := 200;
         headers := viewerHeaders;
         body := ViewerPage safeName (fst nonceData) (snd nonceData) |}
  end
  end.

(** ** The two guards in front of the upload directory *)

(** What a middleware does with a request: it answers, or it calls
    [next()]. *)
Inductive Outcome :=
  | Next
  | Respond (res : Response).

(** The first [router.use]: the double-slash guard; [path] is [req.path]. *)
Definition doubleSlashGuard (path : string) : Outcome :=
  if includes path "//" && includes (toLowerCase path) ".pdf"
  then Respond (jsonError 403 "Invalid path")
  else Next.

Definition directAccessDenied : Response :=
  jsonError 403 "Direct PDF access is not allowed. Use the secure viewer.".

(** ** Meta tags *)

(** A meta tag of the page; a field the object does not have is [None]. *)
Record Tag := {
  property : option string;
  name : option string;
  content : option string;
}.

(** What the hook reads of [hookData]: [tags], and [req.uid] ([None] when
    there is no [req] or no [uid]). *)
Record HookData := {
  tags : option (list Tag);
  hook_uid : option Z;
}.

(** [!!x] for an optional string. *)
Definition truthy (x : option string) : bool :=
  match x with
  | Some s => negb (falsy s)
  | None => false
  end.

(** [x === literal] *)
Definition strictEq (x : option string) (literal : string) : bool :=
  bool_decide (x = Some literal).

(** [tag.content && tag.content.toLowerCase().includes('.pdf')] *)
Definition mentionsPdf (tag : Tag) : bool :=
  truthy (content tag) &&
  match content tag with
  | Some c => includes (toLowerCase c) ".pdf"
  | None => false
  end.

(** The callback of [hookData.tags.filter]. *)
Definition keepTag (tag : Tag) : bool :=
  if (strictEq (property tag) "og:image" || strictEq (property tag) "og:image:url")
     && mentionsPdf tag then false
  else if strictEq (name tag) "twitter:image" && mentionsPdf tag then false
  else true.

(** [s.replace(/\.pdf/gi, '')]: the text is scanned from the left; where a
    dot is followed by [p], [d], [f] in either case the four characters are
    dropped and the scan goes on after them. *)
Definition isDotPdf (a b c d : ascii) : bool :=
  bool_decide (a = "."%char) && bool_decide (lowerChar b = "p"%char) &&
  bool_decide (lowerChar c = "d"%char) && bool_decide (lowerChar d = "f"%char).
Fixpoint removeDotPdfChars (cs : list ascii) : list ascii :=
  match cs with
  | [] => []
  | a :: tl =>
      match tl with
      | b :: c :: d :: rest =>
          if isDotPdf a b c d then removeDotPdfChars rest
          else a :: removeDotPdfChars tl
      | _ => a :: removeDotPdfChars tl
      end
  end.
Definition removeDotPdf (s : string) : string :=
  str (removeDotPdfChars (chars s)).

(** The callback of [hookData.tags.map]. *)
Definition sanitizeTag (tag : Tag) : Tag :=
  if (strictEq (name tag) "description" || strictEq (property tag) "og:description")
     && truthy (content tag)
  then {| property := property tag; name := name tag;
          content := removeDotPdf <$> content tag |}
  else tag.

Section WithGroups.

(** [groups.isMember(uid, groupName)] of the host. *)
Variable isMember : Z -> string -> bool.

(** [isAdmin || isGlobalMod] *)
Definition privileged (uid : Z) : bool :=
  isMember uid "administrators" || isMember uid "Global Moderators".

(** The handler of [/assets/uploads/files/:filename]; [filename] is
    [req.params.filename]. *)
Definition directAccessBlocker (filename : option string)
    (req_uid : option Z) : Outcome :=
  if truthy filename &&
     match filename with
     | Some f => endsWith (toLowerCase f) ".pdf"
     | None => false
     end
  then
    match req_uid with
    | Some uid =>
        if decide (uid = 0) then Respond directAccessDenied
        else if privileged uid then Next
        else Respond directAccessDenied
    | None => Respond directAccessDenied
    end
  else Next.

(** [plugin.filterMetaTags(hookData)]; [None] is a [hookData] that is
    null or undefined. *)
Definition filterMetaTags (hookData : option HookData) : option HookData :=
  match hookData with
  | None => None
  | Some data =>
      match tags data with
      | None => Some data
      | Some allTags =>
          let bypass :=
            match hook_uid data with
            | Some uid => if decide (uid = 0) then false else privileged uid
            | None => false
            end in
          if bypass then Some data
          else
            let kept := List.filter keepTag allTags in
            Some {| tags := Some (map sanitizeTag kept);
                    hook_uid := hook_uid data |}
      end
  end.

End WithGroups.

End Plugin.

(* ===================================================================== *)
(** * static/viewer-app.js: the decoder in the browser *)
(* ===================================================================== *)

Module ViewerApp.
Import JS Codec.

(** [partialXorDecode(encodedData, keyBase64)], on the heap of the browser.
    [new Uint8Array(encodedData)] is a view on the bytes of the
    [ArrayBuffer] it is given, not a copy: the loops write into
    [encodedData] itself, and [data.buffer] is that same object.  [None]
    stands for the exception of [atob]. *)
Definition partialXorDecode (encodedData : loc) (keyBase64 : string)
    (h : heap) : option (loc * heap) :=
  match fromBase64 keyBase64 with
  | None => None
  | Some key =>
      let data := encodedData in
      let fullDecryptLen := Nat.min tenKiB (lengthOf h data) in
      let h := fullLoop fullDecryptLen data key fullDecryptLen 0 h in
      let h := strideLoop (lengthOf h data) data key fullDecryptLen h in
      Some (data, h)
  end.

End ViewerApp.

(* ===================================================================== *)
(** * The plugin as a whole *)
(* ===================================================================== *)

Module System.
Import JS Controllers.

(** What can happen to the running plugin: one of its two routes is
    requested, or one of its two timers fires. *)
Inductive Action :=
  | ViewerRequest (req : Request) (nonce : string) (key : list Z) (now : Z)
  | PdfDataRequest (req : Request) (clock : Clock)
  | NonceSweep (now : Z)
  | CacheSweep (now : Z).

(** [crypto.randomBytes(8)] returns eight bytes. *)
Definition drawn (a : Action) : Prop :=
  match a with
  | ViewerRequest _ _ key _ => is_bytes key /\ length key = 8%nat
  | _ => True
  end.

Section WithEnvironment.

Variable cfg : PdfHandler.Config.
Variable firstPageOf : list Z -> Completion (list Z).
Variable viewerHtmlCache : option string.

Definition handle (a : Action) : St World (option Response) :=
  match a with
  | ViewerRequest req nonce key now =>
      JS.bind (inNonceStore (Plugin.viewer viewerHtmlCache req nonce key now))
        (fun res => ret (Some res))
  | PdfDataRequest req clock =>
      JS.bind (servePdfBinary cfg firstPageOf req clock)
        (fun res => ret (Some res))
  | NonceSweep now =>
      JS.bind (inNonceStore (NonceStore.cleanup now)) (fun _ => ret None)
  | CacheSweep now =>
      JS.bind (inPdfHandler (PdfHandler.cleanup now)) (fun _ => ret None)
  end.

(** The state right after the modules are loaded. *)
Definition start (disk : gmap string PdfHandler.FsNode) : World :=
  {| nonces := ∅;
     pdf := {| PdfHandler.heap := [];
               PdfHandler.singlePageCache := ∅;
               PdfHandler.disk := disk;
               PdfHandler.calls := [] |} |}.

Inductive reachable (disk : gmap string PdfHandler.FsNode) : World -> Prop :=
  | reachable_start : reachable disk (start disk)
  | reachable_step a w :
      reachable disk w -> drawn a -> reachable disk (handle a w).2.

End WithEnvironment.

End System.

(* ===================================================================== *)
(** * Vocabulary of the statements *)
(* ===================================================================== *)

(** The canonical upload-files root: [resolvedUploadDir]. *)
Definition filesRoot (cfg : PdfHandler.Config) : string :=
  JS.resolve (PdfHandler.cwd cfg)
    [JS.join [PdfHandler.uploadPath cfg; "files"]].

(** Every filename the derivative cache holds an entry for is one the path
    resolver accepts. *)
Definition cacheKeysResolve (cfg : PdfHandler.Config) (s : PdfHandler.State)
    : Prop :=
  forall filename entry,
    PdfHandler.singlePageCache s !! filename = Some entry ->
    is_Some (PdfHandler.resolveFilePath cfg filename).

(** Every stored nonce carries the full-document entitlement. *)
Definition allPremium (store : gmap string NonceStore.NonceData) : Prop :=
  forall nonce data,
    store !! nonce = Some data -> NonceStore.isPremium data = true.

(** What one loop iteration of the codec stores at offset [i] when the byte
    there is [b]. *)
Definition xorByte (key : list Z) (i : nat) (b : Z) : Z :=
  JS.toUint8 (JS.xor (Some b) (JS.keyAt key i)).

(** The offsets the codec touches: all of the first 10 KiB, then every
    50th offset counted from 10240. *)
Definition covered (i : nat) : Prop :=
  (i < Codec.tenKiB \/ (i - Codec.tenKiB) mod 50 = 0)%nat.

#[global] Instance covered_dec i : Decision (covered i).
Proof. unfold covered. apply _. Defined.

(** A segment the normaliser pushes as it is. *)
Definition plain (seg : string) : Prop :=
  seg <> "" /\ seg <> "." /\ seg <> ".." /\ ~ In JS.slash (JS.chars seg).

(** A segment the normaliser may keep: non-empty and free of separators. *)
Definition kept (seg : string) : Prop :=
  seg <> "" /\ ~ In JS.slash (JS.chars seg).

(** The leading separator of a path and its segments after
    normalisation. *)
Definition leadingSlash (p : string) : string :=
  if JS.startsWith p "/" then "/" else "".
Definition normalSegments (p : string) : list string :=
  JS.normalizeSegments (negb (JS.startsWith p "/")) []
    (JS.splitSlash [] (JS.chars p)).

(** The names the resolver is meant for: one non-empty segment without
    [".."]. *)
Definition simpleName (f : string) : Prop :=
  f <> "" /\ ~ In JS.slash (JS.chars f) /\ JS.includes f ".." = false.

(** Every buffer on the heap holds bytes. *)
Definition heapBytes (h : list (list Z)) : Prop := Forall JS.is_bytes h.

(** Every stored nonce carries a key of eight bytes. *)
Definition keysDrawn (store : gmap string NonceStore.NonceData) : Prop :=
  forall nonce data,
    store !! nonce = Some data ->
    JS.is_bytes (NonceStore.xorKey data) /\ length (NonceStore.xorKey data) = 8%nat.

(** Every stored nonce names a file with the extension [.pdf], in some
    letter case. *)
Definition pdfNamed (store : gmap string NonceStore.NonceData) : Prop :=
  forall nonce data,
    store !! nonce = Some data ->
    JS.endsWith (JS.toLowerCase (NonceStore.file data)) ".pdf" = true.

(** A logged call that is [readFile] on a PDF directly under the files
    directory. *)
Definition readsPdf (cfg : PdfHandler.Config) (e : PdfHandler.Event) : Prop :=
  exists f,
    e = PdfHandler.ReadFile
          (JS.join [PdfHandler.uploadPath cfg; "files"; f]) /\
    simpleName f /\
    JS.endsWith (JS.toLowerCase f) ".pdf" = true.

(** The tags the meta-tag hook removes when they mention a PDF: the three
    kinds of preview image. *)
Definition imageTag (tag : Plugin.Tag) : bool :=
  Plugin.strictEq (Plugin.property tag) "og:image"
  || Plugin.strictEq (Plugin.property tag) "og:image:url"
  || Plugin.strictEq (Plugin.name tag) "twitter:image".

(* ===================================================================== *)
(** * Concrete inputs for the examples *)
(* ===================================================================== *)

Module Fixtures.
Import JS Controllers.

Definition cfg : PdfHandler.Config :=
  {| PdfHandler.upload_path := None;
     PdfHandler.base_dir := "/srv/nodebb";
     PdfHandler.cwd := "/srv/nodebb" |}.

(** A stand-in for [pdf-lib]: a document is its header line followed by
    one byte per page, and the derived document keeps the header and the
    first page. *)
Definition firstPageOf (bs : list Z) : Completion (list Z) :=
  if decide (length bs <= 5)%nat then Throw "No pages"
  else Return (take 6 bs).

Definition reportBytes : list Z := [37; 80; 68; 70; 45; 11; 22; 33; 44; 55].

Definition disk : gmap string PdfHandler.FsNode :=
  {[ "/srv/nodebb/public/uploads/files/report.pdf"
       := PdfHandler.RegularFile reportBytes ]}.

Definition key : list Z := [165; 90; 1; 2; 3; 4; 5; 6].

Definition viewerOf (file : string) (uid : Z) : Request :=
  {| query_nonce := None; query_file := Some file; req_uid := Some uid |}.
Definition dataOf (nonce : string) (uid : Z) : Request :=
  {| query_nonce := Some nonce; query_file := None; req_uid := Some uid |}.
Definition at_ (t : Z) : Clock :=
  {| atValidate := t; atCacheTest := t; atCacheStore := t + 5 |}.

Definition html : option string := Some "<html><head></head></html>".

(** The state after user 42 opened the viewer on [file] at time 1000 and
    [uuidv4()] returned ["n-1"]. *)
Definition afterViewer (file : string) : World :=
  (System.handle cfg firstPageOf html
     (System.ViewerRequest (viewerOf file 42) "n-1" key 1000)
     (System.start disk)).2.

(** A state of the document store in which the derivative of
    [report.pdf] was cached at time 1000. *)
Definition cachedState : PdfHandler.State :=
  {| PdfHandler.heap := [[37; 80; 68; 70; 45; 11]];
     PdfHandler.singlePageCache :=
       {[ "report.pdf" := {| PdfHandler.buffer := 0%nat;
                             PdfHandler.createdAt := 1000 |} ]};
     PdfHandler.disk := disk;
     PdfHandler.calls := [] |}.

Definition freshState : PdfHandler.State :=
  {| PdfHandler.heap := [];
     PdfHandler.singlePageCache := ∅;
     PdfHandler.disk := disk;
     PdfHandler.calls := [] |}.

(** The record stored for user 42 at time 1000. *)
Definition token (file : string) (isPremium : bool) (key : list Z)
    : NonceStore.NonceData :=
  {| NonceStore.uid := 42; NonceStore.file := file;
     NonceStore.isPremium := isPremium;
     NonceStore.xorKey := key; NonceStore.createdAt := 1000 |}.

Definition key2 : list Z := [7; 7; 7; 7; 250; 9; 8; 19].

(** A state with two first-page tokens for the same file and nothing
    cached yet. *)
Definition restricted : World :=
  {| nonces := {[ "n-1" := token "report.pdf" false key;
                  "n-2" := token "report.pdf" false key2 ]};
     pdf := freshState |}.

(** The state after the viewer was opened on [report.pdf] and the page
    fetched the document at time 2000. *)
Definition afterData : World :=
  (System.handle cfg firstPageOf html
     (System.PdfDataRequest (dataOf "n-1" 42) (at_ 2000))
     (afterViewer "report.pdf")).2.

(** A forum in which user 1 is the only administrator and nobody is a
    global moderator. *)
Definition isMember (uid : Z) (group : string) : bool :=
  bool_decide (uid = 1) && bool_decide (group = "administrators").

(** The meta tags of a topic page whose first post links a PDF. *)
Definition pageTags : list Plugin.Tag :=
  [ {| Plugin.property := Some "og:title"; Plugin.name := None;
       Plugin.content := Some "Quarterly report" |};
    {| Plugin.property := Some "og:image"; Plugin.name := None;
       Plugin.content := Some "/assets/uploads/files/Report.PDF" |};
    {| Plugin.property := None; Plugin.name := Some "twitter:image";
       Plugin.content := Some "/assets/uploads/files/logo.png" |};
    {| Plugin.property := None; Plugin.name := Some "description";
       Plugin.content := Some "See report.pdf for details" |} ].
Definition hookOf (uid : option Z) : Plugin.HookData :=
  {| Plugin.tags := Some pageTags; Plugin.hook_uid := uid |}.

End Fixtures.

Arguments Codec.tenKiB : simpl never.
Arguments Codec.partialXorEncode : simpl never.
Arguments Controllers.partialXorEncode : simpl never.
Arguments Controllers.fetchPdf : simpl never.
Arguments PdfHandler.getSinglePagePdf : simpl never.
Arguments PdfHandler.getFullPdf : simpl never.
Arguments PdfHandler.resolveFilePath : simpl never.

(* ===================================================================== *)
(** * Properties of the byte codec *)
(* ===================================================================== *)

Section CodecFacts.
Import JS Codec.

Implicit Types (h : heap) (bs key : list Z) (d i j : nat).

Lemma toInt32_byte b : is_byte b -> toInt32 (Some b) = b.
Proof. unfold is_byte, toInt32. intros Hb. rewrite Z.mod_small; lia. Qed.

Lemma tenKiB_Z : Z.of_nat tenKiB = 10240.
Proof. unfold tenKiB. lia. Qed.

Lemma lookup_heap_insert h d bs :
  is_Some (h !! d) -> <[d := bs]> h !! d = Some bs.
Proof. intros Hd. apply list_lookup_insert_eq. by apply lookup_lt_is_Some. Qed.

Lemma xorAt_insert h d key i bs :
  h !! d = Some bs ->
  xorAt d key i h = <[d := <[i := toUint8 (xor (bs !! i) (keyAt key i))]> bs]> h.
Proof.
  intros Hd. unfold xorAt, set, get, bytesOf. rewrite Hd. simpl.
  apply list_eq. intros d'. destruct (decide (d' = d)) as [->|Hne].
  - rewrite list_lookup_alter, Hd, lookup_heap_insert by eauto.
    by rewrite decide_True.
  - rewrite list_lookup_alter_ne, list_lookup_insert_ne by done. done.
Qed.

Lemma lookup_xorAt_byte key i bs j :
  <[i := toUint8 (xor (bs !! i) (keyAt key i))]> bs !! j =
  if decide (j = i) then xorByte key i <$> bs !! j else bs !! j.
Proof.
  destruct (decide (j = i)) as [->|Hne].
  - destruct (bs !! i) as [b|] eqn:Hb.
    + rewrite list_lookup_insert_eq by (by eapply lookup_lt_Some). done.
    + rewrite list_insert_ge by (by apply lookup_ge_None). by rewrite Hb.
  - by rewrite list_lookup_insert_ne.
Qed.

(** The first loop XORs exactly the offsets from [i] up to the bound, and
    it does so whenever the fuel covers the distance to the bound. *)
Lemma fullLoop_spec d key stop fuel : forall i bs h,
  h !! d = Some bs ->
  (stop - i <= fuel)%nat ->
  exists out,
    fullLoop fuel d key stop i h = <[d := out]> h /\
    length out = length bs /\
    forall j, out !! j =
      if decide (i <= j < stop)%nat then xorByte key j <$> bs !! j else bs !! j.
Proof.
  induction fuel as [|fuel IH]; intros i bs h Hd Hfuel; cbn [fullLoop].
  - exists bs. split; [by rewrite list_insert_id|]. split; [done|].
    intros j. case_decide; [lia|done].
  - case_decide as Hlt.
    + rewrite (xorAt_insert _ _ _ _ _ Hd).
      set (bs1 := <[i := _]> bs).
      destruct (IH (i + 1)%nat bs1 (<[d := bs1]> h)) as (out & Hrun & Hlen & Hout).
      { apply lookup_heap_insert. eauto. }
      { lia. }
      exists out. split; [by rewrite Hrun, list_insert_insert_eq|].
      split; [by rewrite Hlen; unfold bs1; rewrite length_insert|].
      intros j. rewrite Hout. unfold bs1. rewrite lookup_xorAt_byte.
      repeat case_decide; subst; try lia; done.
    + exists bs. split; [by rewrite list_insert_id|]. split; [done|].
      intros j. case_decide; [lia|done].
Qed.

Lemma mod_add_50 (a : nat) : ((a + 50) mod 50 = a mod 50)%nat.
Proof. exact (Nat.Div0.mod_add a 1 50). Qed.

Lemma lengthOf_lookup h d bs : h !! d = Some bs -> lengthOf h d = length bs.
Proof. unfold lengthOf, bytesOf. by intros ->. Qed.

(** The second loop XORs the offsets [i], [i + 50], [i + 100], ... below
    the length of the buffer. *)
Lemma strideLoop_spec d key fuel : forall i bs h,
  h !! d = Some bs ->
  (length bs - i <= fuel)%nat ->
  exists out,
    strideLoop fuel d key i h = <[d := out]> h /\
    length out = length bs /\
    forall j, out !! j =
      if decide (i <= j /\ (j - i) mod 50 = 0)%nat
      then xorByte key j <$> bs !! j else bs !! j.
Proof.
  induction fuel as [|fuel IH]; intros i bs h Hd Hfuel; cbn [strideLoop].
  - exists bs. split; [by rewrite list_insert_id|]. split; [done|].
    intros j. case_decide as Hj; [|done].
    rewrite (lookup_ge_None_2 bs j) by lia. done.
  - rewrite (lengthOf_lookup _ _ _ Hd). case_decide as Hlt.
    + rewrite (xorAt_insert _ _ _ _ _ Hd).
      set (bs1 := <[i := _]> bs).
      destruct (IH (i + 50)%nat bs1 (<[d := bs1]> h)) as (out & Hrun & Hlen & Hout).
      { apply lookup_heap_insert. eauto. }
      { unfold bs1. rewrite length_insert. lia. }
      exists out. split; [by rewrite Hrun, list_insert_insert_eq|].
      split; [by rewrite Hlen; unfold bs1; rewrite length_insert|].
      intros j. rewrite Hout. unfold bs1. rewrite lookup_xorAt_byte.
      destruct (decide (j = i)) as [->|Hne].
      * rewrite decide_False by lia. rewrite decide_True; [done|].
        split; [lia|]. by rewrite Nat.sub_diag.
      * destruct (decide (i + 50 <= j)%nat) as [Hge|Hlt'].
        -- assert (j - i = (j - (i + 50)) + 50)%nat as -> by lia.
           rewrite mod_add_50.
           repeat case_decide; try done; lia.
        -- rewrite decide_False by lia.
           case_decide as Hj; [|done]. destruct Hj as [Hj1 Hj2].
           rewrite Nat.mod_small in Hj2 by lia. lia.
    + exists bs. split; [by rewrite list_insert_id|]. split; [done|].
      intros j. case_decide as Hj; [|done].
      rewrite (lookup_ge_None_2 bs j) by lia. done.
Qed.

(** ** The fuel never runs out

    Once the fuel covers the distance to the bound, more of it changes
    nothing: both loops stop because their test fails. *)

Lemma fullLoop_fuel d key stop fuel : forall extra i h,
  (stop - i <= fuel)%nat ->
  fullLoop (fuel + extra) d key stop i h = fullLoop fuel d key stop i h.
Proof.
  induction fuel as [|fuel IH]; intros extra i h Hfuel.
  - destruct extra; cbn [fullLoop Nat.add]; [done|].
    by rewrite decide_False by lia.
  - cbn [fullLoop Nat.add]. case_decide; [|done]. apply IH. lia.
Qed.

Lemma lengthOf_xorAt h d key i : lengthOf (xorAt d key i h) d = lengthOf h d.
Proof.
  unfold xorAt, set, lengthOf, bytesOf. rewrite list_lookup_alter.
  rewrite decide_True by done.
  destruct (h !! d) as [bs|]; simpl; [|done]. by rewrite length_insert.
Qed.

Lemma strideLoop_fuel d key fuel : forall extra i h,
  (lengthOf h d - i <= fuel)%nat ->
  strideLoop (fuel + extra) d key i h = strideLoop fuel d key i h.
Proof.
  induction fuel as [|fuel IH]; intros extra i h Hfuel.
  - destruct extra; cbn [strideLoop Nat.add]; [done|].
    by rewrite decide_False by lia.
  - cbn [strideLoop Nat.add]. case_decide; [|done]. apply IH.
    rewrite lengthOf_xorAt. lia.
Qed.

(** The two loops together, on whatever buffer they are run: the covered
    offsets are XORed in place, nothing else changes. *)
Lemma xorLoops_spec d key bs h :
  h !! d = Some bs ->
  exists out,
    (let m := Nat.min tenKiB (lengthOf h d) in
     let h1 := fullLoop m d key m 0 h in
     strideLoop (lengthOf h1 d) d key m h1) = <[d := out]> h /\
    length out = length bs /\
    forall j, out !! j =
      if decide (covered j) then xorByte key j <$> bs !! j else bs !! j.
Proof.
  intros Hd. cbv zeta. rewrite (lengthOf_lookup _ _ _ Hd).
  set (m := Nat.min tenKiB (length bs)).
  destruct (fullLoop_spec d key m m 0%nat bs h Hd) as (out1 & -> & Hlen1 & Hout1);
    [lia|].
  assert (Hd1 : <[d := out1]> h !! d = Some out1)
    by (apply lookup_heap_insert; eauto).
  rewrite (lengthOf_lookup _ _ _ Hd1).
  destruct (strideLoop_spec d key (length out1) m out1 _ Hd1)
    as (out2 & -> & Hlen2 & Hout2); [lia|].
  exists out2. split; [by rewrite list_insert_insert_eq|].
  split; [congruence|].
  intros j. rewrite Hout2, Hout1. unfold covered.
  destruct (bs !! j) as [b|] eqn:Hb.
  - apply lookup_lt_Some in Hb.
    destruct (decide (j < m)%nat) as [Hjm|Hjm].
    + rewrite decide_False by lia. rewrite decide_True by lia.
      rewrite decide_True by lia. done.
    + assert (m = tenKiB) as -> by lia.
      rewrite (decide_False (P := (0 <= j < tenKiB)%nat)) by lia.
      repeat case_decide; try done; lia.
  - repeat case_decide; done.
Qed.

(** The whole transform: a new buffer, allocated at the end of the heap,
    whose bytes are those of the input with the covered offsets XORed. *)
Lemma partialXorEncode_spec h buffer key :
  exists out,
    partialXorEncode buffer key h = (length h, h ++ [out]) /\
    length out = length (bytesOf h buffer) /\
    forall j, out !! j =
      if decide (covered j)
      then xorByte key j <$> bytesOf h buffer !! j
      else bytesOf h buffer !! j.
Proof.
  unfold partialXorEncode, from, alloc.
  set (bs := bytesOf h buffer).
  assert (Hd : (h ++ [bs]) !! length h = Some bs)
    by apply list_lookup_middle, eq_refl.
  destruct (xorLoops_spec (length h) key bs (h ++ [bs]) Hd)
    as (out & Hrun & Hlen & Hout).
  cbv zeta in Hrun. rewrite Hrun.
  exists out. split; [|by split].
  f_equal. rewrite insert_app_r_alt by lia. by rewrite Nat.sub_diag.
Qed.

(** ** Bit-level facts about one XORed byte *)

Lemma toUint8_land v : toUint8 v = Z.land v (Z.ones 8).
Proof. unfold toUint8. by rewrite Z.land_ones. Qed.

Lemma byte_land b : is_byte b -> Z.land b (Z.ones 8) = b.
Proof.
  unfold is_byte. intros Hb. rewrite Z.land_ones by lia.
  apply Z.mod_small. lia.
Qed.

Lemma toUint8_is_byte v : is_byte (toUint8 v).
Proof. unfold is_byte, toUint8. pose proof (Z.mod_pos_bound v 256). lia. Qed.

Lemma xorByte_is_byte key i b : is_byte (xorByte key i b).
Proof. apply toUint8_is_byte. Qed.

Lemma land_lxor_land a k m :
  Z.land (Z.lxor (Z.land a m) k) m = Z.land (Z.lxor a k) m.
Proof.
  apply Z.bits_inj'. intros n Hn.
  rewrite !Z.land_spec, !Z.lxor_spec, Z.land_spec.
  by destruct (Z.testbit a n), (Z.testbit k n), (Z.testbit m n).
Qed.

(** Storing [b ^ k] twice with the same [k] gives [b] back, whatever the
    key read was ([undefined] included). *)
Lemma xorByte_involutive key i b :
  is_byte b -> xorByte key i (xorByte key i b) = b.
Proof.
  intros Hb. unfold xorByte at 1. unfold xor.
  rewrite (toInt32_byte _ (xorByte_is_byte key i b)).
  unfold xorByte, xor. rewrite (toInt32_byte _ Hb).
  rewrite !toUint8_land, land_lxor_land, Z.lxor_assoc, Z.lxor_nilpotent.
  rewrite Z.lxor_0_r. by apply byte_land.
Qed.

(** With a key byte in range nothing is truncated: the stored value is
    the plain XOR. *)
Lemma xorByte_lxor key i b k :
  is_byte b -> is_byte k -> keyAt key i = Some k ->
  xorByte key i b = Z.lxor b k.
Proof.
  intros Hb Hk Hkey. unfold xorByte, xor. rewrite Hkey.
  rewrite (toInt32_byte _ Hb), (toInt32_byte _ Hk), toUint8_land.
  rewrite <- (byte_land b Hb) at 2. rewrite <- (byte_land k Hk) at 2.
  apply Z.bits_inj'. intros n Hn.
  rewrite !Z.land_spec, !Z.lxor_spec, !Z.land_spec.
  by destruct (Z.testbit b n), (Z.testbit k n), (Z.testbit (Z.ones 8) n).
Qed.

(** The output of the codec is again a buffer of bytes. *)
Lemma partialXorEncode_heapBytes h buffer key :
  heapBytes h -> heapBytes (partialXorEncode buffer key h).2.
Proof.
  intros Hh.
  destruct (partialXorEncode_spec h buffer key) as (out & -> & _ & Hout).
  cbn [snd]. apply Forall_app. split; [done|]. apply Forall_singleton.
  assert (Hin : is_bytes (bytesOf h buffer)).
  { unfold bytesOf. destruct (h !! buffer) as [bs|] eqn:Hb; simpl.
    - exact (Forall_lookup_1 _ _ _ _ Hh Hb).
    - constructor. }
  apply Forall_lookup_2. intros j x Hx. rewrite Hout in Hx.
  destruct (bytesOf h buffer !! j) as [b|] eqn:Hb.
  - case_decide; simplify_eq/=.
    + apply xorByte_is_byte.
    + exact (Forall_lookup_1 _ _ _ _ Hin Hb).
  - by case_decide.
Qed.

Lemma keyAt_nonempty key i :
  key <> [] -> exists k, keyAt key i = Some k.
Proof.
  intros Hne. unfold keyAt. apply lookup_lt_is_Some.
  apply Nat.mod_upper_bound. by destruct key.
Qed.

End CodecFacts.

Section CodecTheorems.
Import JS Codec.

(** C1.  Applying [partialXorEncode] to its own output with the same key
    gives back a buffer holding exactly the bytes of the original input.
    This holds for every buffer of bytes and every key (so for every
    non-empty one); both passes use the coverage the function has built
    in: the first 10 KiB in full, then stride 50. *)
Theorem partialXorEncode_twice_restores (h : heap) (buffer : loc) (key : list Z) :
  is_bytes (bytesOf h buffer) ->
  let '(once, h1) := partialXorEncode buffer key h in
  let '(twice, h2) := partialXorEncode once key h1 in
  bytesOf h2 twice = bytesOf h buffer.
Proof.
  intros Hbytes.
  destruct (partialXorEncode_spec h buffer key) as (out1 & -> & Hlen1 & Hout1).
  destruct (partialXorEncode_spec (h ++ [out1]) (length h) key)
    as (out2 & -> & Hlen2 & Hout2).
  assert (Hout1' : bytesOf (h ++ [out1]) (length h) = out1).
  { unfold bytesOf. by rewrite list_lookup_middle. }
  rewrite Hout1' in Hlen2, Hout2.
  unfold bytesOf at 1. rewrite list_lookup_middle by (by rewrite length_app).
  simpl. apply list_eq. intros j. rewrite Hout2, Hout1.
  destruct (bytesOf h buffer !! j) as [b|] eqn:Hb.
  - case_decide; [|done]. simpl. f_equal. apply xorByte_involutive.
    eapply Forall_lookup_1; eauto.
  - by case_decide.
Qed.

Lemma partialXorEncode_twice_restores_witness :
  is_bytes (bytesOf [[37; 80; 68; 70; 45]] 0%nat) /\
  let '(once, h1) := partialXorEncode 0%nat [165; 90] [[37; 80; 68; 70; 45]] in
  let '(twice, h2) := partialXorEncode once [165; 90] h1 in
  bytesOf h2 twice = bytesOf [[37; 80; 68; 70; 45]] 0%nat.
Proof.
  assert (H : is_bytes (bytesOf [[37; 80; 68; 70; 45]] 0%nat))
    by (unfold is_bytes, is_byte; simpl; repeat constructor; lia).
  split; [exact H|].
  exact (partialXorEncode_twice_restores [[37; 80; 68; 70; 45]] 0%nat [165; 90] H).
Defined.

(** C6.  For a buffer of bytes and a non-empty key of bytes, the output
    has the length of the input and, at every offset [i] of the input:
    below 10240 it holds [input[i] XOR key[i mod len key]]; from 10240 on
    it holds the same XOR at the offsets 10240, 10290, 10340, ... (the key
    index still taken from the absolute offset [i]) and the input byte
    everywhere else. *)
Theorem partialXorEncode_bytewise (h : heap) (buffer : loc) (key bytes : list Z) :
  h !! buffer = Some bytes ->
  is_bytes bytes -> is_bytes key -> key <> [] ->
  exists data h' out,
    partialXorEncode buffer key h = (data, h') /\
    h' !! data = Some out /\
    length out = length bytes /\
    forall i b, bytes !! i = Some b ->
      exists k, key !! (i mod length key)%nat = Some k /\
        ((i < tenKiB)%nat -> out !! i = Some (Z.lxor b k)) /\
        ((tenKiB <= i)%nat -> ((i - tenKiB) mod 50 = 0)%nat ->
           out !! i = Some (Z.lxor b k)) /\
        ((tenKiB <= i)%nat -> ((i - tenKiB) mod 50 <> 0)%nat ->
           out !! i = Some b).
Proof.
  intros Hbuf Hbytes Hkey Hne.
  destruct (partialXorEncode_spec h buffer key) as (out & Hrun & Hlen & Hout).
  assert (Hbs : bytesOf h buffer = bytes) by (unfold bytesOf; by rewrite Hbuf).
  rewrite Hbs in Hlen, Hout.
  exists (length h), (h ++ [out]), out.
  split; [done|]. split; [by apply list_lookup_middle|]. split; [done|].
  intros i b Hb.
  destruct (keyAt_nonempty key i Hne) as [k Hk]. exists k. split; [exact Hk|].
  assert (Hbyte : is_byte b) by exact (Forall_lookup_1 _ _ _ _ Hbytes Hb).
  assert (Hkbyte : is_byte k) by exact (Forall_lookup_1 _ _ _ _ Hkey Hk).
  specialize (Hout i). rewrite Hb in Hout. simpl in Hout.
  rewrite (xorByte_lxor key i b k Hbyte Hkbyte Hk) in Hout.
  unfold covered in Hout.
  repeat split; intros; rewrite Hout; case_decide; try done; lia.
Qed.

Lemma partialXorEncode_bytewise_witness :
  [[37; 80; 68; 70; 45]] !! 0%nat = Some [37; 80; 68; 70; 45] /\
  is_bytes [37; 80; 68; 70; 45] /\ is_bytes [165; 90] /\ [165; 90] <> [] /\
  exists data h' out,
    partialXorEncode 0%nat [165; 90] [[37; 80; 68; 70; 45]] = (data, h') /\
    h' !! data = Some out /\
    length out = length [37; 80; 68; 70; 45] /\
    forall i b, [37; 80; 68; 70; 45] !! i = Some b ->
      exists k, [165; 90] !! (i mod length [165; 90])%nat = Some k /\
        ((i < tenKiB)%nat -> out !! i = Some (Z.lxor b k)) /\
        ((tenKiB <= i)%nat -> ((i - tenKiB) mod 50 = 0)%nat ->
           out !! i = Some (Z.lxor b k)) /\
        ((tenKiB <= i)%nat -> ((i - tenKiB) mod 50 <> 0)%nat ->
           out !! i = Some b).
Proof.
  assert (H1 : [[37; 80; 68; 70; 45]] !! 0%nat = Some [37; 80; 68; 70; 45])
    by reflexivity.
  assert (H2 : is_bytes [37; 80; 68; 70; 45])
    by (unfold is_bytes, is_byte; repeat constructor; lia).
  assert (H3 : is_bytes [165; 90])
    by (unfold is_bytes, is_byte; repeat constructor; lia).
  assert (H4 : [165; 90] <> ([] : list Z)) by discriminate.
  repeat (split; [assumption|]).
  exact (partialXorEncode_bytewise _ _ _ _ H1 H2 H3 H4).
Defined.

End CodecTheorems.

(* ===================================================================== *)
(** * The key in transit and the decoder in the browser *)
(* ===================================================================== *)

Section DecoderFacts.
Import JS Codec ViewerApp.

Local Ltac divmod := Z.to_euclidean_division_equations; lia.

Lemma unsextet_sextet n :
  0 <= n < 64 -> unsextet (sextet n) = Some n /\ isPad (sextet n) = false.
Proof.
  intros Hn. assert (Hm : n = Z.of_nat (Z.to_nat n)) by lia.
  assert (Hlt : (Z.to_nat n < 64)%nat) by lia.
  revert Hm Hlt. generalize (Z.to_nat n) as m. intros m -> Hlt.
  do 64 (destruct m as [|m]; [by vm_compute|]). lia.
Qed.

Lemma bytes_ind3 (P : list Z -> Prop) :
  P [] -> (forall a, P [a]) -> (forall a b, P [a; b]) ->
  (forall a b c rest, P rest -> P (a :: b :: c :: rest)) ->
  forall bs, P bs.
Proof.
  intros H0 H1 H2 H3.
  assert (H : forall bs, P bs /\ (forall a, P (a :: bs)) /\ (forall a b, P (a :: b :: bs))).
  { induction bs as [|c bs (IH0 & IH1 & IH2)]; [by auto|].
    split; [apply IH1|]. split; [intros a; apply IH2|].
    intros a b. by apply H3. }
  intros bs. apply H.
Qed.

(** The text [toBase64] produces determines the bytes it was made from:
    decoding it the way the browser does gives them back. *)
Lemma toBase64_roundtrip bs :
  is_bytes bs -> fromBase64 (toBase64 bs) = Some bs.
Proof.
  unfold fromBase64, toBase64. rewrite String.list_ascii_of_string_of_list_ascii.
  induction bs as [|a|a b|a b c rest IH] using bytes_ind3; intros Hbs.
  - done.
  - apply Forall_inv in Hbs. unfold is_byte in Hbs.
    cbn [base64Chars fromBase64Chars].
    destruct (unsextet_sextet (a / 4)) as [-> _]; [divmod|].
    destruct (unsextet_sextet (a mod 4 * 16)) as [-> _]; [divmod|].
    simpl. do 2 f_equal. divmod.
  - destruct (Forall_cons_1 _ _ _ Hbs) as [Ha Hb]. apply Forall_inv in Hb.
    unfold is_byte in *. cbn [base64Chars fromBase64Chars].
    destruct (unsextet_sextet (a / 4)) as [-> _]; [divmod|].
    destruct (unsextet_sextet (a mod 4 * 16 + b / 16)) as [-> _]; [divmod|].
    destruct (unsextet_sextet (b mod 16 * 4)) as [-> ->]; [divmod|].
    simpl. do 2 f_equal; [divmod|]. f_equal. divmod.
  - destruct (Forall_cons_1 _ _ _ Hbs) as [Ha Hbs1].
    destruct (Forall_cons_1 _ _ _ Hbs1) as [Hb Hbs2].
    destruct (Forall_cons_1 _ _ _ Hbs2) as [Hc Hrest].
    unfold is_byte in *. cbn [base64Chars fromBase64Chars].
    destruct (unsextet_sextet (a / 4)) as [-> _]; [divmod|].
    destruct (unsextet_sextet (a mod 4 * 16 + b / 16)) as [-> _]; [divmod|].
    destruct (unsextet_sextet (b mod 16 * 4 + c / 64)) as [-> ->]; [divmod|].
    destruct (unsextet_sextet (c mod 64)) as [-> ->]; [divmod|].
    simpl. rewrite (IH Hrest). simpl. do 2 f_equal; [divmod|].
    f_equal; [divmod|]. f_equal. divmod.
Qed.

(** What the server encoded, the browser decodes: if the browser holds the
    bytes the server sent and the base64 text of the key, the decoder
    leaves the original bytes in the buffer it was given. *)
Lemma partialXorDecode_restores (h client : heap) buffer received
    (key bytes : list Z) :
  h !! buffer = Some bytes -> is_bytes bytes -> is_bytes key ->
  client !! received
    = Some (bytesOf (partialXorEncode buffer key h).2
                    (partialXorEncode buffer key h).1) ->
  partialXorDecode received (toBase64 key) client
    = Some (received, <[received := bytes]> client).
Proof.
  intros Hbuf Hbytes Hkey Hrecv.
  destruct (partialXorEncode_spec h buffer key) as (sent & Hrun & Hlen & Hsent).
  rewrite Hrun in Hrecv. cbn [fst snd] in Hrecv.
  unfold bytesOf in Hrecv at 1. rewrite list_lookup_middle in Hrecv by done.
  cbn [default from_option id] in Hrecv.
  assert (Hin : bytesOf h buffer = bytes) by (unfold bytesOf; by rewrite Hbuf).
  rewrite Hin in Hsent, Hlen.
  unfold partialXorDecode. rewrite (toBase64_roundtrip key Hkey).
  destruct (xorLoops_spec received key sent client Hrecv)
    as (out & Hloops & Hlen' & Hout).
  cbv zeta in Hloops. rewrite Hloops. do 3 f_equal.
  apply list_eq. intros j. rewrite Hout, Hsent.
  destruct (bytes !! j) as [b|] eqn:Hb.
  - case_decide; [|done]. simpl. f_equal. apply xorByte_involutive.
    exact (Forall_lookup_1 _ _ _ _ Hbytes Hb).
  - by case_decide.
Qed.

End DecoderFacts.

(* ===================================================================== *)
(** * Properties of the token store *)
(* ===================================================================== *)

Section NonceStoreFacts.
Import JS NonceStore.

Implicit Types (store : gmap string NonceData) (nonce : string).

(** [validate] step by step: what it returns and the store it leaves. *)
Lemma validate_unknown store nonce uid' now :
  store !! nonce = None -> validate nonce uid' now store = (None, store).
Proof. intros Hn. unfold validate, bind, gets, ret. by rewrite Hn. Qed.

Lemma validate_known store nonce uid' now data :
  store !! nonce = Some data ->
  validate nonce uid' now store =
    (if decide (uid data <> uid') then None
     else if decide (now - createdAt data > NONCE_TTL) then None
     else Some data,
     delete nonce store).
Proof.
  intros Hn. unfold validate, bind, gets, modify, ret. rewrite Hn.
  by repeat case_decide.
Qed.

Lemma validate_removes store nonce uid' now :
  (validate nonce uid' now store).2 !! nonce = None.
Proof.
  destruct (store !! nonce) as [data|] eqn:Hn.
  - rewrite (validate_known _ _ _ _ _ Hn). apply lookup_delete_eq.
  - by rewrite (validate_unknown _ _ _ _ Hn).
Qed.

(** C2.  [validate] returns [null] exactly when the nonce is unknown, the
    uid differs from the one the nonce was issued to, or more than
    [NONCE_TTL] has elapsed since it was created; otherwise it returns the
    stored record.  Whatever it returned, the nonce is absent from the
    store afterwards, and a second [validate] of the same nonce returns
    [null] for every uid and every time. *)
Theorem validate_single_use store nonce uid' now :
  let '(result, store') := validate nonce uid' now store in
  (result = None <->
     store !! nonce = None \/
     exists data, store !! nonce = Some data /\
       (uid data <> uid' \/ now - createdAt data > NONCE_TTL)) /\
  (forall data, result = Some data -> store !! nonce = Some data) /\
  store' !! nonce = None /\
  (forall uid2 now2, validate nonce uid2 now2 store' = (None, store')).
Proof.
  pose proof (validate_removes store nonce uid' now) as Hgone.
  destruct (validate nonce uid' now store) as [result store'] eqn:Hrun.
  simpl in Hgone. split; [|split; [|split]].
  - destruct (store !! nonce) as [data|] eqn:Hn.
    + rewrite (validate_known _ _ _ _ _ Hn) in Hrun.
      injection Hrun as <- <-. split.
      * intros Hnone. right. exists data. split; [done|].
        repeat case_decide; try done; [by left|by right].
      * intros [?|(data' & [= <-] & [Hu|Ht])]; [done| |];
          repeat case_decide; done.
    + rewrite (validate_unknown _ _ _ _ Hn) in Hrun.
      injection Hrun as <- <-. split; [by left|done].
  - intros data ->. destruct (store !! nonce) as [data'|] eqn:Hn.
    + rewrite (validate_known _ _ _ _ _ Hn) in Hrun.
      injection Hrun as Hres _. repeat case_decide; congruence.
    + by rewrite (validate_unknown _ _ _ _ Hn) in Hrun.
  - exact Hgone.
  - intros uid2 now2. by apply validate_unknown.
Qed.

(** C7.  [getKey] returns the base64 text of the stored key of a known
    nonce and [null] for an unknown one; in both cases the store it
    leaves is the store it found, so a [validate] that follows it returns
    what it would have returned, and leaves the store it would have left,
    without the [getKey]. *)
Theorem getKey_does_not_consume store nonce :
  let '(secret, store') := getKey nonce store in
  store' = store /\
  (forall data, store !! nonce = Some data ->
     secret = Some (toBase64 (xorKey data))) /\
  (store !! nonce = None -> secret = None) /\
  (forall uid' now,
     validate nonce uid' now store' = validate nonce uid' now store).
Proof.
  unfold getKey, bind, gets, ret.
  destruct (store !! nonce) as [data|] eqn:Hn; simpl.
  - split; [done|]. split; [by intros ? [= <-]|]. by split.
  - split; [done|]. by split.
Qed.

End NonceStoreFacts.

(* ===================================================================== *)
(** * Properties of the path resolver *)
(* ===================================================================== *)

Section PathResolverFacts.
Import JS PdfHandler.

Variable cfg : Config.

(** ** Strings as lists of characters *)

Lemma chars_str cs : chars (str cs) = cs.
Proof. apply String.list_ascii_of_string_of_list_ascii. Qed.

Lemma str_chars s : str (chars s) = s.
Proof. apply String.string_of_list_ascii_of_string. Qed.

Lemma chars_app s1 s2 : chars (s1 +:+ s2) = chars s1 ++ chars s2.
Proof.
  induction s1 as [|c s1 IH]; [done|].
  change (chars (String c (s1 +:+ s2)) = c :: chars s1 ++ chars s2).
  simpl. by f_equal.
Qed.

Lemma chars_inj s1 s2 : chars s1 = chars s2 -> s1 = s2.
Proof. intros H. by rewrite <- (str_chars s1), H, str_chars. Qed.

Lemma falsy_false s : s <> "" -> falsy s = false.
Proof. intros H. unfold falsy. by apply bool_decide_eq_false. Qed.

Lemma append_empty_r s : s +:+ "" = s.
Proof.
  induction s as [|c s IH]; [done|].
  change (String c (s +:+ "") = String c s). by f_equal.
Qed.

(** ** Segments

    Splitting distributes over a separator, and undoes [joinWith] on
    segments that contain none. *)

Lemma splitSlash_app a b : forall cur,
  splitSlash cur (a ++ slash :: b) = splitSlash cur a ++ splitSlash [] b.
Proof.
  induction a as [|c a IH]; intros cur; simpl.
  - done.
  - case_bool_decide; simpl; by rewrite IH.
Qed.

Lemma splitSlash_no_slash cs : forall cur,
  ~ In slash cs -> splitSlash cur cs = [str (rev cur ++ cs)].
Proof.
  induction cs as [|c cs IH]; intros cur Hs; simpl.
  - by rewrite app_nil_r.
  - case_bool_decide as Hc; [subst; simpl in Hs; tauto|].
    rewrite IH by (simpl in Hs; tauto). simpl. by rewrite <- app_assoc.
Qed.

Lemma joinWith_cons sep x y rest :
  joinWith sep (x :: y :: rest) = x +:+ sep +:+ joinWith sep (y :: rest).
Proof. reflexivity. Qed.

Lemma chars_slash_app s : chars ("/" +:+ s) = slash :: chars s.
Proof. reflexivity. Qed.

Lemma segments_joinWith segs :
  segs <> [] -> Forall (fun seg => ~ In slash (chars seg)) segs ->
  splitSlash [] (chars (joinWith "/" segs)) = segs.
Proof.
  induction segs as [|x [|y rest] IH]; intros Hne Hall; [done| |].
  - simpl. apply Forall_inv in Hall.
    rewrite splitSlash_no_slash by done. simpl. by rewrite str_chars.
  - rewrite joinWith_cons, chars_app, chars_slash_app.
    rewrite splitSlash_app. rewrite IH; [|done|by eapply Forall_inv_tail].
    apply Forall_inv in Hall. rewrite splitSlash_no_slash by done.
    simpl. by rewrite str_chars.
Qed.

(** ** Normalisation

    The normaliser works through its input from left to right: the
    result on [l1 ++ l2] is the result on [l2] started from what [l1] left.
    Plain segments are pushed as they are. *)

Lemma normalizeSegments_app allow (l1 l2 : list string) : forall acc,
  normalizeSegments allow acc (l1 ++ l2) =
  normalizeSegments allow (rev (normalizeSegments allow acc l1)) l2.
Proof.
  induction l1 as [|seg l1 IH]; intros acc; simpl.
  - by rewrite rev_involutive.
  - repeat case_match; apply IH.
Qed.

Lemma normalizeSegments_plain allow segs : forall acc,
  Forall plain segs -> normalizeSegments allow acc segs = rev acc ++ segs.
Proof.
  induction segs as [|seg segs IH]; intros acc Hall; simpl.
  - by rewrite app_nil_r.
  - destruct (Forall_cons_1 _ _ _ Hall) as [(H1 & H2 & H3 & _) Hrest].
    rewrite bool_decide_eq_false_2 by (intros [?|?]; done).
    rewrite bool_decide_eq_false_2 by done.
    rewrite IH by done. simpl. by rewrite <- app_assoc.
Qed.


Lemma plain_kept seg : plain seg -> kept seg.
Proof. intros (? & _ & _ & ?). by split. Qed.

Lemma splitSlash_slash_free cs : forall cur,
  ~ In slash cur ->
  Forall (fun seg => ~ In slash (chars seg)) (splitSlash cur cs).
Proof.
  induction cs as [|c cs IH]; intros cur Hcur; simpl.
  - apply Forall_singleton. rewrite chars_str, <- in_rev. done.
  - case_bool_decide as Hc.
    + constructor; [rewrite chars_str, <- in_rev; done|]. apply IH. simpl. tauto.
    + apply IH. simpl. intros [?|?]; [congruence|done].
Qed.

Lemma normalizeSegments_kept allow segs : forall acc,
  Forall kept acc ->
  Forall (fun seg => ~ In slash (chars seg)) segs ->
  Forall kept (normalizeSegments allow acc segs).
Proof.
  assert (Hdots : kept "..").
  { split; [done|]. simpl. intros [?|[?|[]]]; discriminate. }
  induction segs as [|seg segs IH]; intros acc Hacc Hsegs; simpl.
  - apply Forall_forall. intros x Hx. rewrite list_elem_of_In in Hx.
    apply in_rev in Hx. rewrite Forall_forall in Hacc. apply Hacc.
    by apply list_elem_of_In.
  - destruct (Forall_cons_1 _ _ _ Hsegs) as [Hseg Hrest].
    repeat case_bool_decide; repeat case_match; subst; apply IH; try done;
      repeat (constructor; try done);
      try (by eapply Forall_inv_tail);
      try (split; [naive_solver|done]); naive_solver.
Qed.


(** ** Joined segments *)

Lemma append_assoc s1 s2 s3 : (s1 +:+ s2) +:+ s3 = s1 +:+ s2 +:+ s3.
Proof. apply chars_inj. by rewrite !chars_app, app_assoc. Qed.

Lemma joinWith_snoc segs seg :
  segs <> [] -> joinWith "/" (segs ++ [seg]) = joinWith "/" segs +:+ "/" +:+ seg.
Proof.
  induction segs as [|x [|y rest] IH]; intros Hne; [done|done|].
  change ((x :: y :: rest) ++ [seg]) with (x :: y :: (rest ++ [seg])).
  rewrite !joinWith_cons, !append_assoc. do 2 f_equal. by apply IH.
Qed.

(** A joined list that ends in plain segments is not the empty string,
    does not end in a separator, and starts with one only if its first
    segment does. *)
Lemma joinWith_chars segs last :
  exists cs, chars (joinWith "/" (segs ++ [last])) = cs ++ chars last.
Proof.
  destruct segs as [|x segs].
  - by exists [].
  - rewrite joinWith_snoc by done. rewrite !chars_app. eexists.
    by rewrite app_assoc.
Qed.

Lemma nonempty_snoc (L : list string) :
  L <> [] -> exists L' last, L = L' ++ [last].
Proof.
  intros Hne. destruct (rev L) as [|last rL] eqn:Hrev.
  - apply (f_equal (@rev string)) in Hrev. rewrite rev_involutive in Hrev. done.
  - exists (rev rL), last. apply (f_equal (@rev string)) in Hrev.
    by rewrite rev_involutive in Hrev.
Qed.

Lemma nonempty_snoc' (l : list ascii) :
  l <> [] -> exists l' c, l = l' ++ [c].
Proof.
  intros Hne. destruct (rev l) as [|c rl] eqn:Hrev.
  - apply (f_equal (@rev ascii)) in Hrev. rewrite rev_involutive in Hrev. done.
  - exists (rev rl), c. apply (f_equal (@rev ascii)) in Hrev.
    by rewrite rev_involutive in Hrev.
Qed.

Lemma joinWith_plain_nonempty segs (L : list string) :
  L <> [] -> Forall plain L -> joinWith "/" (segs ++ L) <> "".
Proof.
  intros Hne Hall. destruct (nonempty_snoc L Hne) as (L' & last & ->).
  rewrite app_assoc.
  destruct (joinWith_chars (segs ++ L') last) as [cs Hcs].
  intros Hempty. rewrite Hempty in Hcs.
  apply Forall_app in Hall as [_ Hlast]. apply Forall_inv in Hlast.
  destruct Hlast as [Hl _]. apply Hl, chars_inj.
  destruct cs, (chars last); done.
Qed.

Lemma endsWith_slash s :
  endsWith s "/" = true -> exists cs, chars s = cs ++ [slash].
Proof.
  unfold endsWith. simpl. destruct (rev (chars s)) as [|c r] eqn:Hrev; [done|].
  simpl. rewrite andb_true_r. intros Hc. apply bool_decide_eq_true in Hc.
  subst c. exists (rev r). apply (f_equal (@rev ascii)) in Hrev.
  by rewrite rev_involutive in Hrev.
Qed.

Lemma joinWith_plain_no_trailing segs (L : list string) :
  L <> [] -> Forall plain L -> endsWith (joinWith "/" (segs ++ L)) "/" = false.
Proof.
  intros Hne Hall. destruct (nonempty_snoc L Hne) as (L' & last & ->).
  rewrite app_assoc.
  destruct (joinWith_chars (segs ++ L') last) as [cs Hcs].
  destruct (endsWith _ _) eqn:Hends; [|done].
  apply endsWith_slash in Hends as [cs' Hcs']. rewrite Hcs in Hcs'.
  apply Forall_app in Hall as [_ Hlast]. apply Forall_inv in Hlast.
  destruct Hlast as (Hl & _ & _ & Hfree).
  destruct (nonempty_snoc' (chars last)) as (l' & c & Hl').
  { destruct last; done. }
  rewrite Hl', app_assoc in Hcs'. apply app_inj_tail in Hcs' as [_ ->].
  exfalso. apply Hfree. rewrite Hl'. apply in_or_app. right. by left.
Qed.


(** ** [path.join] and [path.resolve] on paths that end in plain segments *)

Lemma startsWith_slash_app s t :
  s <> "" -> startsWith (s +:+ t) "/" = startsWith s "/".
Proof. destruct s as [|c s]; [done|]. intros _. reflexivity. Qed.

Lemma append_nonempty s t : s <> "" -> s +:+ t <> "".
Proof. by destruct s. Qed.

Lemma filter_nonempty (segs : list string) :
  Forall (fun a => a <> "") segs -> filter (fun a => a <> "") segs = segs.
Proof.
  induction 1 as [|x l Hx Hl IH]; [done|].
  rewrite filter_cons_True by done. by rewrite IH.
Qed.

Lemma plain_slash_free (L : list string) :
  Forall plain L -> Forall (fun seg => ~ In slash (chars seg)) L.
Proof.
  intros H. eapply Forall_impl; [exact H|]. by intros seg (_ & _ & _ & ?).
Qed.

Lemma plain_nonempty (L : list string) :
  Forall plain L -> Forall (fun a => a <> "") L.
Proof. intros H. eapply Forall_impl; [exact H|]. by intros seg (? & _). Qed.

Lemma normalizeString_snoc X allow (C L : list string) :
  splitSlash [] (chars X) = C ++ L ->
  Forall plain L ->
  normalizeString X allow = joinWith "/" (normalizeSegments allow [] C ++ L).
Proof.
  intros Hsegs Hplain. unfold normalizeString. rewrite Hsegs.
  rewrite normalizeSegments_app, normalizeSegments_plain by done.
  by rewrite rev_involutive.
Qed.

(** [path.join] of a non-empty path and plain segments: the path is
    normalised and the segments are appended. *)
Lemma join_plain U (L : list string) :
  U <> "" -> L <> [] -> Forall plain L ->
  join (U :: L) = leadingSlash U +:+ joinWith "/" (normalSegments U ++ L).
Proof.
  intros HU HL Hplain. unfold join.
  rewrite filter_nonempty by (constructor; [done|by apply plain_nonempty]).
  destruct L as [|y rest]; [done|].
  set (L := y :: rest) in *.
  change (match U :: L with [] => "." | _ => normalize (joinWith "/" (U :: L)) end)
    with (normalize (joinWith "/" (U :: L))).
  assert (Hq : joinWith "/" (U :: L) = U +:+ "/" +:+ joinWith "/" L) by done.
  unfold normalize.
  rewrite falsy_false by (rewrite Hq; by apply append_nonempty).
  pose proof (joinWith_plain_no_trailing [U] L HL Hplain) as Htrail.
  change ([U] ++ L) with (U :: L) in Htrail. rewrite Htrail.
  assert (Habs : startsWith (joinWith "/" (U :: L)) "/" = startsWith U "/").
  { rewrite Hq. by apply startsWith_slash_app. }
  rewrite Habs.
  rewrite (normalizeString_snoc _ _ (splitSlash [] (chars U)) L); [| |done].
  - fold (normalSegments U).
    rewrite falsy_false by (by apply joinWith_plain_nonempty).
    rewrite append_empty_r. done.
  - rewrite Hq, chars_app, chars_slash_app, splitSlash_app.
    f_equal. apply segments_joinWith; [done|by apply plain_slash_free].
Qed.


Lemma joinWith_kept_relative segs :
  segs <> [] -> Forall kept segs -> startsWith (joinWith "/" segs) "/" = false.
Proof.
  intros Hne Hall. destruct segs as [|x rest]; [done|].
  apply Forall_inv in Hall. destruct Hall as [Hx Hfree].
  destruct x as [|c x]; [done|].
  assert (Hc : slash <> c) by (intros <-; apply Hfree; by left).
  destruct rest as [|y rest].
  - unfold startsWith. simpl. by rewrite bool_decide_eq_false_2.
  - rewrite joinWith_cons. unfold startsWith.
    change (chars (String c x +:+ "/" +:+ joinWith "/" (y :: rest)))
      with (c :: chars (x +:+ "/" +:+ joinWith "/" (y :: rest))).
    simpl. by rewrite bool_decide_eq_false_2.
Qed.

Lemma normalizeString_dir X allow (C L : list string) :
  splitSlash [] (chars X) = C ++ L ++ [""] ->
  Forall plain L ->
  normalizeString X allow = joinWith "/" (normalizeSegments allow [] C ++ L).
Proof.
  intros Hsegs Hplain. unfold normalizeString. rewrite Hsegs.
  rewrite normalizeSegments_app, (normalizeSegments_app _ L [""]).
  cbn [normalizeSegments]. rewrite bool_decide_eq_true_2 by (by left).
  cbn [normalizeSegments]. rewrite rev_involutive.
  rewrite normalizeSegments_plain by done. by rewrite rev_involutive.
Qed.

Lemma segments_dir s :
  splitSlash [] (chars (s +:+ "/" +:+ "")) = splitSlash [] (chars s) ++ [""].
Proof. by rewrite chars_app, chars_slash_app, splitSlash_app. Qed.

Lemma segments_under s t :
  splitSlash [] (chars (s +:+ "/" +:+ t))
    = splitSlash [] (chars s) ++ splitSlash [] (chars t).
Proof. by rewrite chars_app, chars_slash_app, splitSlash_app. Qed.

Lemma kept_slash_free (A : list string) :
  Forall kept A -> Forall (fun seg => ~ In slash (chars seg)) A.
Proof. intros H. eapply Forall_impl; [exact H|]. by intros seg [_ ?]. Qed.

(** [path.resolve] of a normalised path that ends in plain segments: what
    comes before those segments is resolved on its own and the segments
    are appended. *)
Lemma resolve_plain cwd pre (A : list string) :
  pre = "" \/ pre = "/" -> Forall kept A ->
  exists pre' B, forall L : list string,
    L <> [] -> Forall plain L ->
    resolve cwd [pre +:+ joinWith "/" (A ++ L)]
      = pre' +:+ joinWith "/" (B ++ L).
Proof.
  intros Hpre HA.
  assert (Hsegs : forall L : list string, L <> [] -> Forall plain L ->
            splitSlash [] (chars (joinWith "/" (A ++ L))) = A ++ L).
  { intros L HL Hplain. apply segments_joinWith; [by destruct A, L|].
    apply Forall_app. split; [by apply kept_slash_free|by apply plain_slash_free]. }
  assert (Hne : forall L : list string, L <> [] -> Forall plain L ->
            joinWith "/" (A ++ L) <> "").
  { intros L HL Hplain. by apply joinWith_plain_nonempty. }
  unfold resolve. cbn [rev app resolveGo].
  destruct Hpre as [->| ->].
  - (* a relative path: the working directory comes first *)
    destruct (falsy cwd) eqn:Hcwd; [|destruct (startsWith cwd "/") eqn:Habs].
    + exists "", (normalizeSegments true [] A). intros L HL Hplain.
      change ("" +:+ joinWith "/" (A ++ L)) with (joinWith "/" (A ++ L)).
      rewrite falsy_false by auto.
      rewrite joinWith_kept_relative;
        [|by destruct A, L
         |apply Forall_app; split; [done|eapply Forall_impl; [exact Hplain|apply plain_kept]]].
      cbn [negb].
      rewrite (normalizeString_dir _ true A L);
        [|by rewrite segments_dir, Hsegs, <- app_assoc|done].
      rewrite falsy_false by (by apply joinWith_plain_nonempty). done.
    + exists "/", (normalizeSegments false [] (splitSlash [] (chars cwd) ++ A)).
      intros L HL Hplain.
      change ("" +:+ joinWith "/" (A ++ L)) with (joinWith "/" (A ++ L)).
      rewrite falsy_false by auto.
      rewrite joinWith_kept_relative;
        [|by destruct A, L
         |apply Forall_app; split; [done|eapply Forall_impl; [exact Hplain|apply plain_kept]]].
      cbn [negb].
      rewrite (normalizeString_dir _ false (splitSlash [] (chars cwd) ++ A) L);
        [done| |done].
      rewrite segments_under, segments_dir, Hsegs by done.
      by rewrite <- !app_assoc.
    + exists "", (normalizeSegments true [] (splitSlash [] (chars cwd) ++ A)).
      intros L HL Hplain.
      change ("" +:+ joinWith "/" (A ++ L)) with (joinWith "/" (A ++ L)).
      rewrite falsy_false by auto.
      rewrite joinWith_kept_relative;
        [|by destruct A, L
         |apply Forall_app; split; [done|eapply Forall_impl; [exact Hplain|apply plain_kept]]].
      cbn [negb].
      rewrite (normalizeString_dir _ true (splitSlash [] (chars cwd) ++ A) L);
        [| |done].
      * rewrite falsy_false by (by apply joinWith_plain_nonempty). done.
      * rewrite segments_under, segments_dir, Hsegs by done.
        by rewrite <- !app_assoc.
  - (* an absolute path resolves on its own *)
    exists "/", (normalizeSegments false [] ("" :: A)). intros L HL Hplain.
    rewrite falsy_false by (by apply append_nonempty).
    change (startsWith ("/" +:+ joinWith "/" (A ++ L)) "/") with true.
    cbn [negb].
    rewrite (normalizeString_dir _ false ("" :: A) L); [done| |done].
    rewrite segments_dir, chars_slash_app.
    change (slash :: chars (joinWith "/" (A ++ L)))
      with ([] ++ slash :: chars (joinWith "/" (A ++ L))).
    rewrite splitSlash_app, Hsegs by done. simpl. by rewrite <- app_assoc.
Qed.


Lemma plain_literals : plain "files" /\ plain "public" /\ plain "uploads".
Proof.
  repeat split; try discriminate; simpl; intros H;
    repeat (destruct H as [H|H]; [discriminate|]); done.
Qed.

Lemma normalSegments_kept U : Forall kept (normalSegments U).
Proof.
  apply normalizeSegments_kept; [constructor|].
  apply splitSlash_slash_free. simpl. tauto.
Qed.

Lemma leadingSlash_cases U : leadingSlash U = "" \/ leadingSlash U = "/".
Proof. unfold leadingSlash. destruct (startsWith U "/"); auto. Qed.

Lemma join_plain_nonempty U (L : list string) :
  U <> "" -> L <> [] -> Forall plain L -> join (U :: L) <> "".
Proof.
  intros HU HL Hplain. rewrite join_plain by done.
  pose proof (joinWith_plain_nonempty (normalSegments U) L HL Hplain) as Hj.
  destruct (leadingSlash_cases U) as [-> | ->]; [done|]. by apply append_nonempty.
Qed.

(** A [.] segment at the end of a join vanishes. *)
Lemma join_dot U (L : list string) :
  U <> "" -> L <> [] -> Forall plain L ->
  join (U :: L ++ ["."]) = join (U :: L).
Proof.
  intros HU HL Hplain. rewrite (join_plain U L) by done. unfold join.
  rewrite filter_nonempty.
  2:{ constructor; [done|]. apply Forall_app. split; [by apply plain_nonempty|].
      by apply Forall_singleton. }
  assert (Hq : joinWith "/" (U :: L ++ ["."]) = joinWith "/" (U :: L) +:+ "/" +:+ ".").
  { change (U :: L ++ ["."]) with ((U :: L) ++ ["."]). by apply joinWith_snoc. }
  assert (HqL : joinWith "/" (U :: L) = U +:+ "/" +:+ joinWith "/" L)
    by (by destruct L).
  unfold normalize. rewrite Hq.
  rewrite falsy_false.
  2:{ apply append_nonempty. rewrite HqL. by apply append_nonempty. }
  assert (Habs : startsWith (joinWith "/" (U :: L) +:+ "/" +:+ ".") "/"
                 = startsWith U "/").
  { rewrite startsWith_slash_app by (rewrite HqL; by apply append_nonempty).
    rewrite HqL. by apply startsWith_slash_app. }
  rewrite Habs.
  assert (Htrail : endsWith (joinWith "/" (U :: L) +:+ "/" +:+ ".") "/" = false).
  { destruct (endsWith _ _) eqn:Hends; [|done].
    apply endsWith_slash in Hends as [cs Hcs].
    rewrite chars_app, chars_slash_app in Hcs.
    change (slash :: chars ".") with ([slash] ++ ["."%char]) in Hcs.
    rewrite app_assoc in Hcs. by apply app_inj_tail in Hcs as [_ ?]. }
  rewrite Htrail.
  assert (Hn : forall allow,
    normalizeString (joinWith "/" (U :: L) +:+ "/" +:+ ".") allow
      = joinWith "/" (normalizeSegments allow [] (splitSlash [] (chars U)) ++ L)).
  { intros allow. unfold normalizeString.
    rewrite segments_under, HqL, segments_under.
    rewrite segments_joinWith by (by apply plain_slash_free || done).
    change (splitSlash [] (chars ".")) with ["."].
    rewrite normalizeSegments_app.
    cbn [normalizeSegments]. rewrite bool_decide_eq_true_2 by (by right).
    cbn [normalizeSegments]. rewrite rev_involutive.
    rewrite normalizeSegments_app, normalizeSegments_plain by done.
    by rewrite rev_involutive. }
  rewrite Hn. fold (normalSegments U).
  rewrite falsy_false by (by apply joinWith_plain_nonempty).
  by rewrite append_empty_r.
Qed.

Lemma startsWith_append s t : startsWith (s +:+ t) s = true.
Proof.
  unfold startsWith. rewrite chars_app.
  induction (chars s) as [|c cs IH]; simpl; [done|].
  by rewrite bool_decide_eq_true_2.
Qed.

Lemma startsWith_refl s : startsWith s s = true.
Proof. rewrite <- (append_empty_r s) at 1. apply startsWith_append. Qed.


(** ** [path.basename] *)

Lemma skipSlashes_no_slash cs : ~ In slash cs -> skipSlashes cs = cs.
Proof.
  destruct cs as [|c cs]; [done|]. simpl. intros Hc.
  rewrite bool_decide_eq_false_2; [done|]. intros ->. tauto.
Qed.

Lemma untilSlash_id cs : ~ In slash cs -> untilSlash cs = cs.
Proof.
  induction cs as [|c cs IH]; [done|]. simpl. intros Hc.
  rewrite bool_decide_eq_false_2 by (intros ->; tauto).
  rewrite IH; [done|tauto].
Qed.

Lemma basename_simple f : ~ In slash (chars f) -> basename f = f.
Proof.
  intros Hf. unfold basename.
  assert (Hrev : ~ In slash (rev (chars f))) by (by rewrite <- in_rev).
  rewrite skipSlashes_no_slash, untilSlash_id by done.
  by rewrite rev_involutive, str_chars.
Qed.

Lemma untilSlash_no_slash r : ~ In slash (untilSlash r).
Proof.
  induction r as [|c r IH]; simpl; [tauto|].
  case_bool_decide as Hc; simpl; [tauto|]. intros [?|?]; congruence.
Qed.

(** The basename never contains a separator. *)
Lemma basename_no_slash p : ~ In slash (chars (basename p)).
Proof.
  unfold basename. rewrite chars_str, <- in_rev. apply untilSlash_no_slash.
Qed.

(** ** The resolver *)

Ltac plain_segs :=
  repeat (apply List.Forall_cons; [assumption|]); apply List.Forall_nil.

Lemma uploadPath_nonempty : uploadPath cfg <> "".
Proof.
  destruct plain_literals as (_ & Hpublic & Huploads).
  assert (Hdefault : join [base_dir cfg; "public"; "uploads"] <> "").
  { destruct (decide (base_dir cfg = "")) as [->|Hb]; [by vm_compute|].
    apply join_plain_nonempty; [done|done|plain_segs]. }
  unfold uploadPath. destruct (upload_path cfg) as [p|]; [|done].
  destruct (falsy p) eqn:Hp; [done|].
  by apply bool_decide_eq_false in Hp.
Qed.

(** The canonical form of a simple name joined under the upload-files
    directory is that name directly below the canonical root, or the root
    itself for the name ["."]. *)
Lemma resolve_simpleName f :
  simpleName f ->
  resolve (cwd cfg) [join [uploadPath cfg; "files"; f]] = filesRoot cfg \/
  resolve (cwd cfg) [join [uploadPath cfg; "files"; f]]
    = filesRoot cfg +:+ "/" +:+ f.
Proof.
  intros (Hne & Hfree & Hdots).
  destruct plain_literals as (Hfiles & _ & _).
  pose proof uploadPath_nonempty as HU. unfold filesRoot.
  destruct (decide (f = ".")) as [->|Hdot].
  - left. apply f_equal, f_equal2; [|done].
    apply (join_dot (uploadPath cfg) ["files"] HU); [done|plain_segs].
  - right.
    assert (Hplain : plain f).
    { repeat split; try done. by intros ->. }
    rewrite (join_plain _ ["files"; f]), (join_plain _ ["files"])
      by (done || plain_segs).
    destruct (resolve_plain (cwd cfg) (leadingSlash (uploadPath cfg))
                (normalSegments (uploadPath cfg)) (leadingSlash_cases _) (normalSegments_kept _))
      as (pre' & B & HB).
    rewrite (HB ["files"; f]), (HB ["files"]) by (done || plain_segs).
    change (B ++ ["files"; f]) with (B ++ ["files"] ++ [f]).
    rewrite app_assoc, joinWith_snoc by (by destruct B).
    by rewrite append_assoc.
Qed.

(** The resolver accepts exactly the simple names, and joins them under
    the upload-files directory. *)
Lemma resolveFilePath_simpleName f p :
  resolveFilePath cfg f = Some p <->
  simpleName f /\ p = join [uploadPath cfg; "files"; f].
Proof.
  unfold resolveFilePath. split.
  - intros Hres.
    destruct (falsy _ || bool_decide (basename f <> f) || includes _ "..")
      eqn:Hguard; [done|].
    apply orb_false_elim in Hguard as [Hguard Hdots].
    apply orb_false_elim in Hguard as [Hempty Hsame].
    apply bool_decide_eq_false in Hsame, Hempty.
    assert (Hbase : basename f = f) by (by destruct (decide (basename f = f))).
    rewrite Hbase in *.
    destruct (startsWith _ _); simpl in Hres; [|done].
    injection Hres as <-. split; [|done].
    split; [done|]. split; [|done]. rewrite <- Hbase. apply basename_no_slash.
  - intros [(Hne & Hfree & Hdots) ->].
    rewrite (basename_simple f Hfree).
    rewrite falsy_false, Hdots by done.
    rewrite bool_decide_eq_false_2 by (by intros ?). simpl.
    fold (filesRoot cfg).
    destruct (resolve_simpleName f) as [-> | ->]; [done| |].
    + by rewrite startsWith_refl.
    + by rewrite startsWith_append.
Qed.

(** The basename differs from any input that contains a separator. *)
Lemma basename_differs p : In slash (chars p) -> basename p <> p.
Proof. intros Hin Heq. apply (basename_no_slash p). by rewrite Heq. Qed.

(** A [".."] segment is a special case of containing [".."]. *)
Lemma dotdot_segment_includes p :
  ~ In slash (chars p) -> In ".." (splitSlash [] (chars p)) ->
  includes p ".." = true.
Proof.
  intros Hs Hin. rewrite (splitSlash_no_slash _ [] Hs) in Hin.
  simpl in Hin. destruct Hin as [Hp|[]]. rewrite str_chars in Hp.
  by subst p.
Qed.

(** C4.  A filename that contains a path separator, or that contains the
    parent-directory marker [".."] (as a whole segment or anywhere else),
    is rejected: [resolveFilePath] returns [null].  In the first case the
    basename differs from the raw input, in the second the marker test
    fires. *)
Theorem resolveFilePath_rejects_traversal (filename : string) :
  In slash (chars filename) \/ includes filename ".." = true ->
  resolveFilePath cfg filename = None.
Proof.
  intros Hbad. unfold resolveFilePath.
  destruct (decide (basename filename = filename)) as [Heq|Hne].
  - destruct Hbad as [Hsep|Hdots].
    + by destruct (basename_differs _ Hsep).
    + rewrite Heq, Hdots. by rewrite orb_true_r.
  - rewrite (bool_decide_eq_true_2 _ Hne). by rewrite orb_true_r.
Qed.

(** C5.  Whenever [resolveFilePath] returns a path, that path is the
    filename joined under the upload-files directory, and its canonical
    form ([path.resolve]) has the canonical upload-files root as a prefix:
    it is the root followed by a separator and the filename, or the root
    itself (for the filename ["."]). *)
Theorem resolveFilePath_within_root (filename filePath : string) :
  resolveFilePath cfg filename = Some filePath ->
  filePath = join [uploadPath cfg; "files"; filename] /\
  startsWith (resolve (cwd cfg) [filePath]) (filesRoot cfg) = true /\
  (resolve (cwd cfg) [filePath] = filesRoot cfg \/
   resolve (cwd cfg) [filePath] = filesRoot cfg +:+ "/" +:+ filename).
Proof.
  intros Hres.
  destruct (proj1 (resolveFilePath_simpleName filename filePath) Hres)
    as [Hsimple ->].
  split; [done|].
  destruct (resolve_simpleName filename Hsimple) as [Hroot|Hbelow].
  - split; [|by left]. rewrite Hroot. apply startsWith_refl.
  - split; [|by right]. rewrite Hbelow. apply startsWith_append.
Qed.

End PathResolverFacts.

Lemma resolveFilePath_rejects_traversal_witness :
  (In JS.slash (JS.chars "../../etc/passwd") \/
   JS.includes "../../etc/passwd" ".." = true) /\
  PdfHandler.resolveFilePath
    {| PdfHandler.upload_path := Some "/srv/nodebb/public/uploads";
       PdfHandler.base_dir := "/srv/nodebb";
       PdfHandler.cwd := "/srv/nodebb" |}
    "../../etc/passwd" = None.
Proof.
  assert (H : In JS.slash (JS.chars "../../etc/passwd") \/
              JS.includes "../../etc/passwd" ".." = true)
    by (right; reflexivity).
  split; [exact H|].
  exact (resolveFilePath_rejects_traversal _ "../../etc/passwd" H).
Defined.

Lemma resolveFilePath_within_root_witness :
  PdfHandler.resolveFilePath Fixtures.cfg "report.pdf"
    = Some "/srv/nodebb/public/uploads/files/report.pdf" /\
  "/srv/nodebb/public/uploads/files/report.pdf"
    = JS.join [PdfHandler.uploadPath Fixtures.cfg; "files"; "report.pdf"] /\
  JS.startsWith
    (JS.resolve (PdfHandler.cwd Fixtures.cfg)
       ["/srv/nodebb/public/uploads/files/report.pdf"])
    (filesRoot Fixtures.cfg) = true /\
  (JS.resolve (PdfHandler.cwd Fixtures.cfg)
     ["/srv/nodebb/public/uploads/files/report.pdf"] = filesRoot Fixtures.cfg \/
   JS.resolve (PdfHandler.cwd Fixtures.cfg)
     ["/srv/nodebb/public/uploads/files/report.pdf"]
     = filesRoot Fixtures.cfg +:+ "/" +:+ "report.pdf").
Proof.
  assert (H : PdfHandler.resolveFilePath Fixtures.cfg "report.pdf"
              = Some "/srv/nodebb/public/uploads/files/report.pdf")
    by (vm_compute; reflexivity).
  split; [exact H|].
  exact (resolveFilePath_within_root Fixtures.cfg "report.pdf" _ H).
Defined.

(* ===================================================================== *)
(** * Properties of the document store *)
(* ===================================================================== *)

Ltac unfold_js :=
  unfold JS.bindT, JS.bind, JS.gets, JS.modify, JS.ret in *.

Section PdfHandlerFacts.
Import JS PdfHandler.

Variable cfg : Config.
Variable firstPageOf : list Z -> Completion (list Z).

Implicit Types (s : State) (filename : string).

Local Ltac unfold_pdf :=
  unfold getSinglePagePdf, getFullPdf, readFile, existsSync, newBuffer,
    alloc, record, withCache, withHeap in *;
  unfold_js.

(** A fresh cache entry answers the call: the cached reference comes
    back and nothing at all changes. *)
Lemma getSinglePagePdf_hit s filename now later entry :
  singlePageCache s !! filename = Some entry ->
  now - createdAt entry < CACHE_TTL ->
  getSinglePagePdf cfg firstPageOf filename now later s
    = (Return (buffer entry), s).
Proof.
  intros Hc Hfresh. unfold_pdf. rewrite Hc. by rewrite decide_True.
Qed.

(** A call that returns a buffer leaves it in the cache under the
    filename it was asked for. *)
Lemma getSinglePagePdf_cached s filename now later b s1 :
  getSinglePagePdf cfg firstPageOf filename now later s = (Return b, s1) ->
  exists entry,
    singlePageCache s1 !! filename = Some entry /\ buffer entry = b.
Proof.
  unfold_pdf. intros Hrun.
  repeat case_match; simplify_eq; simpl; eauto;
    eexists; (split; [apply lookup_insert_eq|done]).
Qed.

(** No call of the document store writes into an existing buffer: the
    heap only grows at its end. *)
Lemma getSinglePagePdf_heap s filename now later :
  heap s `prefix_of`
    heap (getSinglePagePdf cfg firstPageOf filename now later s).2.
Proof.
  unfold_pdf.
  repeat case_match; simplify_eq; simpl;
    try done; try (by apply prefix_app_r);
    rewrite <- app_assoc; by apply prefix_app_r.
Qed.

Lemma getFullPdf_heap s filename :
  heap s `prefix_of` heap (getFullPdf cfg filename s).2.
Proof.
  unfold_pdf.
  repeat case_match; simplify_eq; simpl; try done; by apply prefix_app_r.
Qed.

(** The cache only ever gains entries for filenames the resolver
    accepts. *)
Lemma getSinglePagePdf_cacheKeys s filename now later :
  cacheKeysResolve cfg s ->
  cacheKeysResolve cfg
    (getSinglePagePdf cfg firstPageOf filename now later s).2.
Proof.
  unfold cacheKeysResolve. intros Hinv. unfold_pdf.
  repeat case_match; simplify_eq; simpl; try done;
    intros f e; rewrite lookup_insert;
    destruct (decide (filename = f)); subst; eauto.
Qed.

Lemma getFullPdf_cache s filename :
  singlePageCache (getFullPdf cfg filename s).2 = singlePageCache s.
Proof. unfold_pdf. repeat case_match; simplify_eq; done. Qed.

(** Both fetches keep the heap a heap of bytes: what they allocate is
    truncated to bytes on the way in. *)
Lemma map_toUint8_bytes (bs : list Z) : is_bytes (map toUint8 bs).
Proof.
  apply Forall_map, Forall_forall. intros x _. unfold toUint8; simpl.
  pose proof (Z.mod_pos_bound x 256). unfold is_byte. lia.
Qed.

Lemma getFullPdf_heapBytes s filename :
  heapBytes (heap s) -> heapBytes (heap (getFullPdf cfg filename s).2).
Proof.
  unfold heapBytes. intros Hh. unfold_pdf.
  repeat case_match; simplify_eq; simpl; try done.
  apply Forall_app. split; [done|]. apply Forall_singleton, map_toUint8_bytes.
Qed.

Lemma getSinglePagePdf_heapBytes s filename now later :
  heapBytes (heap s) ->
  heapBytes (heap (getSinglePagePdf cfg firstPageOf filename now later s).2).
Proof.
  unfold heapBytes. intros Hh. unfold_pdf.
  repeat case_match; simplify_eq; simpl; try done;
    repeat (apply Forall_app; split); try done;
    apply Forall_singleton, map_toUint8_bytes.
Qed.

(** A filename the resolver rejects makes both fetches throw
    ['Invalid filename'] (the derivative one once the cache has no entry
    for it). *)
Lemma getFullPdf_invalid s filename :
  resolveFilePath cfg filename = None ->
  getFullPdf cfg filename s = (Throw "Invalid filename", s).
Proof. intros Hr. unfold_pdf. by rewrite Hr. Qed.

Lemma getSinglePagePdf_invalid s filename now later :
  cacheKeysResolve cfg s ->
  resolveFilePath cfg filename = None ->
  getSinglePagePdf cfg firstPageOf filename now later s
    = (Throw "Invalid filename", s).
Proof.
  intros Hinv Hr. unfold_pdf.
  destruct (singlePageCache s !! filename) as [entry|] eqn:Hc.
  - destruct (Hinv _ _ Hc) as [p Hp]. congruence.
  - by rewrite Hr.
Qed.

(** C8.  If a [getSinglePagePdf] call returns a buffer, the cache then
    holds an entry for the filename with that very buffer, and any next
    call for the filename made while that entry is fresh (less than
    [CACHE_TTL] after the entry's creation time) returns the same buffer
    with the same bytes, and leaves the whole state as it was: no file is
    read and no document is parsed, the call log is unchanged. *)
Theorem getSinglePagePdf_served_from_cache s filename now later b s1 :
  getSinglePagePdf cfg firstPageOf filename now later s = (Return b, s1) ->
  exists entry,
    singlePageCache s1 !! filename = Some entry /\
    buffer entry = b /\
    forall now2 later2,
      now2 - createdAt entry < CACHE_TTL ->
      let '(result2, s2) :=
        getSinglePagePdf cfg firstPageOf filename now2 later2 s1 in
      result2 = Return b /\
      bytesOf (heap s2) b = bytesOf (heap s1) b /\
      calls s2 = calls s1 /\
      s2 = s1.
Proof.
  intros Hrun.
  destruct (getSinglePagePdf_cached _ _ _ _ _ _ Hrun) as (entry & Hc & Hb).
  exists entry. split; [done|]. split; [done|].
  intros now2 later2 Hfresh.
  rewrite (getSinglePagePdf_hit _ _ _ _ _ Hc Hfresh). by rewrite Hb.
Qed.

End PdfHandlerFacts.

(* ===================================================================== *)
(** * Properties of the gateway *)
(* ===================================================================== *)

Section ControllersFacts.
Import JS Controllers.

Variable cfg : PdfHandler.Config.
Variable firstPageOf : list Z -> Completion (list Z).

Implicit Types (w : World) (req : Request) (clock : Clock).

(** The codec appends its output to the heap and touches nothing else. *)
Lemma partialXorEncode_heap (s : PdfHandler.State) buffer xorKey :
  PdfHandler.heap s `prefix_of`
    PdfHandler.heap (partialXorEncode buffer xorKey s).2 /\
  (partialXorEncode buffer xorKey s).1 = length (PdfHandler.heap s) /\
  PdfHandler.singlePageCache (partialXorEncode buffer xorKey s).2
    = PdfHandler.singlePageCache s.
Proof.
  unfold partialXorEncode.
  destruct (partialXorEncode_spec (PdfHandler.heap s) buffer xorKey)
    as (out & -> & _). simpl. split; [by apply prefix_app_r|done].
Qed.

Lemma fetchPdf_heap (s : PdfHandler.State) data clock :
  PdfHandler.heap s `prefix_of`
    PdfHandler.heap (fetchPdf cfg firstPageOf data clock s).2.
Proof.
  unfold fetchPdf. destruct (NonceStore.isPremium data).
  - apply getFullPdf_heap.
  - apply getSinglePagePdf_heap.
Qed.

(** What the handler does once [validate] has returned a record. *)
Lemma servePdfBinary_validated w req clock nonce data store' :
  query_nonce req = Some nonce ->
  falsy nonce = false ->
  NonceStore.validate nonce (uidOrGuest req) (atValidate clock) (nonces w)
    = (Some data, store') ->
  servePdfBinary cfg firstPageOf req clock w =
    let '(fetched, p1) := fetchPdf cfg firstPageOf data clock (pdf w) in
    match fetched with
    | Return pdfBuffer =>
        let '(encodedBuffer, p2) :=
          partialXorEncode pdfBuffer (NonceStore.xorKey data) p1 in
        ({| status := 200; headers := binaryHeaders;
            body := Binary encodedBuffer |},
         {| nonces := store'; pdf := p2 |})
    | Throw message =>
        (if decide (message = "File not found")
         then jsonError 404 "PDF not found"
         else jsonError 500 "Internal error",
         {| nonces := store'; pdf := p1 |})
    end.
Proof.
  intros Hq Hf Hv. unfold servePdfBinary. rewrite Hq, Hf.
  unfold inNonceStore, inPdfHandler. unfold_js. rewrite Hv.
  cbn [pdf nonces].
  destruct (fetchPdf _ _ _ _ _) as [[b|msg] p1]; cbn [pdf nonces].
  - destruct (partialXorEncode b (NonceStore.xorKey data) p1).
    reflexivity.
  - case_decide; reflexivity.
Qed.

(** A request that does not get past [validate] leaves the document
    store alone. *)
Lemma servePdfBinary_heap w req clock :
  PdfHandler.heap (pdf w) `prefix_of`
    PdfHandler.heap (pdf (servePdfBinary cfg firstPageOf req clock w).2).
Proof.
  unfold servePdfBinary.
  destruct (query_nonce req) as [nonce|]; [|done].
  destruct (falsy nonce); [done|].
  unfold inNonceStore, inPdfHandler. unfold_js.
  destruct (NonceStore.validate _ _ _ _) as [[data|] store'];
    [|reflexivity].
  cbn [pdf nonces].
  pose proof (fetchPdf_heap (pdf w) data clock) as Hfetch.
  destruct (fetchPdf _ _ _ _ _) as [[b|msg] p1]; cbn [fst snd pdf nonces] in *.
  - pose proof (partialXorEncode_heap p1 b (NonceStore.xorKey data)) as [Henc _].
    destruct (partialXorEncode b (NonceStore.xorKey data) p1) as [enc p2].
    cbn [fst snd pdf] in *. by etrans.
  - case_decide; exact Hfetch.
Qed.

(** The buffer a response carries is allocated while the request is
    served. *)
Lemma servePdfBinary_sends_new w req clock enc :
  body (servePdfBinary cfg firstPageOf req clock w).1 = Binary enc ->
  (length (PdfHandler.heap (pdf w)) <= enc)%nat.
Proof.
  unfold servePdfBinary.
  destruct (query_nonce req) as [nonce|]; [|done].
  destruct (falsy nonce); [done|].
  unfold inNonceStore, inPdfHandler. unfold_js.
  destruct (NonceStore.validate _ _ _ _) as [[data|] store']; [|done].
  cbn [pdf nonces].
  pose proof (fetchPdf_heap (pdf w) data clock) as Hfetch.
  destruct (fetchPdf _ _ _ _ _) as [[b|msg] p1]; cbn [fst snd pdf nonces] in *.
  - pose proof (partialXorEncode_heap p1 b (NonceStore.xorKey data))
      as (_ & Henc & _).
    destruct (partialXorEncode b (NonceStore.xorKey data) p1) as [enc' p2].
    cbn [fst snd body] in *. intros [= <-]. subst enc'.
    by apply prefix_length.
  - by case_decide.
Qed.

(** C3, as the code has it.  When [validate] hands back a record whose
    filename the path resolver rejects, the handler answers with status
    500 and the fixed body [{ error: 'Internal error' }]: nothing of the
    filename or of the thrown error reaches the client.  (The cache
    condition holds in the initial state and is kept by every call of the
    document store.) *)
Theorem servePdfBinary_invalid_name w req clock nonce data store' :
  query_nonce req = Some nonce ->
  falsy nonce = false ->
  NonceStore.validate nonce (uidOrGuest req) (atValidate clock) (nonces w)
    = (Some data, store') ->
  cacheKeysResolve cfg (pdf w) ->
  PdfHandler.resolveFilePath cfg (NonceStore.file data) = None ->
  (servePdfBinary cfg firstPageOf req clock w).1
    = jsonError 500 "Internal error".
Proof.
  intros Hq Hf Hv Hcache Hbad.
  rewrite (servePdfBinary_validated _ _ _ _ _ _ Hq Hf Hv).
  unfold fetchPdf. destruct (NonceStore.isPremium data).
  - by rewrite (getFullPdf_invalid _ _ _ Hbad).
  - by rewrite (getSinglePagePdf_invalid _ _ _ _ _ _ Hcache Hbad).
Qed.

(** C10.  [partialXorEncode] returns a buffer that did not exist before
    the call and leaves every buffer that did exist, its input among
    them, with the bytes it had.  Hence serving a request changes no
    existing buffer either: a cached single-page derivative holds the
    same bytes after the response as before it, and the buffer sent in
    the response is never the cached one. *)
Theorem partialXorEncode_leaves_input_intact :
  (forall (h : heap) (buffer : loc) (xorKey : list Z),
     let '(data, h') := Codec.partialXorEncode buffer xorKey h in
     data = length h /\
     h !! data = None /\
     forall b bs, h !! b = Some bs -> h' !! b = Some bs) /\
  (forall w req clock,
     let '(res, w') := servePdfBinary cfg firstPageOf req clock w in
     (forall b bs,
        PdfHandler.heap (pdf w) !! b = Some bs ->
        PdfHandler.heap (pdf w') !! b = Some bs) /\
     (forall filename entry bs,
        PdfHandler.singlePageCache (pdf w) !! filename = Some entry ->
        PdfHandler.heap (pdf w) !! PdfHandler.buffer entry = Some bs ->
        PdfHandler.heap (pdf w') !! PdfHandler.buffer entry = Some bs /\
        body res <> Binary (PdfHandler.buffer entry))).
Proof.
  split.
  - intros h buffer xorKey.
    destruct (partialXorEncode_spec h buffer xorKey) as (out & -> & _).
    split; [done|]. split; [by apply lookup_ge_None_2|].
    intros b bs Hb. by apply lookup_app_l_Some.
  - intros w req clock.
    pose proof (servePdfBinary_heap w req clock) as Hheap.
    pose proof (servePdfBinary_sends_new w req clock) as Hnew.
    destruct (servePdfBinary cfg firstPageOf req clock w) as [res w'].
    cbn [fst snd] in *.
    assert (Hkeep : forall b bs,
               PdfHandler.heap (pdf w) !! b = Some bs ->
               PdfHandler.heap (pdf w') !! b = Some bs).
    { intros b bs Hb. by eapply prefix_lookup_Some. }
    split; [exact Hkeep|].
    intros filename entry bs _ Hb. split; [by apply Hkeep|].
    intros Hsent. apply Hnew in Hsent. apply lookup_lt_Some in Hb. lia.
Qed.

End ControllersFacts.

(** C3 as stated does not hold: user 42 opens the viewer on [a..pdf] (a
    basename ending in [.pdf], so the viewer route issues a nonce for it),
    then presents the nonce; the resolver rejects the name because it
    contains [".."], and the answer is a 500, neither 400 nor 403. *)
Lemma servePdfBinary_invalid_name_not_4xx :
  NonceStore.validate "n-1" 42 2000
      (Controllers.nonces (Fixtures.afterViewer "a..pdf"))
    = (Some {| NonceStore.uid := 42; NonceStore.file := "a..pdf";
               NonceStore.isPremium := true;
               NonceStore.xorKey := Fixtures.key;
               NonceStore.createdAt := 1000 |}, ∅) /\
  PdfHandler.resolveFilePath Fixtures.cfg "a..pdf" = None /\
  Controllers.status
    (Controllers.servePdfBinary Fixtures.cfg Fixtures.firstPageOf
       (Fixtures.dataOf "n-1" 42) (Fixtures.at_ 2000)
       (Fixtures.afterViewer "a..pdf")).1 = 500 /\
  ~ (Controllers.status
       (Controllers.servePdfBinary Fixtures.cfg Fixtures.firstPageOf
          (Fixtures.dataOf "n-1" 42) (Fixtures.at_ 2000)
          (Fixtures.afterViewer "a..pdf")).1 = 400 \/
     Controllers.status
       (Controllers.servePdfBinary Fixtures.cfg Fixtures.firstPageOf
          (Fixtures.dataOf "n-1" 42) (Fixtures.at_ 2000)
          (Fixtures.afterViewer "a..pdf")).1 = 403).
Proof.
  assert (Hstatus : Controllers.status
    (Controllers.servePdfBinary Fixtures.cfg Fixtures.firstPageOf
       (Fixtures.dataOf "n-1" 42) (Fixtures.at_ 2000)
       (Fixtures.afterViewer "a..pdf")).1 = 500) by (vm_compute; reflexivity).
  split; [vm_compute; reflexivity|]. split; [vm_compute; reflexivity|].
  split; [exact Hstatus|]. rewrite Hstatus. intros [?|?]; discriminate.
Qed.

Lemma servePdfBinary_invalid_name_witness :
  Controllers.query_nonce (Fixtures.dataOf "n-1" 42) = Some "n-1" /\
  JS.falsy "n-1" = false /\
  NonceStore.validate "n-1" (Controllers.uidOrGuest (Fixtures.dataOf "n-1" 42))
      (Controllers.atValidate (Fixtures.at_ 2000))
      (Controllers.nonces (Fixtures.afterViewer "a..pdf"))
    = (Some {| NonceStore.uid := 42; NonceStore.file := "a..pdf";
               NonceStore.isPremium := true;
               NonceStore.xorKey := Fixtures.key;
               NonceStore.createdAt := 1000 |}, ∅) /\
  cacheKeysResolve Fixtures.cfg (Controllers.pdf (Fixtures.afterViewer "a..pdf")) /\
  PdfHandler.resolveFilePath Fixtures.cfg "a..pdf" = None /\
  (Controllers.servePdfBinary Fixtures.cfg Fixtures.firstPageOf
     (Fixtures.dataOf "n-1" 42) (Fixtures.at_ 2000)
     (Fixtures.afterViewer "a..pdf")).1
    = Controllers.jsonError 500 "Internal error".
Proof.
  assert (Hq : Controllers.query_nonce (Fixtures.dataOf "n-1" 42) = Some "n-1")
    by reflexivity.
  assert (Hf : JS.falsy "n-1" = false) by reflexivity.
  assert (Hv : NonceStore.validate "n-1"
      (Controllers.uidOrGuest (Fixtures.dataOf "n-1" 42))
      (Controllers.atValidate (Fixtures.at_ 2000))
      (Controllers.nonces (Fixtures.afterViewer "a..pdf"))
    = (Some {| NonceStore.uid := 42; NonceStore.file := "a..pdf";
               NonceStore.isPremium := true;
               NonceStore.xorKey := Fixtures.key;
               NonceStore.createdAt := 1000 |}, ∅))
    by (vm_compute; reflexivity).
  assert (Hc : cacheKeysResolve Fixtures.cfg
                 (Controllers.pdf (Fixtures.afterViewer "a..pdf")))
    by (intros f e He; vm_compute in He; discriminate).
  assert (Hr : PdfHandler.resolveFilePath Fixtures.cfg "a..pdf" = None)
    by (vm_compute; reflexivity).
  repeat (split; [assumption|]).
  exact (servePdfBinary_invalid_name Fixtures.cfg Fixtures.firstPageOf
           _ _ _ _ _ _ Hq Hf Hv Hc Hr).
Defined.

(* ===================================================================== *)
(** * Properties of the viewer route and of the plugin as a whole *)
(* ===================================================================== *)

Section PluginFacts.
Import JS Controllers.

(** The viewer route either leaves the token store alone or makes exactly
    one [generate] call, and that call has [true] for [isPremium]. *)
Lemma viewer_store viewerHtmlCache req nonce key now
    (store : gmap string NonceStore.NonceData) :
  (Plugin.viewer viewerHtmlCache req nonce key now store).2 = store \/
  exists file,
    (Plugin.viewer viewerHtmlCache req nonce key now store).2 =
      (NonceStore.generate (uidOrGuest req) file true nonce key now store).2.
Proof.
  unfold Plugin.viewer.
  destruct (query_file req) as [file|]; [|by left].
  destruct (falsy file); [by left|].
  destruct (falsy _ || negb _); [by left|].
  destruct viewerHtmlCache as [html|]; [|by left].
  destruct (falsy html); [by left|].
  right. by exists (basename file).
Qed.

Lemma generate_store uid file isPremium nonce key now
    (store : gmap string NonceStore.NonceData) :
  (NonceStore.generate uid file isPremium nonce key now store).2 =
    <[nonce := {| NonceStore.uid := uid; NonceStore.file := file;
                  NonceStore.isPremium := isPremium;
                  NonceStore.xorKey := key;
                  NonceStore.createdAt := now |}]> store.
Proof. reflexivity. Qed.

Lemma viewer_premium viewerHtmlCache req nonce key now
    (store : gmap string NonceStore.NonceData) :
  allPremium store ->
  allPremium (Plugin.viewer viewerHtmlCache req nonce key now store).2.
Proof.
  intros Hall.
  destruct (viewer_store viewerHtmlCache req nonce key now store)
    as [->|[file ->]]; [done|].
  rewrite generate_store. intros token data.
  rewrite lookup_insert. case_decide; [|by apply Hall].
  by intros [= <-].
Qed.

(** C9.  Whatever the request, the viewer route either issues nothing or
    issues through [generate(uid, safeName, true)]: every record it adds
    to, or replaces in, the token store has [isPremium = true], and for
    such a record the gateway's choice between the two document variants
    is [getFullPdf], never [getSinglePagePdf]. *)
Theorem viewer_issues_full_entitlement viewerHtmlCache req nonce key now
    (store : gmap string NonceStore.NonceData) :
  let '(res, store') := Plugin.viewer viewerHtmlCache req nonce key now store in
  (store' = store \/
   exists file,
     store' = (NonceStore.generate (uidOrGuest req) file true
                 nonce key now store).2) /\
  forall token data,
    store' !! token = Some data -> store !! token <> Some data ->
    NonceStore.isPremium data = true /\
    forall cfg firstPageOf clock,
      fetchPdf cfg firstPageOf data clock
        = PdfHandler.getFullPdf cfg (NonceStore.file data).
Proof.
  pose proof (viewer_store viewerHtmlCache req nonce key now store) as Hstore.
  destruct (Plugin.viewer viewerHtmlCache req nonce key now store)
    as [res store']. cbn [snd] in Hstore.
  split; [exact Hstore|].
  intros token data Hnew Hold.
  assert (Hprem : NonceStore.isPremium data = true).
  { destruct Hstore as [->|[file ->]]; [done|].
    rewrite generate_store in Hnew.
    rewrite lookup_insert in Hnew. case_decide; [|done].
    by injection Hnew as <-. }
  split; [exact Hprem|].
  intros cfg firstPageOf clock. unfold fetchPdf. by rewrite Hprem.
Qed.

Variable cfg : PdfHandler.Config.
Variable firstPageOf : list Z -> Completion (list Z).
Variable viewerHtmlCache : option string.

(** The gateway only ever removes records from the token store, and it
    touches the derivative cache only on the first-page branch. *)
Lemma servePdfBinary_nonces (w : World) req clock token data :
  nonces (servePdfBinary cfg firstPageOf req clock w).2 !! token = Some data ->
  nonces w !! token = Some data.
Proof.
  unfold servePdfBinary.
  destruct (query_nonce req) as [nonce|]; [|done].
  destruct (falsy nonce); [done|].
  unfold inNonceStore, inPdfHandler. unfold_js.
  pose proof (validate_unknown (nonces w) nonce (uidOrGuest req)
                (atValidate clock)) as Hunknown.
  destruct (nonces w !! nonce) as [known|] eqn:Hn.
  - rewrite (validate_known _ _ _ _ _ Hn).
    assert (Hdel : delete nonce (nonces w) !! token = Some data ->
                   nonces w !! token = Some data).
    { rewrite lookup_delete. by case_decide. }
    destruct (if decide _ then _ else _) as [data'|]; [|exact Hdel].
    cbn [pdf nonces].
    destruct (fetchPdf _ _ _ _ _) as [[b|msg] p1]; cbn [pdf nonces].
    + destruct (partialXorEncode b (NonceStore.xorKey data') p1).
      exact Hdel.
    + case_decide; exact Hdel.
  - by rewrite Hunknown.
Qed.

Lemma servePdfBinary_cache_premium (w : World) req clock :
  allPremium (nonces w) ->
  PdfHandler.singlePageCache (pdf (servePdfBinary cfg firstPageOf req clock w).2)
    = PdfHandler.singlePageCache (pdf w).
Proof.
  intros Hall. unfold servePdfBinary.
  destruct (query_nonce req) as [nonce|]; [|done].
  destruct (falsy nonce); [done|].
  unfold inNonceStore, inPdfHandler. unfold_js.
  destruct (nonces w !! nonce) as [known|] eqn:Hn.
  - rewrite (validate_known _ _ _ _ _ Hn).
    destruct (if decide _ then _ else _) as [data'|] eqn:Hres; [|done].
    assert (data' = known) as -> by (repeat case_decide; congruence).
    clear Hres. cbn [pdf nonces]. unfold fetchPdf. rewrite (Hall _ _ Hn).
    pose proof (getFullPdf_cache cfg (pdf w) (NonceStore.file known)) as Hfull.
    destruct (PdfHandler.getFullPdf _ _ _) as [[b|msg] p1];
      cbn [fst snd pdf nonces] in *.
    + pose proof (partialXorEncode_heap p1 b (NonceStore.xorKey known))
        as (_ & _ & Hc).
      destruct (partialXorEncode b (NonceStore.xorKey known) p1).
      cbn [fst snd pdf] in *. congruence.
    + case_decide; exact Hfull.
  - by rewrite (validate_unknown _ _ _ _ Hn).
Qed.

Lemma servePdfBinary_heapBytes (w : World) req clock :
  heapBytes (PdfHandler.heap (pdf w)) ->
  heapBytes (PdfHandler.heap (pdf (servePdfBinary cfg firstPageOf req clock w).2)).
Proof.
  intros Hh. unfold servePdfBinary.
  destruct (query_nonce req) as [nonce|]; [|done].
  destruct (falsy nonce); [done|].
  unfold inNonceStore, inPdfHandler. unfold_js.
  destruct (NonceStore.validate _ _ _ _) as [[data|] store']; [|done].
  cbn [pdf nonces].
  assert (Hfetch : heapBytes (PdfHandler.heap
                     (fetchPdf cfg firstPageOf data clock (pdf w)).2)).
  { unfold fetchPdf. destruct (NonceStore.isPremium data).
    - by apply getFullPdf_heapBytes.
    - by apply getSinglePagePdf_heapBytes. }
  destruct (fetchPdf _ _ _ _ _) as [[b|msg] p1]; cbn [fst snd pdf nonces] in *.
  - pose proof (partialXorEncode_heapBytes (PdfHandler.heap p1) b
                  (NonceStore.xorKey data) Hfetch) as Henc.
    unfold partialXorEncode.
    destruct (Codec.partialXorEncode b (NonceStore.xorKey data) (PdfHandler.heap p1)).
    exact Henc.
  - case_decide; exact Hfetch.
Qed.

Lemma viewer_keysDrawn req nonce key now
    (store : gmap string NonceStore.NonceData) :
  is_bytes key -> length key = 8%nat ->
  keysDrawn store ->
  keysDrawn (Plugin.viewer viewerHtmlCache req nonce key now store).2.
Proof.
  intros Hk Hlen Hall.
  destruct (viewer_store viewerHtmlCache req nonce key now store)
    as [->|[file ->]]; [done|].
  rewrite generate_store. intros token data.
  rewrite lookup_insert. case_decide; [|by apply Hall].
  by intros [= <-].
Qed.

(** In every state the running plugin can reach, buffers hold bytes and
    stored keys are the eight bytes that were drawn for them: the
    hypotheses of the codec theorems are met wherever the gateway calls the
    codec. *)
Lemma reachable_bytes disk w :
  System.reachable cfg firstPageOf viewerHtmlCache disk w ->
  heapBytes (PdfHandler.heap (pdf w)) /\ keysDrawn (nonces w).
Proof.
  induction 1 as [|a w Hreach [IHh IHk] Hdrawn]; [split; [constructor|done]|].
  destruct a as [req nonce key now|req clock|now|now];
    cbn [System.handle]; unfold inNonceStore, inPdfHandler; unfold_js.
  - destruct Hdrawn as [Hk Hlen].
    pose proof (viewer_keysDrawn req nonce key now (nonces w) Hk Hlen IHk).
    destruct (Plugin.viewer _ _ _ _ _ _) as [res store'].
    cbn [snd nonces pdf] in *. by split.
  - pose proof (servePdfBinary_heapBytes w req clock IHh) as Hheap.
    pose proof (servePdfBinary_nonces w req clock) as Hnon.
    destruct (servePdfBinary _ _ _ _ _) as [res w']. cbn [snd] in *.
    split; [done|]. intros token data Hnew. eapply IHk, Hnon, Hnew.
  - cbn [snd nonces pdf]. split; [done|].
    intros token data Hnew. unfold NonceStore.cleanup, modify in Hnew.
    cbn [snd] in Hnew. apply map_lookup_filter_Some in Hnew as [Hnew _].
    by eapply IHk.
  - cbn [snd nonces pdf]. by split.
Qed.

(** In every state the running plugin can reach, all stored nonces carry
    the full entitlement and the derivative cache is still empty: the
    first-page branch has never run. *)
Lemma reachable_all_premium disk w :
  System.reachable cfg firstPageOf viewerHtmlCache disk w ->
  allPremium (nonces w) /\ PdfHandler.singlePageCache (pdf w) = ∅.
Proof.
  induction 1 as [|a w Hreach [IHn IHc] Hdrawn]; [done|].
  destruct a as [req nonce key now|req clock|now|now];
    cbn [System.handle]; unfold inNonceStore, inPdfHandler; unfold_js.
  - pose proof (viewer_premium viewerHtmlCache req nonce key now
                  (nonces w) IHn) as Hissue.
    destruct (Plugin.viewer _ _ _ _ _ _) as [res store'].
    cbn [snd nonces pdf] in *. by split.
  - pose proof (servePdfBinary_cache_premium w req clock IHn) as Hcache.
    pose proof (servePdfBinary_nonces w req clock) as Hnon.
    destruct (servePdfBinary _ _ _ _ _) as [res w']. cbn [snd] in *.
    split; [|congruence].
    intros token data Hnew. eapply IHn, Hnon, Hnew.
  - cbn [snd nonces pdf]. split; [|done].
    intros token data Hnew. unfold NonceStore.cleanup, modify in Hnew.
    cbn [snd] in Hnew. apply map_lookup_filter_Some in Hnew as [Hnew _].
    by eapply IHn.
  - cbn [snd nonces pdf]. split; [done|].
    unfold PdfHandler.cleanup, modify, PdfHandler.withCache.
    cbn [snd PdfHandler.singlePageCache]. rewrite IHc.
    apply map_filter_empty.
Qed.

(** So the cache condition of the gateway theorem on rejected filenames
    holds in every reachable state. *)
Lemma reachable_cacheKeysResolve disk w :
  System.reachable cfg firstPageOf viewerHtmlCache disk w ->
  cacheKeysResolve cfg (pdf w).
Proof.
  intros Hreach. destruct (reachable_all_premium disk w Hreach) as [_ Hempty].
  intros filename entry. by rewrite Hempty.
Qed.

End PluginFacts.

Lemma getSinglePagePdf_served_from_cache_witness :
  PdfHandler.getSinglePagePdf Fixtures.cfg Fixtures.firstPageOf
      "report.pdf" 2000 2005 Fixtures.freshState
    = (JS.Return 1%nat,
       (PdfHandler.getSinglePagePdf Fixtures.cfg Fixtures.firstPageOf
          "report.pdf" 2000 2005 Fixtures.freshState).2) /\
  exists entry,
    PdfHandler.singlePageCache
      (PdfHandler.getSinglePagePdf Fixtures.cfg Fixtures.firstPageOf
         "report.pdf" 2000 2005 Fixtures.freshState).2 !! "report.pdf"
      = Some entry /\
    PdfHandler.buffer entry = 1%nat /\
    forall now2 later2,
      now2 - PdfHandler.createdAt entry < PdfHandler.CACHE_TTL ->
      let '(result2, s2) :=
        PdfHandler.getSinglePagePdf Fixtures.cfg Fixtures.firstPageOf
          "report.pdf" now2 later2
          (PdfHandler.getSinglePagePdf Fixtures.cfg Fixtures.firstPageOf
             "report.pdf" 2000 2005 Fixtures.freshState).2 in
      result2 = JS.Return 1%nat /\
      JS.bytesOf (PdfHandler.heap s2) 1%nat
        = JS.bytesOf
            (PdfHandler.heap
               (PdfHandler.getSinglePagePdf Fixtures.cfg Fixtures.firstPageOf
                  "report.pdf" 2000 2005 Fixtures.freshState).2) 1%nat /\
      PdfHandler.calls s2
        = PdfHandler.calls
            (PdfHandler.getSinglePagePdf Fixtures.cfg Fixtures.firstPageOf
               "report.pdf" 2000 2005 Fixtures.freshState).2 /\
      s2 = (PdfHandler.getSinglePagePdf Fixtures.cfg Fixtures.firstPageOf
              "report.pdf" 2000 2005 Fixtures.freshState).2.
Proof.
  assert (H : PdfHandler.getSinglePagePdf Fixtures.cfg Fixtures.firstPageOf
      "report.pdf" 2000 2005 Fixtures.freshState
    = (JS.Return 1%nat,
       (PdfHandler.getSinglePagePdf Fixtures.cfg Fixtures.firstPageOf
          "report.pdf" 2000 2005 Fixtures.freshState).2))
    by (vm_compute; reflexivity).
  split; [exact H|].
  exact (getSinglePagePdf_served_from_cache Fixtures.cfg Fixtures.firstPageOf
           _ _ _ _ _ _ H).
Defined.

(* ===================================================================== *)
(** * The token store: round trips and the sweep *)
(* ===================================================================== *)

Section NonceStoreRoundTrips.
Import JS NonceStore.

Implicit Types (store : Store) (nonce : string).

(** Whatever [validate] answers, the store it leaves is the one it found
    without [nonce]. *)
Lemma validate_store store nonce uid' now :
  (validate nonce uid' now store).2 = delete nonce store.
Proof.
  destruct (store !! nonce) as [d|] eqn:Hst.
  - by rewrite (validate_known store _ _ _ d Hst).
  - rewrite validate_unknown by done. cbn [snd]. by rewrite delete_id.
Qed.

Lemma validate_accepts store nonce uid' now data :
  store !! nonce = Some data ->
  uid data = uid' ->
  now - createdAt data <= NONCE_TTL ->
  validate nonce uid' now store = (Some data, delete nonce store).
Proof.
  intros Hs Hu Hage. rewrite (validate_known store _ _ _ data Hs).
  rewrite decide_False by (intros Hx; by apply Hx).
  by rewrite decide_False by lia.
Qed.

(** What the sweep leaves under one key. *)
Lemma cleanup_lookup store now nonce :
  (cleanup now store).2 !! nonce =
  match store !! nonce with
  | Some data =>
      if decide (now - createdAt data > NONCE_TTL) then None else Some data
  | None => None
  end.
Proof.
  unfold cleanup, modify. cbn [snd].
  destruct (store !! nonce) as [data|] eqn:Hs.
  - destruct (decide (now - createdAt data > NONCE_TTL)) as [Hold|Hyoung].
    + apply map_lookup_filter_None. right. intros data' Hd. simplify_eq.
      cbn. tauto.
    + apply map_lookup_filter_Some. by split.
  - apply map_lookup_filter_None. by left.
Qed.

(** X1.  A token that [generate] has just stored is redeemed by [validate]
    exactly when the same user presents it no later than 30 000 ms after
    it was issued: the answer is then the record [generate] stored, with
    the uid, file, entitlement, key and time of issue it was given.  For
    another user, or later than that, the answer is [null].  Either way
    the store is left as it was before [generate], without the nonce. *)
Theorem generate_then_validate store uid file isPremium nonce key now uid' now' :
  let '(issued, store1) := generate uid file isPremium nonce key now store in
  let '(result, store2) := validate issued.1 uid' now' store1 in
  issued.1 = nonce /\
  (uid' = uid /\ now' - now <= NONCE_TTL ->
     result = Some {| uid := uid; file := file; isPremium := isPremium;
                      xorKey := key; createdAt := now |}) /\
  (uid' <> uid \/ now' - now > NONCE_TTL -> result = None) /\
  store2 = delete nonce store.
Proof.
  unfold generate. unfold_js. cbn [fst snd].
  erewrite validate_known by apply lookup_insert_eq.
  cbn [NonceStore.uid NonceStore.createdAt].
  split; [done|]. split; [|split].
  - intros [-> Hage]. rewrite decide_False by (intros Hx; by apply Hx).
    by rewrite decide_False by lia.
  - intros [Hu|Hage].
    + rewrite decide_True; [done|]. intros Hx. by apply Hu.
    + destruct (decide (uid <> uid')); [done|]. by rewrite decide_True by lia.
  - apply delete_insert_eq.
Qed.

(** X2.  The key text [generate] returns is the text [getKey] gives for
    the nonce right afterwards, and [atob] reads it back as the key bytes
    that are stored. *)
Theorem generate_key_text store uid file isPremium nonce key now :
  is_bytes key ->
  let '(issued, store1) := generate uid file isPremium nonce key now store in
  getKey issued.1 store1 = (Some issued.2, store1) /\
  fromBase64 issued.2 = Some key.
Proof.
  intros Hkey. unfold generate, getKey. unfold_js. cbn [fst snd].
  rewrite lookup_insert_eq. cbn [xorKey]. split; [done|].
  by apply toBase64_roundtrip.
Qed.

(** X3.  The sweep of the token store removes the records older than
    30 000 ms and no other: a record is in the store after the sweep
    exactly when it was there before and its age at the sweep is at most
    30 000 ms. *)
Theorem cleanup_removes_expired store now nonce data :
  (cleanup now store).2 !! nonce = Some data <->
  store !! nonce = Some data /\ now - createdAt data <= NONCE_TTL.
Proof.
  rewrite cleanup_lookup. destruct (store !! nonce) as [d|].
  - destruct (decide (now - createdAt d > NONCE_TTL)); split.
    + done.
    + intros [[= ->] ?]. lia.
    + intros [= ->]. split; [done|lia].
    + by intros [? _].
  - split; [done|]. by intros [? _].
Qed.

(** X4.  A sweep never changes what a later [validate] answers: with or
    without a sweep at an earlier time, [validate] returns the same
    result, and the two orders leave the same store. *)
Theorem cleanup_then_validate store nonce uid' now now' :
  now <= now' ->
  (validate nonce uid' now' (cleanup now store).2).1
    = (validate nonce uid' now' store).1 /\
  (validate nonce uid' now' (cleanup now store).2).2
    = (cleanup now (validate nonce uid' now' store).2).2.
Proof.
  intros Hle. split.
  - pose proof (cleanup_lookup store now nonce) as Hc.
    destruct (store !! nonce) as [data|] eqn:Hs.
    + rewrite (validate_known store _ _ _ data Hs). cbn [fst].
      destruct (decide (now - createdAt data > NONCE_TTL)) as [Hold|Hyoung].
      * rewrite validate_unknown by done. cbn [fst].
        case_decide; [done|]. by rewrite decide_True by lia.
      * by rewrite (validate_known _ _ _ _ data Hc).
    + by rewrite !validate_unknown.
  - rewrite !validate_store. unfold cleanup, modify. cbn [snd].
    symmetry. apply map_filter_delete.
Qed.

End NonceStoreRoundTrips.

Lemma generate_key_text_witness :
  JS.is_bytes Fixtures.key /\
  let '(issued, store1) :=
    NonceStore.generate 42 "report.pdf" true "n-1" Fixtures.key 1000 ∅ in
  NonceStore.getKey issued.1 store1 = (Some issued.2, store1) /\
  JS.fromBase64 issued.2 = Some Fixtures.key.
Proof.
  assert (H : JS.is_bytes Fixtures.key)
    by (unfold JS.is_bytes, JS.is_byte; repeat constructor; lia).
  split; [exact H|].
  exact (generate_key_text ∅ 42 "report.pdf" true "n-1" Fixtures.key 1000 H).
Defined.

Lemma cleanup_then_validate_witness :
  40000 <= 41000 /\
  (NonceStore.validate "n-1" 42 41000
     (NonceStore.cleanup 40000
        (Controllers.nonces (Fixtures.afterViewer "report.pdf"))).2).1
    = (NonceStore.validate "n-1" 42 41000
         (Controllers.nonces (Fixtures.afterViewer "report.pdf"))).1 /\
  (NonceStore.validate "n-1" 42 41000
     (NonceStore.cleanup 40000
        (Controllers.nonces (Fixtures.afterViewer "report.pdf"))).2).2
    = (NonceStore.cleanup 40000
         (NonceStore.validate "n-1" 42 41000
            (Controllers.nonces (Fixtures.afterViewer "report.pdf"))).2).2.
Proof.
  assert (H : 40000 <= 41000) by lia.
  split; [exact H|].
  exact (cleanup_then_validate
           (Controllers.nonces (Fixtures.afterViewer "report.pdf"))
           "n-1" 42 40000 41000 H).
Defined.

(* ===================================================================== *)
(** * The document store: every outcome of the two getters *)
(* ===================================================================== *)

Section PdfHandlerOutcomes.
Import JS PdfHandler.

Variable cfg : Config.
Variable firstPageOf : list Z -> Completion (list Z).

Implicit Types (s : State) (filename : string).

Local Ltac unfold_store :=
  unfold getSinglePagePdf, getFullPdf, readFile, existsSync, newBuffer,
    alloc, record, withCache, withHeap in *;
  unfold_js.

(** X5.  The resolver accepts every non-empty name without a separator
    and without [".."], whatever the configuration and the working
    directory are, and answers with the upload directory, [files] and the
    name joined: for such names the prefix test never fails. *)
Theorem resolveFilePath_accepts_simple_names filename :
  filename <> "" ->
  ~ In slash (chars filename) ->
  includes filename ".." = false ->
  resolveFilePath cfg filename
    = Some (join [uploadPath cfg; "files"; filename]).
Proof.
  intros Hne Hslash Hdots. apply resolveFilePath_simpleName.
  split; [|done]. by repeat split.
Qed.

(** [getFullPdf] on a regular file. *)
Lemma getFullPdf_found s filename p content :
  resolveFilePath cfg filename = Some p ->
  disk s !! resolve (cwd cfg) [p] = Some (RegularFile content) ->
  getFullPdf cfg filename s =
    (Return (length (heap s)),
     {| heap := heap s ++ [map toUint8 content];
        singlePageCache := singlePageCache s;
        disk := disk s;
        calls := ReadFile p :: calls s |}).
Proof.
  intros Hr Hd. unfold_store. rewrite Hr. cbn [disk].
  rewrite Hd. rewrite bool_decide_eq_true_2 by eauto.
  cbn [negb disk]. by rewrite Hd.
Qed.

(** [getFullPdf] on a directory: [existsSync] says yes and [readFile]
    throws. *)
Lemma getFullPdf_directory s filename p :
  resolveFilePath cfg filename = Some p ->
  disk s !! resolve (cwd cfg) [p] = Some Directory ->
  getFullPdf cfg filename s =
    (Throw "EISDIR: illegal operation on a directory, read",
     {| heap := heap s; singlePageCache := singlePageCache s;
        disk := disk s; calls := ReadFile p :: calls s |}).
Proof.
  intros Hr Hd. unfold_store. rewrite Hr. cbn [disk].
  rewrite Hd. rewrite bool_decide_eq_true_2 by eauto.
  cbn [negb disk]. by rewrite Hd.
Qed.

Lemma getFullPdf_not_found s filename p :
  resolveFilePath cfg filename = Some p ->
  disk s !! resolve (cwd cfg) [p] = None ->
  getFullPdf cfg filename s = (Throw "File not found", s).
Proof.
  intros Hr Hd. unfold_store. rewrite Hr, Hd.
  rewrite bool_decide_eq_false_2; [done|]. by intros [? ?].
Qed.

(** X6.  For a name the resolver accepts and a regular file at the
    resolved path, [getFullPdf] returns a new buffer that holds the bytes
    of the file; it makes one [readFile] call, on the resolved path, and
    leaves the derivative cache as it was. *)
Theorem getFullPdf_reads_file s filename p content :
  resolveFilePath cfg filename = Some p ->
  disk s !! resolve (cwd cfg) [p] = Some (RegularFile content) ->
  let '(result, s') := getFullPdf cfg filename s in
  result = Return (length (heap s)) /\
  heap s' = heap s ++ [map toUint8 content] /\
  singlePageCache s' = singlePageCache s /\
  calls s' = ReadFile p :: calls s.
Proof.
  intros Hr Hd. by rewrite (getFullPdf_found s filename p content Hr Hd).
Qed.


(** [getSinglePagePdf] when the cache holds no fresh entry for
    [filename]: what happens is decided by the resolver, the disk and
    [pdf-lib]. *)
Lemma getSinglePagePdf_stale s filename now later :
  (forall entry, singlePageCache s !! filename = Some entry ->
     CACHE_TTL <= now - createdAt entry) ->
  getSinglePagePdf cfg firstPageOf filename now later s =
    match resolveFilePath cfg filename with
    | None => (Throw "Invalid filename", s)
    | Some p =>
        match disk s !! resolve (cwd cfg) [p] with
        | None => (Throw "File not found", s)
        | Some Directory =>
            (Throw "EISDIR: illegal operation on a directory, read",
             {| heap := heap s; singlePageCache := singlePageCache s;
                disk := disk s; calls := ReadFile p :: calls s |})
        | Some (RegularFile content) =>
            match firstPageOf (map toUint8 content) with
            | Return page =>
                (Return (S (length (heap s))),
                 {| heap := heap s ++ [map toUint8 content; map toUint8 page];
                    singlePageCache :=
                      <[filename := {| buffer := S (length (heap s));
                                       createdAt := later |}]>
                        (singlePageCache s);
                    disk := disk s;
                    calls := PdfLoad (map toUint8 content)
                               :: ReadFile p :: calls s |})
            | Throw message =>
                (Throw message,
                 {| heap := heap s ++ [map toUint8 content];
                    singlePageCache := singlePageCache s;
                    disk := disk s;
                    calls := PdfLoad (map toUint8 content)
                               :: ReadFile p :: calls s |})
            end
        end
    end.
Proof.
  intros Hstale. unfold_store.
  assert (match singlePageCache s !! filename with
          | Some entry =>
              if decide (now - createdAt entry < CACHE_TTL)
              then Some (buffer entry) else None
          | None => None
          end = None) as ->.
  { destruct (singlePageCache s !! filename) as [entry|] eqn:Hc; [|done].
    rewrite decide_False; [done|]. specialize (Hstale entry eq_refl). lia. }
  destruct (resolveFilePath cfg filename) as [p|]; [|done].
  destruct (disk s !! resolve (cwd cfg) [p]) as [[content|]|] eqn:Hd.
  - rewrite bool_decide_eq_true_2 by eauto. cbn [negb disk]. rewrite Hd.
    cbn [heap]. unfold bytesOf. rewrite lookup_app_r by lia.
    replace (length (heap s) - length (heap s))%nat with 0%nat by lia.
    cbn [lookup list_lookup default]. unfold id.
    destruct (firstPageOf (map toUint8 content)) as [page|message]; [|done].
    cbn [heap singlePageCache disk calls]. rewrite length_app. cbn [length].
    rewrite Nat.add_1_r. by rewrite <- app_assoc.
  - rewrite bool_decide_eq_true_2 by eauto. cbn [negb disk]. by rewrite Hd.
  - rewrite bool_decide_eq_false_2; [done|]. by intros [? ?].
Qed.

Lemma cleanup_state s now :
  (cleanup now s).2 =
    {| heap := heap s;
       singlePageCache :=
         filter (fun '(_, entry) => ~ (now - createdAt entry > CACHE_TTL))
           (singlePageCache s);
       disk := disk s; calls := calls s |}.
Proof. reflexivity. Qed.

Lemma cleanup_cache_lookup s now filename :
  singlePageCache (cleanup now s).2 !! filename =
  match singlePageCache s !! filename with
  | Some entry =>
      if decide (now - createdAt entry > CACHE_TTL) then None else Some entry
  | None => None
  end.
Proof.
  rewrite cleanup_state. cbn [singlePageCache].
  destruct (singlePageCache s !! filename) as [entry|] eqn:Hs.
  - destruct (decide (now - createdAt entry > CACHE_TTL)) as [Hold|Hyoung].
    + apply map_lookup_filter_None. right. intros e' He. simplify_eq.
      cbn. tauto.
    + apply map_lookup_filter_Some. by split.
  - apply map_lookup_filter_None. by left.
Qed.

(** X8.  Without a fresh cache entry, for an accepted name, a regular file
    and a document [pdf-lib] can cut, [getSinglePagePdf] reads the file,
    hands its bytes to [pdf-lib], puts the derived bytes in a new buffer,
    returns that buffer and stores it in the cache under the filename with
    the time of the store; an entry that was there before is replaced. *)
Theorem getSinglePagePdf_derives_and_caches s filename now later p content page :
  (forall entry, singlePageCache s !! filename = Some entry ->
     CACHE_TTL <= now - createdAt entry) ->
  resolveFilePath cfg filename = Some p ->
  disk s !! resolve (cwd cfg) [p] = Some (RegularFile content) ->
  firstPageOf (map toUint8 content) = Return page ->
  let '(result, s') := getSinglePagePdf cfg firstPageOf filename now later s in
  let derived := S (length (heap s)) in
  result = Return derived /\
  heap s' = heap s ++ [map toUint8 content; map toUint8 page] /\
  singlePageCache s' =
    <[filename := {| buffer := derived; createdAt := later |}]>
      (singlePageCache s) /\
  calls s' = PdfLoad (map toUint8 content) :: ReadFile p :: calls s.
Proof.
  intros Hstale Hr Hd Hpage.
  rewrite (getSinglePagePdf_stale s filename now later Hstale), Hr, Hd, Hpage.
  done.
Qed.


(** X10.  The sweep of the derivative cache removes the entries older than
    one hour and no other: an entry is in the cache after the sweep
    exactly when it was there before and its age at the sweep is at most
    3 600 000 ms. *)
Theorem cleanup_keeps_fresh s now filename entry :
  singlePageCache (cleanup now s).2 !! filename = Some entry <->
  singlePageCache s !! filename = Some entry /\
  now - createdAt entry <= CACHE_TTL.
Proof.
  rewrite cleanup_cache_lookup.
  destruct (singlePageCache s !! filename) as [e|].
  - destruct (decide (now - createdAt e > CACHE_TTL)); split.
    + done.
    + intros [[= ->] ?]. lia.
    + intros [= ->]. split; [done|lia].
    + by intros [? _].
  - split; [done|]. by intros [? _].
Qed.

(** With no fresh entry before the sweep there is none after it. *)
Lemma cleanup_stale s now now' filename :
  (forall e, singlePageCache s !! filename = Some e ->
     CACHE_TTL <= now' - createdAt e) ->
  forall e, singlePageCache (cleanup now s).2 !! filename = Some e ->
    CACHE_TTL <= now' - createdAt e.
Proof.
  intros Hstale e He. rewrite cleanup_cache_lookup in He.
  destruct (singlePageCache s !! filename) as [e'|] eqn:Hs; [|done].
  case_decide; simplify_eq. by apply Hstale.
Qed.

(** X11.  A sweep never changes what a later [getSinglePagePdf] returns:
    with or without a sweep at an earlier time the call completes the same
    way, and sweeping before the call or after it leaves the same state.
    In particular the sweep never evicts an entry the call would still
    have served. *)
Theorem cleanup_then_getSinglePagePdf s filename now now' later :
  now <= now' -> now <= later ->
  let '(swept, s1) :=
    getSinglePagePdf cfg firstPageOf filename now' later (cleanup now s).2 in
  let '(unswept, s2) := getSinglePagePdf cfg firstPageOf filename now' later s in
  swept = unswept /\ s1 = (cleanup now s2).2.
Proof.
  intros Hle Hlater.
  assert ((exists entry, singlePageCache s !! filename = Some entry /\
             now' - createdAt entry < CACHE_TTL) \/
          (forall e, singlePageCache s !! filename = Some e ->
             CACHE_TTL <= now' - createdAt e)) as [(entry & Hs & Hfresh)|Hstale].
  { destruct (singlePageCache s !! filename) as [entry|]; [|by right].
    destruct (decide (now' - createdAt entry < CACHE_TTL)).
    - left. by exists entry.
    - right. intros e [= <-]. lia. }
  - pose proof (cleanup_cache_lookup s now filename) as Hc.
    rewrite Hs, decide_False in Hc by lia.
    rewrite (getSinglePagePdf_hit cfg firstPageOf _ filename now' later
               entry Hc Hfresh).
    by rewrite (getSinglePagePdf_hit cfg firstPageOf s filename now' later
                  entry Hs Hfresh).
  - rewrite (getSinglePagePdf_stale _ filename now' later
               (cleanup_stale s now now' filename Hstale)),
      (getSinglePagePdf_stale s filename now' later Hstale).
    rewrite !cleanup_state. cbn [disk heap calls singlePageCache].
    destruct (resolveFilePath cfg filename) as [p|]; [|done].
    destruct (disk s !! resolve (cwd cfg) [p]) as [[content|]|]; [|done..].
    destruct (firstPageOf (map toUint8 content)) as [page|message]; [|done].
    split; [done|]. rewrite cleanup_state.
    cbn [disk heap calls singlePageCache]. f_equal.
    rewrite map_filter_insert_True; [done|]. cbn. unfold CACHE_TTL. lia.
Qed.

End PdfHandlerOutcomes.

Lemma resolveFilePath_accepts_simple_names_witness :
  "report.pdf" <> "" /\
  ~ In JS.slash (JS.chars "report.pdf") /\
  JS.includes "report.pdf" ".." = false /\
  PdfHandler.resolveFilePath Fixtures.cfg "report.pdf"
    = Some (JS.join [PdfHandler.uploadPath Fixtures.cfg; "files"; "report.pdf"]).
Proof.
  assert (H1 : "report.pdf" <> "") by discriminate.
  assert (H2 : ~ In JS.slash (JS.chars "report.pdf"))
    by (cbn; intros H; repeat destruct H as [H|H]; try discriminate H; exact H).
  assert (H3 : JS.includes "report.pdf" ".." = false) by reflexivity.
  split; [exact H1|]. split; [exact H2|]. split; [exact H3|].
  exact (resolveFilePath_accepts_simple_names Fixtures.cfg "report.pdf" H1 H2 H3).
Defined.

Lemma getFullPdf_reads_file_witness :
  PdfHandler.resolveFilePath Fixtures.cfg "report.pdf"
    = Some "/srv/nodebb/public/uploads/files/report.pdf" /\
  PdfHandler.disk Fixtures.freshState !!
      JS.resolve (PdfHandler.cwd Fixtures.cfg)
        ["/srv/nodebb/public/uploads/files/report.pdf"]
    = Some (PdfHandler.RegularFile Fixtures.reportBytes) /\
  let '(result, s') :=
    PdfHandler.getFullPdf Fixtures.cfg "report.pdf" Fixtures.freshState in
  result = JS.Return (length (PdfHandler.heap Fixtures.freshState)) /\
  PdfHandler.heap s'
    = PdfHandler.heap Fixtures.freshState
        ++ [map JS.toUint8 Fixtures.reportBytes] /\
  PdfHandler.singlePageCache s'
    = PdfHandler.singlePageCache Fixtures.freshState /\
  PdfHandler.calls s'
    = PdfHandler.ReadFile "/srv/nodebb/public/uploads/files/report.pdf"
        :: PdfHandler.calls Fixtures.freshState.
Proof.
  assert (H1 : PdfHandler.resolveFilePath Fixtures.cfg "report.pdf"
               = Some "/srv/nodebb/public/uploads/files/report.pdf")
    by (vm_compute; reflexivity).
  assert (H2 : PdfHandler.disk Fixtures.freshState !!
                 JS.resolve (PdfHandler.cwd Fixtures.cfg)
                   ["/srv/nodebb/public/uploads/files/report.pdf"]
               = Some (PdfHandler.RegularFile Fixtures.reportBytes))
    by (vm_compute; reflexivity).
  split; [exact H1|]. split; [exact H2|].
  exact (getFullPdf_reads_file Fixtures.cfg Fixtures.freshState
           "report.pdf" _ _ H1 H2).
Defined.


Lemma getSinglePagePdf_derives_and_caches_witness :
  (forall entry,
     PdfHandler.singlePageCache Fixtures.cachedState !! "report.pdf" = Some entry ->
     PdfHandler.CACHE_TTL <= 3601000 - PdfHandler.createdAt entry) /\
  PdfHandler.resolveFilePath Fixtures.cfg "report.pdf"
    = Some "/srv/nodebb/public/uploads/files/report.pdf" /\
  PdfHandler.disk Fixtures.cachedState !!
      JS.resolve (PdfHandler.cwd Fixtures.cfg)
        ["/srv/nodebb/public/uploads/files/report.pdf"]
    = Some (PdfHandler.RegularFile Fixtures.reportBytes) /\
  Fixtures.firstPageOf (map JS.toUint8 Fixtures.reportBytes)
    = JS.Return [37; 80; 68; 70; 45; 11] /\
  let '(result, s') :=
    PdfHandler.getSinglePagePdf Fixtures.cfg Fixtures.firstPageOf
      "report.pdf" 3601000 3601001 Fixtures.cachedState in
  let derived := S (length (PdfHandler.heap Fixtures.cachedState)) in
  result = JS.Return derived /\
  PdfHandler.heap s'
    = PdfHandler.heap Fixtures.cachedState
        ++ [map JS.toUint8 Fixtures.reportBytes;
            map JS.toUint8 [37; 80; 68; 70; 45; 11]] /\
  PdfHandler.singlePageCache s' =
    <["report.pdf" := {| PdfHandler.buffer := derived;
                         PdfHandler.createdAt := 3601001 |}]>
      (PdfHandler.singlePageCache Fixtures.cachedState) /\
  PdfHandler.calls s'
    = PdfHandler.PdfLoad (map JS.toUint8 Fixtures.reportBytes)
        :: PdfHandler.ReadFile "/srv/nodebb/public/uploads/files/report.pdf"
        :: PdfHandler.calls Fixtures.cachedState.
Proof.
  assert (H1 : forall entry,
     PdfHandler.singlePageCache Fixtures.cachedState !! "report.pdf" = Some entry ->
     PdfHandler.CACHE_TTL <= 3601000 - PdfHandler.createdAt entry).
  { intros entry He. vm_compute in He. injection He as <-. vm_compute.
    discriminate. }
  assert (H2 : PdfHandler.resolveFilePath Fixtures.cfg "report.pdf"
               = Some "/srv/nodebb/public/uploads/files/report.pdf")
    by (vm_compute; reflexivity).
  assert (H3 : PdfHandler.disk Fixtures.cachedState !!
                 JS.resolve (PdfHandler.cwd Fixtures.cfg)
                   ["/srv/nodebb/public/uploads/files/report.pdf"]
               = Some (PdfHandler.RegularFile Fixtures.reportBytes))
    by (vm_compute; reflexivity).
  assert (H4 : Fixtures.firstPageOf (map JS.toUint8 Fixtures.reportBytes)
               = JS.Return [37; 80; 68; 70; 45; 11])
    by (vm_compute; reflexivity).
  split; [exact H1|]. split; [exact H2|]. split; [exact H3|].
  split; [exact H4|].
  exact (getSinglePagePdf_derives_and_caches Fixtures.cfg Fixtures.firstPageOf
           Fixtures.cachedState "report.pdf" 3601000 3601001 _ _ _
           H1 H2 H3 H4).
Defined.


Lemma cleanup_then_getSinglePagePdf_witness :
  3700000 <= 3700001 /\ 3700000 <= 3700002 /\
  let '(swept, s1) :=
    PdfHandler.getSinglePagePdf Fixtures.cfg Fixtures.firstPageOf
      "report.pdf" 3700001 3700002
      (PdfHandler.cleanup 3700000 Fixtures.cachedState).2 in
  let '(unswept, s2) :=
    PdfHandler.getSinglePagePdf Fixtures.cfg Fixtures.firstPageOf
      "report.pdf" 3700001 3700002 Fixtures.cachedState in
  swept = unswept /\ s1 = (PdfHandler.cleanup 3700000 s2).2.
Proof.
  assert (H1 : 3700000 <= 3700001) by lia.
  assert (H2 : 3700000 <= 3700002) by lia.
  split; [exact H1|]. split; [exact H2|].
  exact (cleanup_then_getSinglePagePdf Fixtures.cfg Fixtures.firstPageOf
           Fixtures.cachedState "report.pdf" 3700000 3700001 3700002 H1 H2).
Defined.

(* ===================================================================== *)
(** * The byte codec: the empty key, the wrong key and the decoder *)
(* ===================================================================== *)

Section CodecEdges.
Import JS Codec.

Lemma bytesOf_encoded h buffer key out :
  partialXorEncode buffer key h = (length h, h ++ [out]) ->
  bytesOf (partialXorEncode buffer key h).2 (partialXorEncode buffer key h).1
    = out.
Proof.
  intros ->. cbn [fst snd]. unfold bytesOf. by rewrite list_lookup_middle.
Qed.

(** With the empty key every key read is [undefined], and [b ^ undefined]
    is [b]. *)
Lemma xorByte_no_key i b : is_byte b -> xorByte [] i b = b.
Proof.
  intros Hb. unfold xorByte, keyAt, xor. rewrite lookup_nil.
  rewrite (toInt32_byte _ Hb). cbn [toInt32]. rewrite Z.lxor_0_r.
  unfold toUint8, is_byte in *. by apply Z.mod_small.
Qed.

(** X12.  With an empty key the codec changes nothing: the buffer it
    returns holds the bytes of its input. *)
Theorem partialXorEncode_empty_key (h : heap) (buffer : loc) :
  is_bytes (bytesOf h buffer) ->
  bytesOf (partialXorEncode buffer [] h).2 (partialXorEncode buffer [] h).1
    = bytesOf h buffer.
Proof.
  intros Hbytes.
  destruct (partialXorEncode_spec h buffer []) as (out & Hrun & Hlen & Hout).
  rewrite (bytesOf_encoded h buffer [] out Hrun).
  apply list_eq. intros j. rewrite Hout.
  destruct (bytesOf h buffer !! j) as [b|] eqn:Hb; [|by case_decide].
  case_decide; [|done]. cbn. f_equal. apply xorByte_no_key.
  exact (Forall_lookup_1 _ _ _ _ Hbytes Hb).
Qed.

(** X13.  Decoding with another key does not give the document back: at
    every offset the codec touches where the two keys differ, the decoded
    byte differs from the original one.  The offsets the codec does not
    touch read as the original whatever the key. *)
Theorem partialXorDecode_wrong_key (h client : heap) buffer received
    (key key' bytes : list Z) (i : nat) (b k k' : Z) :
  h !! buffer = Some bytes -> is_bytes bytes ->
  is_bytes key -> is_bytes key' ->
  client !! received
    = Some (bytesOf (partialXorEncode buffer key h).2
                    (partialXorEncode buffer key h).1) ->
  bytes !! i = Some b -> covered i ->
  keyAt key i = Some k -> keyAt key' i = Some k' -> k <> k' ->
  exists out,
    ViewerApp.partialXorDecode received (toBase64 key') client
      = Some (received, <[received := out]> client) /\
    length out = length bytes /\
    out !! i <> Some b /\
    forall j, ~ covered j -> out !! j = bytes !! j.
Proof.
  intros Hbuf Hbytes Hkey Hkey' Hrecv Hb Hcov Hk Hk' Hne.
  destruct (partialXorEncode_spec h buffer key) as (sent & Hrun & Hlen & Hsent).
  rewrite (bytesOf_encoded h buffer key sent Hrun) in Hrecv.
  assert (Hin : bytesOf h buffer = bytes) by (unfold bytesOf; by rewrite Hbuf).
  rewrite Hin in Hsent, Hlen.
  unfold ViewerApp.partialXorDecode. rewrite (toBase64_roundtrip key' Hkey').
  destruct (xorLoops_spec received key' sent client Hrecv)
    as (out & Hloops & Hlen' & Hout).
  cbv zeta in Hloops. rewrite Hloops. exists out.
  split; [done|]. split; [congruence|]. split.
  - rewrite Hout, Hsent, Hb. rewrite !decide_True by done. cbn.
    assert (is_byte b) as Hbyte by exact (Forall_lookup_1 _ _ _ _ Hbytes Hb).
    assert (is_byte k) as Hkb.
    { unfold keyAt in Hk. exact (Forall_lookup_1 _ _ _ _ Hkey Hk). }
    assert (is_byte k') as Hkb'.
    { unfold keyAt in Hk'. exact (Forall_lookup_1 _ _ _ _ Hkey' Hk'). }
    rewrite (xorByte_lxor key' i _ k' (xorByte_is_byte key i b) Hkb' Hk').
    rewrite (xorByte_lxor key i b k Hbyte Hkb Hk).
    intros [= Heq]. apply Hne.
    rewrite Z.lxor_assoc in Heq.
    apply Z.lxor_eq.
    rewrite <- (Z.lxor_0_l (Z.lxor k k')), <- (Z.lxor_nilpotent b).
    by rewrite Z.lxor_assoc, Heq, Z.lxor_nilpotent.
  - intros j Hj. rewrite Hout, Hsent. by rewrite !decide_False by done.
Qed.


End CodecEdges.

Lemma partialXorEncode_empty_key_witness :
  JS.is_bytes (JS.bytesOf [[37; 80; 68; 70; 45]] 0%nat) /\
  JS.bytesOf (Codec.partialXorEncode 0%nat [] [[37; 80; 68; 70; 45]]).2
             (Codec.partialXorEncode 0%nat [] [[37; 80; 68; 70; 45]]).1
    = JS.bytesOf [[37; 80; 68; 70; 45]] 0%nat.
Proof.
  assert (H : JS.is_bytes (JS.bytesOf [[37; 80; 68; 70; 45]] 0%nat))
    by (unfold JS.is_bytes, JS.is_byte; simpl; repeat constructor; lia).
  split; [exact H|].
  exact (partialXorEncode_empty_key [[37; 80; 68; 70; 45]] 0%nat H).
Defined.

Lemma partialXorDecode_wrong_key_witness :
  [[37; 80; 68; 70; 45]] !! 0%nat = Some [37; 80; 68; 70; 45] /\
  JS.is_bytes [37; 80; 68; 70; 45] /\
  JS.is_bytes [165; 90] /\ JS.is_bytes [165; 91] /\
  [[128; 10; 225; 28; 136]] !! 0%nat
    = Some (JS.bytesOf
              (Codec.partialXorEncode 0%nat [165; 90] [[37; 80; 68; 70; 45]]).2
              (Codec.partialXorEncode 0%nat [165; 90] [[37; 80; 68; 70; 45]]).1) /\
  [37; 80; 68; 70; 45] !! 1%nat = Some 80 /\ covered 1 /\
  JS.keyAt [165; 90] 1 = Some 90 /\ JS.keyAt [165; 91] 1 = Some 91 /\
  90 <> 91 /\
  exists out,
    ViewerApp.partialXorDecode 0%nat (JS.toBase64 [165; 91])
        [[128; 10; 225; 28; 136]]
      = Some (0%nat, <[0%nat := out]> [[128; 10; 225; 28; 136]]) /\
    length out = length [37; 80; 68; 70; 45] /\
    out !! 1%nat <> Some 80 /\
    forall j, ~ covered j -> out !! j = [37; 80; 68; 70; 45] !! j.
Proof.
  assert (H1 : [[37; 80; 68; 70; 45]] !! 0%nat = Some [37; 80; 68; 70; 45])
    by reflexivity.
  assert (H2 : JS.is_bytes [37; 80; 68; 70; 45])
    by (unfold JS.is_bytes, JS.is_byte; repeat constructor; lia).
  assert (H3 : JS.is_bytes [165; 90])
    by (unfold JS.is_bytes, JS.is_byte; repeat constructor; lia).
  assert (H4 : JS.is_bytes [165; 91])
    by (unfold JS.is_bytes, JS.is_byte; repeat constructor; lia).
  assert (H5 : [[128; 10; 225; 28; 136]] !! 0%nat
    = Some (JS.bytesOf
              (Codec.partialXorEncode 0%nat [165; 90] [[37; 80; 68; 70; 45]]).2
              (Codec.partialXorEncode 0%nat [165; 90] [[37; 80; 68; 70; 45]]).1))
    by (vm_compute; reflexivity).
  assert (H6 : [37; 80; 68; 70; 45] !! 1%nat = Some 80) by reflexivity.
  assert (H7 : covered 1) by (left; unfold Codec.tenKiB; lia).
  assert (H8 : JS.keyAt [165; 90] 1 = Some 90) by reflexivity.
  assert (H9 : JS.keyAt [165; 91] 1 = Some 91) by reflexivity.
  assert (H10 : 90 <> 91) by discriminate.
  split; [exact H1|]. split; [exact H2|]. split; [exact H3|].
  split; [exact H4|]. split; [exact H5|]. split; [exact H6|].
  split; [exact H7|]. split; [exact H8|]. split; [exact H9|].
  split; [exact H10|].
  exact (partialXorDecode_wrong_key _ _ _ _ _ _ _ _ _ _ _
           H1 H2 H3 H4 H5 H6 H7 H8 H9 H10).
Defined.


(* ===================================================================== *)
(** * The gateway: every answer of [servePdfBinary] *)
(* ===================================================================== *)

Section GatewayOutcomes.
Import JS Controllers.

Variable cfg : PdfHandler.Config.
Variable firstPageOf : list Z -> Completion (list Z).

Lemma servePdfBinary_missing w req clock :
  query_nonce req = None \/ query_nonce req = Some "" ->
  servePdfBinary cfg firstPageOf req clock w
    = (jsonError 400 "Missing nonce", w).
Proof. unfold servePdfBinary. by intros [-> | ->]. Qed.

Lemma servePdfBinary_refused w req clock nonce store' :
  query_nonce req = Some nonce ->
  falsy nonce = false ->
  NonceStore.validate nonce (uidOrGuest req) (atValidate clock) (nonces w)
    = (None, store') ->
  servePdfBinary cfg firstPageOf req clock w
    = (jsonError 403 "Invalid or expired nonce",
       {| nonces := store'; pdf := pdf w |}).
Proof.
  intros Hq Hf Hv. unfold servePdfBinary. rewrite Hq, Hf.
  unfold inNonceStore, inPdfHandler. unfold_js. by rewrite Hv.
Qed.

(** Past [validate] the answer is 200, 404 or 500. *)
Lemma servePdfBinary_answer_validated w req clock nonce data store' :
  query_nonce req = Some nonce ->
  falsy nonce = false ->
  NonceStore.validate nonce (uidOrGuest req) (atValidate clock) (nonces w)
    = (Some data, store') ->
  (exists enc,
     (servePdfBinary cfg firstPageOf req clock w).1
       = {| status := 200; headers := binaryHeaders; body := Binary enc |}) \/
  (servePdfBinary cfg firstPageOf req clock w).1
    = jsonError 404 "PDF not found" \/
  (servePdfBinary cfg firstPageOf req clock w).1
    = jsonError 500 "Internal error".
Proof.
  intros Hq Hf Hv.
  rewrite (servePdfBinary_validated cfg firstPageOf w req clock nonce data
             store' Hq Hf Hv).
  destruct (fetchPdf _ _ _ _ _) as [[b|msg] p1].
  - destruct (partialXorEncode b (NonceStore.xorKey data) p1) as [enc p2].
    left. by exists enc.
  - case_decide; auto.
Qed.

(** X15.  The gateway answers 400 exactly when the request has no nonce
    or an empty one, and 403 exactly when [validate] rejects the nonce it
    has.  A request answered 400 changes nothing at all; a request
    answered 403 leaves the document store (buffers, cache, log of file
    reads) untouched: no file is resolved or read for a token that does not
    validate. *)
Theorem servePdfBinary_refusals w req clock :
  let '(res, w') := servePdfBinary cfg firstPageOf req clock w in
  (status res = 400 <-> query_nonce req = None \/ query_nonce req = Some "") /\
  (status res = 403 <->
     exists nonce, query_nonce req = Some nonce /\ nonce <> "" /\
       (NonceStore.validate nonce (uidOrGuest req) (atValidate clock)
          (nonces w)).1 = None) /\
  (status res = 400 -> w' = w) /\
  (status res = 403 -> pdf w' = pdf w).
Proof.
  destruct (query_nonce req) as [nonce|] eqn:Hq.
  2:{ rewrite servePdfBinary_missing by auto. cbn [status jsonError].
      repeat split; try done; auto. by intros (? & ? & _). }
  destruct (falsy nonce) eqn:Hf.
  { apply bool_decide_eq_true in Hf. subst nonce.
    rewrite servePdfBinary_missing by auto. cbn [status jsonError].
    repeat split; try done; auto. by intros (? & ? & ? & _); simplify_eq. }
  assert (nonce <> "") as Hne by (by apply bool_decide_eq_false in Hf).
  destruct (NonceStore.validate nonce (uidOrGuest req) (atValidate clock)
              (nonces w)) as [[data|] store'] eqn:Hv.
  - pose proof (servePdfBinary_answer_validated w req clock nonce data store'
                  Hq Hf Hv) as Hst.
    destruct (servePdfBinary cfg firstPageOf req clock w) as [res w'].
    cbn [fst] in Hst.
    assert (status res = 200 \/ status res = 404 \/ status res = 500) as Hcode
      by (destruct Hst as [[enc ->]|[->| ->]]; cbn; auto).
    repeat split; try (intros ?; lia).
    + intros [?|?]; simplify_eq.
    + intros (n & ? & ? & Hn); simplify_eq. by rewrite Hv in Hn.
  - rewrite (servePdfBinary_refused w req clock nonce store' Hq Hf Hv).
    cbn [status jsonError pdf].
    repeat split; try done.
    + intros [?|?]; simplify_eq.
    + intros _. exists nonce. by rewrite Hv.
Qed.

(** X16.  A request that presents a nonce uses it up, whatever the answer:
    be it 200, 403, 404 or 500, the token store afterwards is the store
    before without that nonce, and no other token is touched. *)
Theorem servePdfBinary_consumes_nonce w req clock nonce :
  query_nonce req = Some nonce -> nonce <> "" ->
  nonces (servePdfBinary cfg firstPageOf req clock w).2
    = delete nonce (nonces w).
Proof.
  intros Hq Hne. assert (falsy nonce = false) as Hf by (by apply falsy_false).
  pose proof (validate_store (nonces w) nonce (uidOrGuest req)
                (atValidate clock)) as Hdel.
  destruct (NonceStore.validate nonce (uidOrGuest req) (atValidate clock)
              (nonces w)) as [[data|] store'] eqn:Hv; cbn [snd] in Hdel.
  - rewrite (servePdfBinary_validated cfg firstPageOf w req clock nonce data
               store' Hq Hf Hv).
    destruct (fetchPdf _ _ _ _ _) as [[b|msg] p1].
    + by destruct (partialXorEncode b (NonceStore.xorKey data) p1).
    + done.
  - by rewrite (servePdfBinary_refused w req clock nonce store' Hq Hf Hv).
Qed.

(** X17.  The gateway has five answers and no other: 200 with the binary
    headers and a buffer, or a JSON error that is one of four fixed pairs
    of status and text.  Whatever the filesystem or [pdf-lib] threw, none
    of its message reaches the client. *)
Theorem servePdfBinary_fixed_answers w req clock :
  let res := (servePdfBinary cfg firstPageOf req clock w).1 in
  (exists enc, res = {| status := 200; headers := binaryHeaders;
                        body := Binary enc |}) \/
  res = jsonError 400 "Missing nonce" \/
  res = jsonError 403 "Invalid or expired nonce" \/
  res = jsonError 404 "PDF not found" \/
  res = jsonError 500 "Internal error".
Proof.
  cbv zeta.
  destruct (query_nonce req) as [nonce|] eqn:Hq.
  2:{ rewrite servePdfBinary_missing by auto. auto. }
  destruct (falsy nonce) eqn:Hf.
  { apply bool_decide_eq_true in Hf. subst nonce.
    rewrite servePdfBinary_missing by auto. auto. }
  destruct (NonceStore.validate nonce (uidOrGuest req) (atValidate clock)
              (nonces w)) as [[data|] store'] eqn:Hv.
  - destruct (servePdfBinary_answer_validated w req clock nonce data store'
                Hq Hf Hv) as [?|[?|?]]; auto.
  - rewrite (servePdfBinary_refused w req clock nonce store' Hq Hf Hv). auto.
Qed.

(** The gateway on a valid full-entitlement token for a file that is
    there. *)
Lemma servePdfBinary_full w req clock nonce data p content :
  query_nonce req = Some nonce -> nonce <> "" ->
  nonces w !! nonce = Some data ->
  NonceStore.uid data = uidOrGuest req ->
  atValidate clock - NonceStore.createdAt data <= NonceStore.NONCE_TTL ->
  NonceStore.isPremium data = true ->
  PdfHandler.resolveFilePath cfg (NonceStore.file data) = Some p ->
  PdfHandler.disk (pdf w) !! resolve (PdfHandler.cwd cfg) [p]
    = Some (PdfHandler.RegularFile content) ->
  servePdfBinary cfg firstPageOf req clock w =
    let '(enc, h2) :=
      Codec.partialXorEncode (length (PdfHandler.heap (pdf w)))
        (NonceStore.xorKey data)
        (PdfHandler.heap (pdf w) ++ [map toUint8 content]) in
    ({| status := 200; headers := binaryHeaders; body := Binary enc |},
     {| nonces := delete nonce (nonces w);
        pdf := {| PdfHandler.heap := h2;
                  PdfHandler.singlePageCache := PdfHandler.singlePageCache (pdf w);
                  PdfHandler.disk := PdfHandler.disk (pdf w);
                  PdfHandler.calls :=
                    PdfHandler.ReadFile p :: PdfHandler.calls (pdf w) |} |}).
Proof.
  intros Hq Hne Hs Hu Hage Hprem Hr Hd.
  assert (falsy nonce = false) as Hf by (by apply falsy_false).
  pose proof (validate_accepts (nonces w) nonce (uidOrGuest req)
                (atValidate clock) data Hs Hu Hage) as Hv.
  rewrite (servePdfBinary_validated cfg firstPageOf w req clock nonce data _
             Hq Hf Hv).
  unfold fetchPdf. rewrite Hprem.
  rewrite (getFullPdf_found cfg (pdf w) _ p content Hr Hd).
  unfold partialXorEncode. cbn [PdfHandler.heap].
  by destruct (Codec.partialXorEncode _ _ _) as [enc h2].
Qed.

(** What the browser makes of the encoded copy of a buffer that was just
    read. *)
Lemma decode_of_encode (h : heap) (content key : list Z) :
  is_bytes key ->
  forall (client : heap) received,
    client !! received
      = Some (bytesOf
                (Codec.partialXorEncode (length h) key
                   (h ++ [map toUint8 content])).2
                (Codec.partialXorEncode (length h) key
                   (h ++ [map toUint8 content])).1) ->
    ViewerApp.partialXorDecode received (toBase64 key) client
      = Some (received, <[received := map toUint8 content]> client).
Proof.
  intros Hkey client received.
  apply partialXorDecode_restores; [|apply map_toUint8_bytes|done].
  by apply list_lookup_middle.
Qed.

(** X18.  A request with a stored full-entitlement token, presented by
    the user it was issued to within 30 000 ms, for a file that exists, is
    answered 200 with the binary headers.  The file is read once, the
    cache is not touched, the token is used up, and a page that runs
    [partialXorDecode] on the bytes of the response with the base64 text
    of the token's key holds the bytes of the file. *)
Theorem servePdfBinary_full_document w req clock nonce data p content :
  query_nonce req = Some nonce -> nonce <> "" ->
  nonces w !! nonce = Some data ->
  NonceStore.uid data = uidOrGuest req ->
  atValidate clock - NonceStore.createdAt data <= NonceStore.NONCE_TTL ->
  NonceStore.isPremium data = true ->
  is_bytes (NonceStore.xorKey data) ->
  PdfHandler.resolveFilePath cfg (NonceStore.file data) = Some p ->
  PdfHandler.disk (pdf w) !! resolve (PdfHandler.cwd cfg) [p]
    = Some (PdfHandler.RegularFile content) ->
  let '(res, w') := servePdfBinary cfg firstPageOf req clock w in
  exists enc,
    res = {| status := 200; headers := binaryHeaders; body := Binary enc |} /\
    nonces w' = delete nonce (nonces w) /\
    PdfHandler.singlePageCache (pdf w') = PdfHandler.singlePageCache (pdf w) /\
    PdfHandler.calls (pdf w') = PdfHandler.ReadFile p :: PdfHandler.calls (pdf w) /\
    forall (client : heap) received,
      client !! received = Some (bytesOf (PdfHandler.heap (pdf w')) enc) ->
      ViewerApp.partialXorDecode received
          (toBase64 (NonceStore.xorKey data)) client
        = Some (received, <[received := map toUint8 content]> client).
Proof.
  intros Hq Hne Hs Hu Hage Hprem Hkey Hr Hd.
  rewrite (servePdfBinary_full w req clock nonce data p content
             Hq Hne Hs Hu Hage Hprem Hr Hd).
  pose proof (decode_of_encode (PdfHandler.heap (pdf w)) content
                (NonceStore.xorKey data) Hkey) as Hdec.
  destruct (Codec.partialXorEncode _ _ _) as [enc h2].
  exists enc. done.
Qed.

(** X19.  A valid token for an accepted name with nothing at the resolved
    path is answered 404 with [{ error: 'PDF not found' }], on either
    branch (on the first-page branch when the cache has no fresh entry for
    the file).  The document store is unchanged, and the token is gone. *)
Theorem servePdfBinary_missing_file w req clock nonce data p :
  query_nonce req = Some nonce -> nonce <> "" ->
  nonces w !! nonce = Some data ->
  NonceStore.uid data = uidOrGuest req ->
  atValidate clock - NonceStore.createdAt data <= NonceStore.NONCE_TTL ->
  (forall entry,
     PdfHandler.singlePageCache (pdf w) !! NonceStore.file data = Some entry ->
     PdfHandler.CACHE_TTL <= atCacheTest clock - PdfHandler.createdAt entry) ->
  PdfHandler.resolveFilePath cfg (NonceStore.file data) = Some p ->
  PdfHandler.disk (pdf w) !! resolve (PdfHandler.cwd cfg) [p] = None ->
  servePdfBinary cfg firstPageOf req clock w
    = (jsonError 404 "PDF not found",
       {| nonces := delete nonce (nonces w); pdf := pdf w |}).
Proof.
  intros Hq Hne Hs Hu Hage Hstale Hr Hd.
  assert (falsy nonce = false) as Hf by (by apply falsy_false).
  pose proof (validate_accepts (nonces w) nonce (uidOrGuest req)
                (atValidate clock) data Hs Hu Hage) as Hv.
  rewrite (servePdfBinary_validated cfg firstPageOf w req clock nonce data _
             Hq Hf Hv).
  unfold fetchPdf. destruct (NonceStore.isPremium data).
  - by rewrite (getFullPdf_not_found cfg (pdf w) _ p Hr Hd).
  - rewrite (getSinglePagePdf_stale cfg firstPageOf (pdf w) _ _ _ Hstale).
    by rewrite Hr, Hd.
Qed.

(** X20.  Two first-page requests for the same file, the second within
    the hour of the first, with different tokens and keys: the first reads
    the file and runs [pdf-lib], the second does neither, and each gets a
    buffer of its own that decodes, with the key of its own token, to the
    same derived bytes.  Encoding the cached buffer for the first request
    did not disturb what the second one is served. *)
Theorem servePdfBinary_first_page_shared w req1 clock1 req2 clock2
    nonce1 nonce2 data1 data2 store1 store2 p content page :
  query_nonce req1 = Some nonce1 -> falsy nonce1 = false ->
  query_nonce req2 = Some nonce2 -> falsy nonce2 = false ->
  NonceStore.validate nonce1 (uidOrGuest req1) (atValidate clock1) (nonces w)
    = (Some data1, store1) ->
  NonceStore.validate nonce2 (uidOrGuest req2) (atValidate clock2) store1
    = (Some data2, store2) ->
  NonceStore.isPremium data1 = false ->
  NonceStore.isPremium data2 = false ->
  NonceStore.file data2 = NonceStore.file data1 ->
  is_bytes (NonceStore.xorKey data1) ->
  is_bytes (NonceStore.xorKey data2) ->
  (forall entry,
     PdfHandler.singlePageCache (pdf w) !! NonceStore.file data1 = Some entry ->
     PdfHandler.CACHE_TTL <= atCacheTest clock1 - PdfHandler.createdAt entry) ->
  PdfHandler.resolveFilePath cfg (NonceStore.file data1) = Some p ->
  PdfHandler.disk (pdf w) !! resolve (PdfHandler.cwd cfg) [p]
    = Some (PdfHandler.RegularFile content) ->
  firstPageOf (map toUint8 content) = Return page ->
  atCacheTest clock2 - atCacheStore clock1 < PdfHandler.CACHE_TTL ->
  let '(res1, w1) := servePdfBinary cfg firstPageOf req1 clock1 w in
  let '(res2, w2) := servePdfBinary cfg firstPageOf req2 clock2 w1 in
  exists enc1 enc2,
    res1 = {| status := 200; headers := binaryHeaders; body := Binary enc1 |} /\
    res2 = {| status := 200; headers := binaryHeaders; body := Binary enc2 |} /\
    enc1 <> enc2 /\
    PdfHandler.calls (pdf w1)
      = PdfHandler.PdfLoad (map toUint8 content)
          :: PdfHandler.ReadFile p :: PdfHandler.calls (pdf w) /\
    PdfHandler.calls (pdf w2) = PdfHandler.calls (pdf w1) /\
    forall (client : heap) received,
      (client !! received = Some (bytesOf (PdfHandler.heap (pdf w2)) enc1) ->
       ViewerApp.partialXorDecode received
           (toBase64 (NonceStore.xorKey data1)) client
         = Some (received, <[received := map toUint8 page]> client)) /\
      (client !! received = Some (bytesOf (PdfHandler.heap (pdf w2)) enc2) ->
       ViewerApp.partialXorDecode received
           (toBase64 (NonceStore.xorKey data2)) client
         = Some (received, <[received := map toUint8 page]> client)).
Proof.
  intros Hq1 Hf1 Hq2 Hf2 Hv1 Hv2 Hp1 Hp2 Hfile Hk1 Hk2 Hstale Hr Hd Hpage Hwin.
  rewrite (servePdfBinary_validated cfg firstPageOf w req1 clock1 nonce1 data1 _
             Hq1 Hf1 Hv1).
  unfold fetchPdf at 1. rewrite Hp1.
  rewrite (getSinglePagePdf_stale cfg firstPageOf (pdf w) _ _ _ Hstale).
  rewrite Hr, Hd, Hpage.
  set (h := PdfHandler.heap (pdf w)).
  set (h1 := h ++ [map toUint8 content; map toUint8 page]).
  set (b := S (length h)).
  assert (h1 !! b = Some (map toUint8 page)) as Hb.
  { unfold h1, b. rewrite (cons_middle _ h), app_assoc.
    rewrite list_lookup_middle; [done|]. rewrite length_app. cbn. lia. }
  unfold partialXorEncode at 1. cbn [PdfHandler.heap].
  fold h1.
  destruct (partialXorEncode_spec h1 b (NonceStore.xorKey data1))
    as (out1 & Henc1 & Hlen1 & Hout1).
  pose proof (partialXorDecode_restores h1) as Hdec1.
  specialize (fun client received =>
    Hdec1 client b received (NonceStore.xorKey data1) (map toUint8 page)
      Hb (map_toUint8_bytes _) Hk1).
  rewrite Henc1 in Hdec1 |- *. cbn [fst snd] in Hdec1.
  unfold PdfHandler.withHeap at 1.
  cbn [PdfHandler.heap PdfHandler.singlePageCache PdfHandler.disk PdfHandler.calls].
  set (p2 := {| PdfHandler.heap := h1 ++ [out1] |}).
  assert (Hv2' : NonceStore.validate nonce2 (uidOrGuest req2) (atValidate clock2)
            (nonces {| nonces := store1; pdf := p2 |}) = (Some data2, store2))
    by exact Hv2.
  rewrite (servePdfBinary_validated cfg firstPageOf _ req2 clock2 nonce2 data2 _
             Hq2 Hf2 Hv2').
  unfold fetchPdf. rewrite Hp2, Hfile. cbn [pdf].
  rewrite (getSinglePagePdf_hit cfg firstPageOf p2 _ _ _
             {| PdfHandler.buffer := b; PdfHandler.createdAt := atCacheStore clock1 |});
    [|apply lookup_insert_eq|exact Hwin].
  cbn [PdfHandler.buffer].
  unfold partialXorEncode. cbn [PdfHandler.heap p2].
  assert ((h1 ++ [out1]) !! b = Some (map toUint8 page)) as Hb2.
  { rewrite lookup_app_l; [done|]. by apply lookup_lt_is_Some. }
  destruct (partialXorEncode_spec (h1 ++ [out1]) b (NonceStore.xorKey data2))
    as (out2 & Henc2 & Hlen2 & Hout2).
  pose proof (partialXorDecode_restores (h1 ++ [out1])) as Hdec2.
  specialize (fun client received =>
    Hdec2 client b received (NonceStore.xorKey data2) (map toUint8 page)
      Hb2 (map_toUint8_bytes _) Hk2).
  rewrite Henc2 in Hdec2 |- *. cbn [fst snd] in Hdec2.
  exists (length h1), (length (h1 ++ [out1])).
  split; [done|]. split; [done|].
  split; [rewrite length_app; cbn; lia|].
  split; [done|]. split; [done|].
  intros client received.
  cbn [pdf PdfHandler.heap PdfHandler.withHeap].
  unfold PdfHandler.withHeap. cbn [PdfHandler.heap].
  split; intros Hrecv.
  - apply Hdec1. rewrite Hrecv. f_equal. unfold bytesOf.
    by rewrite (lookup_app_l (h1 ++ [out1]) [out2])
      by (rewrite length_app; cbn; lia).
  - apply Hdec2. exact Hrecv.
Qed.

End GatewayOutcomes.

Lemma servePdfBinary_consumes_nonce_witness :
  Controllers.query_nonce (Fixtures.dataOf "n-1" 7) = Some "n-1" /\
  "n-1" <> "" /\
  Controllers.nonces
    (Controllers.servePdfBinary Fixtures.cfg Fixtures.firstPageOf
       (Fixtures.dataOf "n-1" 7) (Fixtures.at_ 2000)
       (Fixtures.afterViewer "report.pdf")).2
    = delete "n-1" (Controllers.nonces (Fixtures.afterViewer "report.pdf")).
Proof.
  assert (H1 : Controllers.query_nonce (Fixtures.dataOf "n-1" 7) = Some "n-1")
    by reflexivity.
  assert (H2 : "n-1" <> "") by discriminate.
  split; [exact H1|]. split; [exact H2|].
  exact (servePdfBinary_consumes_nonce Fixtures.cfg Fixtures.firstPageOf
           (Fixtures.afterViewer "report.pdf") (Fixtures.dataOf "n-1" 7)
           (Fixtures.at_ 2000) "n-1" H1 H2).
Defined.

Lemma servePdfBinary_full_document_witness :
  Controllers.query_nonce (Fixtures.dataOf "n-1" 42) = Some "n-1" /\
  "n-1" <> "" /\
  Controllers.nonces (Fixtures.afterViewer "report.pdf") !! "n-1"
    = Some (Fixtures.token "report.pdf" true Fixtures.key) /\
  NonceStore.uid (Fixtures.token "report.pdf" true Fixtures.key)
    = Controllers.uidOrGuest (Fixtures.dataOf "n-1" 42) /\
  Controllers.atValidate (Fixtures.at_ 2000)
    - NonceStore.createdAt (Fixtures.token "report.pdf" true Fixtures.key)
    <= NonceStore.NONCE_TTL /\
  NonceStore.isPremium (Fixtures.token "report.pdf" true Fixtures.key) = true /\
  JS.is_bytes (NonceStore.xorKey (Fixtures.token "report.pdf" true Fixtures.key)) /\
  PdfHandler.resolveFilePath Fixtures.cfg
      (NonceStore.file (Fixtures.token "report.pdf" true Fixtures.key))
    = Some "/srv/nodebb/public/uploads/files/report.pdf" /\
  PdfHandler.disk (Controllers.pdf (Fixtures.afterViewer "report.pdf")) !!
      JS.resolve (PdfHandler.cwd Fixtures.cfg)
        ["/srv/nodebb/public/uploads/files/report.pdf"]
    = Some (PdfHandler.RegularFile Fixtures.reportBytes) /\
  let '(res, w') :=
    Controllers.servePdfBinary Fixtures.cfg Fixtures.firstPageOf
      (Fixtures.dataOf "n-1" 42) (Fixtures.at_ 2000)
      (Fixtures.afterViewer "report.pdf") in
  exists enc,
    res = {| Controllers.status := 200;
             Controllers.headers := Controllers.binaryHeaders;
             Controllers.body := Controllers.Binary enc |} /\
    Controllers.nonces w'
      = delete "n-1" (Controllers.nonces (Fixtures.afterViewer "report.pdf")) /\
    PdfHandler.singlePageCache (Controllers.pdf w')
      = PdfHandler.singlePageCache
          (Controllers.pdf (Fixtures.afterViewer "report.pdf")) /\
    PdfHandler.calls (Controllers.pdf w')
      = PdfHandler.ReadFile "/srv/nodebb/public/uploads/files/report.pdf"
          :: PdfHandler.calls
               (Controllers.pdf (Fixtures.afterViewer "report.pdf")) /\
    forall (client : list (list Z)) received,
      client !! received
        = Some (JS.bytesOf (PdfHandler.heap (Controllers.pdf w')) enc) ->
      ViewerApp.partialXorDecode received
          (JS.toBase64
             (NonceStore.xorKey (Fixtures.token "report.pdf" true Fixtures.key)))
          client
        = Some (received,
                <[received := map JS.toUint8 Fixtures.reportBytes]> client).
Proof.
  assert (H1 : Controllers.query_nonce (Fixtures.dataOf "n-1" 42) = Some "n-1")
    by reflexivity.
  assert (H2 : "n-1" <> "") by discriminate.
  assert (H3 : Controllers.nonces (Fixtures.afterViewer "report.pdf") !! "n-1"
               = Some (Fixtures.token "report.pdf" true Fixtures.key))
    by (vm_compute; reflexivity).
  assert (H4 : NonceStore.uid (Fixtures.token "report.pdf" true Fixtures.key)
               = Controllers.uidOrGuest (Fixtures.dataOf "n-1" 42))
    by reflexivity.
  assert (H5 : Controllers.atValidate (Fixtures.at_ 2000)
                 - NonceStore.createdAt
                     (Fixtures.token "report.pdf" true Fixtures.key)
               <= NonceStore.NONCE_TTL)
    by (vm_compute; discriminate).
  assert (H6 : NonceStore.isPremium
                 (Fixtures.token "report.pdf" true Fixtures.key) = true)
    by reflexivity.
  assert (H7 : JS.is_bytes
                 (NonceStore.xorKey
                    (Fixtures.token "report.pdf" true Fixtures.key)))
    by (unfold JS.is_bytes, JS.is_byte; simpl; repeat constructor; lia).
  assert (H8 : PdfHandler.resolveFilePath Fixtures.cfg
                 (NonceStore.file (Fixtures.token "report.pdf" true Fixtures.key))
               = Some "/srv/nodebb/public/uploads/files/report.pdf")
    by (vm_compute; reflexivity).
  assert (H9 : PdfHandler.disk
                 (Controllers.pdf (Fixtures.afterViewer "report.pdf")) !!
                 JS.resolve (PdfHandler.cwd Fixtures.cfg)
                   ["/srv/nodebb/public/uploads/files/report.pdf"]
               = Some (PdfHandler.RegularFile Fixtures.reportBytes))
    by (vm_compute; reflexivity).
  split; [exact H1|]. split; [exact H2|]. split; [exact H3|].
  split; [exact H4|]. split; [exact H5|]. split; [exact H6|].
  split; [exact H7|]. split; [exact H8|]. split; [exact H9|].
  exact (servePdfBinary_full_document Fixtures.cfg Fixtures.firstPageOf
           _ _ _ _ _ _ _ H1 H2 H3 H4 H5 H6 H7 H8 H9).
Defined.

Lemma servePdfBinary_missing_file_witness :
  Controllers.query_nonce (Fixtures.dataOf "n-1" 42) = Some "n-1" /\
  "n-1" <> "" /\
  Controllers.nonces (Fixtures.afterViewer "absent.pdf") !! "n-1"
    = Some (Fixtures.token "absent.pdf" true Fixtures.key) /\
  NonceStore.uid (Fixtures.token "absent.pdf" true Fixtures.key)
    = Controllers.uidOrGuest (Fixtures.dataOf "n-1" 42) /\
  Controllers.atValidate (Fixtures.at_ 2000)
    - NonceStore.createdAt (Fixtures.token "absent.pdf" true Fixtures.key)
    <= NonceStore.NONCE_TTL /\
  (forall entry,
     PdfHandler.singlePageCache
       (Controllers.pdf (Fixtures.afterViewer "absent.pdf"))
       !! NonceStore.file (Fixtures.token "absent.pdf" true Fixtures.key)
       = Some entry ->
     PdfHandler.CACHE_TTL
       <= Controllers.atCacheTest (Fixtures.at_ 2000)
            - PdfHandler.createdAt entry) /\
  PdfHandler.resolveFilePath Fixtures.cfg
      (NonceStore.file (Fixtures.token "absent.pdf" true Fixtures.key))
    = Some "/srv/nodebb/public/uploads/files/absent.pdf" /\
  PdfHandler.disk (Controllers.pdf (Fixtures.afterViewer "absent.pdf")) !!
      JS.resolve (PdfHandler.cwd Fixtures.cfg)
        ["/srv/nodebb/public/uploads/files/absent.pdf"]
    = None /\
  Controllers.servePdfBinary Fixtures.cfg Fixtures.firstPageOf
      (Fixtures.dataOf "n-1" 42) (Fixtures.at_ 2000)
      (Fixtures.afterViewer "absent.pdf")
    = (Controllers.jsonError 404 "PDF not found",
       {| Controllers.nonces :=
            delete "n-1" (Controllers.nonces (Fixtures.afterViewer "absent.pdf"));
          Controllers.pdf := Controllers.pdf (Fixtures.afterViewer "absent.pdf") |}).
Proof.
  assert (H1 : Controllers.query_nonce (Fixtures.dataOf "n-1" 42) = Some "n-1")
    by reflexivity.
  assert (H2 : "n-1" <> "") by discriminate.
  assert (H3 : Controllers.nonces (Fixtures.afterViewer "absent.pdf") !! "n-1"
               = Some (Fixtures.token "absent.pdf" true Fixtures.key))
    by (vm_compute; reflexivity).
  assert (H4 : NonceStore.uid (Fixtures.token "absent.pdf" true Fixtures.key)
               = Controllers.uidOrGuest (Fixtures.dataOf "n-1" 42))
    by reflexivity.
  assert (H5 : Controllers.atValidate (Fixtures.at_ 2000)
                 - NonceStore.createdAt
                     (Fixtures.token "absent.pdf" true Fixtures.key)
               <= NonceStore.NONCE_TTL)
    by (vm_compute; discriminate).
  assert (H6 : forall entry,
     PdfHandler.singlePageCache
       (Controllers.pdf (Fixtures.afterViewer "absent.pdf"))
       !! NonceStore.file (Fixtures.token "absent.pdf" true Fixtures.key)
       = Some entry ->
     PdfHandler.CACHE_TTL
       <= Controllers.atCacheTest (Fixtures.at_ 2000)
            - PdfHandler.createdAt entry)
    by (intros entry He; vm_compute in He; discriminate).
  assert (H7 : PdfHandler.resolveFilePath Fixtures.cfg
                 (NonceStore.file (Fixtures.token "absent.pdf" true Fixtures.key))
               = Some "/srv/nodebb/public/uploads/files/absent.pdf")
    by (vm_compute; reflexivity).
  assert (H8 : PdfHandler.disk
                 (Controllers.pdf (Fixtures.afterViewer "absent.pdf")) !!
                 JS.resolve (PdfHandler.cwd Fixtures.cfg)
                   ["/srv/nodebb/public/uploads/files/absent.pdf"]
               = None)
    by (vm_compute; reflexivity).
  split; [exact H1|]. split; [exact H2|]. split; [exact H3|].
  split; [exact H4|]. split; [exact H5|]. split; [exact H6|].
  split; [exact H7|]. split; [exact H8|].
  exact (servePdfBinary_missing_file Fixtures.cfg Fixtures.firstPageOf
           _ _ _ _ _ _ H1 H2 H3 H4 H5 H6 H7 H8).
Defined.

Lemma servePdfBinary_first_page_shared_witness :
  let '(res1, w1) :=
    Controllers.servePdfBinary Fixtures.cfg Fixtures.firstPageOf
      (Fixtures.dataOf "n-1" 42) (Fixtures.at_ 2000) Fixtures.restricted in
  let '(res2, w2) :=
    Controllers.servePdfBinary Fixtures.cfg Fixtures.firstPageOf
      (Fixtures.dataOf "n-2" 42) (Fixtures.at_ 3000) w1 in
  exists enc1 enc2,
    res1 = {| Controllers.status := 200;
              Controllers.headers := Controllers.binaryHeaders;
              Controllers.body := Controllers.Binary enc1 |} /\
    res2 = {| Controllers.status := 200;
              Controllers.headers := Controllers.binaryHeaders;
              Controllers.body := Controllers.Binary enc2 |} /\
    enc1 <> enc2 /\
    PdfHandler.calls (Controllers.pdf w1)
      = PdfHandler.PdfLoad (map JS.toUint8 Fixtures.reportBytes)
          :: PdfHandler.ReadFile "/srv/nodebb/public/uploads/files/report.pdf"
          :: PdfHandler.calls (Controllers.pdf Fixtures.restricted) /\
    PdfHandler.calls (Controllers.pdf w2) = PdfHandler.calls (Controllers.pdf w1) /\
    forall (client : list (list Z)) received,
      (client !! received
         = Some (JS.bytesOf (PdfHandler.heap (Controllers.pdf w2)) enc1) ->
       ViewerApp.partialXorDecode received
           (JS.toBase64
              (NonceStore.xorKey (Fixtures.token "report.pdf" false Fixtures.key)))
           client
         = Some (received,
                 <[received := map JS.toUint8 [37; 80; 68; 70; 45; 11]]> client)) /\
      (client !! received
         = Some (JS.bytesOf (PdfHandler.heap (Controllers.pdf w2)) enc2) ->
       ViewerApp.partialXorDecode received
           (JS.toBase64
              (NonceStore.xorKey (Fixtures.token "report.pdf" false Fixtures.key2)))
           client
         = Some (received,
                 <[received := map JS.toUint8 [37; 80; 68; 70; 45; 11]]> client)).
Proof.
  assert (H1 : Controllers.query_nonce (Fixtures.dataOf "n-1" 42) = Some "n-1")
    by reflexivity.
  assert (H2 : JS.falsy "n-1" = false) by reflexivity.
  assert (H3 : Controllers.query_nonce (Fixtures.dataOf "n-2" 42) = Some "n-2")
    by reflexivity.
  assert (H4 : JS.falsy "n-2" = false) by reflexivity.
  assert (H5 : NonceStore.validate "n-1"
                 (Controllers.uidOrGuest (Fixtures.dataOf "n-1" 42))
                 (Controllers.atValidate (Fixtures.at_ 2000))
                 (Controllers.nonces Fixtures.restricted)
               = (Some (Fixtures.token "report.pdf" false Fixtures.key),
                  {[ "n-2" := Fixtures.token "report.pdf" false Fixtures.key2 ]}))
    by (vm_compute; reflexivity).
  assert (H6 : NonceStore.validate "n-2"
                 (Controllers.uidOrGuest (Fixtures.dataOf "n-2" 42))
                 (Controllers.atValidate (Fixtures.at_ 3000))
                 {[ "n-2" := Fixtures.token "report.pdf" false Fixtures.key2 ]}
               = (Some (Fixtures.token "report.pdf" false Fixtures.key2), ∅))
    by (vm_compute; reflexivity).
  assert (H7 : JS.is_bytes
                 (NonceStore.xorKey
                    (Fixtures.token "report.pdf" false Fixtures.key)))
    by (unfold JS.is_bytes, JS.is_byte; simpl; repeat constructor; lia).
  assert (H8 : JS.is_bytes
                 (NonceStore.xorKey
                    (Fixtures.token "report.pdf" false Fixtures.key2)))
    by (unfold JS.is_bytes, JS.is_byte; simpl; repeat constructor; lia).
  assert (H9 : forall entry,
     PdfHandler.singlePageCache (Controllers.pdf Fixtures.restricted)
       !! NonceStore.file (Fixtures.token "report.pdf" false Fixtures.key)
       = Some entry ->
     PdfHandler.CACHE_TTL
       <= Controllers.atCacheTest (Fixtures.at_ 2000)
            - PdfHandler.createdAt entry)
    by (intros entry He; vm_compute in He; discriminate).
  assert (H10 : PdfHandler.resolveFilePath Fixtures.cfg
                  (NonceStore.file (Fixtures.token "report.pdf" false Fixtures.key))
                = Some "/srv/nodebb/public/uploads/files/report.pdf")
    by (vm_compute; reflexivity).
  assert (H11 : PdfHandler.disk (Controllers.pdf Fixtures.restricted) !!
                  JS.resolve (PdfHandler.cwd Fixtures.cfg)
                    ["/srv/nodebb/public/uploads/files/report.pdf"]
                = Some (PdfHandler.RegularFile Fixtures.reportBytes))
    by (vm_compute; reflexivity).
  assert (H12 : Fixtures.firstPageOf (map JS.toUint8 Fixtures.reportBytes)
                = JS.Return [37; 80; 68; 70; 45; 11])
    by (vm_compute; reflexivity).
  assert (H13 : Controllers.atCacheTest (Fixtures.at_ 3000)
                  - Controllers.atCacheStore (Fixtures.at_ 2000)
                < PdfHandler.CACHE_TTL)
    by (vm_compute; reflexivity).
  exact (servePdfBinary_first_page_shared Fixtures.cfg Fixtures.firstPageOf
           Fixtures.restricted _ _ _ _ _ _ _ _ _ _ _ _ _
           H1 H2 H3 H4 H5 H6 eq_refl eq_refl eq_refl H7 H8 H9 H10 H11 H12 H13).
Defined.

(* ===================================================================== *)
(** * The plugin entry point: the viewer route, the guards, the meta tags *)
(* ===================================================================== *)

Section ViewerRoute.
Import JS Controllers Plugin.

Implicit Types (store : gmap string NonceStore.NonceData).

Lemma endsWith_pdf_nonempty s :
  endsWith (toLowerCase s) ".pdf" = true -> s <> "".
Proof. by intros H ->. Qed.

(** The viewer route when every test passes. *)
Lemma viewer_issues viewerHtmlCache req nonce key now store file html :
  query_file req = Some file ->
  endsWith (toLowerCase (basename file)) ".pdf" = true ->
  viewerHtmlCache = Some html -> html <> "" ->
  viewer viewerHtmlCache req nonce key now store =
    ({| status := 200; headers := viewerHeaders;
        body := ViewerPage (basename file) nonce (toBase64 key) |},
     <[nonce := {| NonceStore.uid := uidOrGuest req;
                   NonceStore.file := basename file;
                   NonceStore.isPremium := true;
                   NonceStore.xorKey := key;
                   NonceStore.createdAt := now |}]> store).
Proof.
  intros Hq Hpdf -> Hhtml. unfold viewer. rewrite Hq.
  assert (file <> "") as Hfile by (by intros ->).
  rewrite (falsy_false file Hfile).
  rewrite (falsy_false _ (endsWith_pdf_nonempty _ Hpdf)), Hpdf.
  cbn [orb negb]. by rewrite (falsy_false html Hhtml).
Qed.

(** The viewer route when a test fails. *)
Lemma viewer_refuses viewerHtmlCache req nonce key now store :
  (forall file html,
     query_file req = Some file ->
     endsWith (toLowerCase (basename file)) ".pdf" = true ->
     viewerHtmlCache = Some html -> html = "") ->
  exists code text,
    viewer viewerHtmlCache req nonce key now store
      = (sendText code text, store) /\
    (code = 400 \/ code = 500).
Proof.
  intros Hno. unfold viewer.
  destruct (query_file req) as [file|]; [|eauto].
  destruct (falsy file); [eauto|].
  destruct (falsy (basename file)); cbn [orb]; [eauto|].
  destruct (endsWith _ _) eqn:Hpdf; cbn [negb]; [|eauto].
  destruct viewerHtmlCache as [html|]; [|eauto].
  rewrite (Hno file html eq_refl Hpdf eq_refl). cbn. eauto.
Qed.

(** The two lemmas cover every request. *)
Lemma viewer_cases viewerHtmlCache req :
  (exists file html,
     query_file req = Some file /\
     endsWith (toLowerCase (basename file)) ".pdf" = true /\
     viewerHtmlCache = Some html /\ html <> "") \/
  (forall file html,
     query_file req = Some file ->
     endsWith (toLowerCase (basename file)) ".pdf" = true ->
     viewerHtmlCache = Some html -> html = "").
Proof.
  destruct (query_file req) as [file|]; [|by right].
  destruct (endsWith (toLowerCase (basename file)) ".pdf") eqn:Hpdf.
  2:{ right. intros f h [= <-]. congruence. }
  destruct viewerHtmlCache as [html|]; [|by right].
  destruct (decide (html = "")) as [->|Hhtml].
  - right. by intros f h _ _ [= <-].
  - left. by exists file, html.
Qed.



Variable cfg : PdfHandler.Config.
Variable firstPageOf : list Z -> Completion (list Z).


End ViewerRoute.



Section Guards.
Import JS Controllers Plugin.

Lemma chars_toLowerCase s : chars (toLowerCase s) = map lowerChar (chars s).
Proof. unfold toLowerCase. apply chars_str. Qed.

Lemma toLowerCase_app s t :
  toLowerCase (s +:+ t) = toLowerCase s +:+ toLowerCase t.
Proof.
  apply chars_inj. by rewrite chars_app, !chars_toLowerCase, chars_app, map_app.
Qed.

Lemma startsWithChars_app p t : startsWithChars p (p ++ t) = true.
Proof.
  induction p as [|c p IH]; [done|]. cbn.
  by rewrite bool_decide_eq_true_2, IH.
Qed.

Lemma includesChars_app p a c : includesChars p (a ++ p ++ c) = true.
Proof.
  induction a as [|x a IH].
  - cbn [app]. destruct (p ++ c) eqn:Heq; cbn [includesChars];
      rewrite <- Heq, startsWithChars_app; done.
  - cbn [app includesChars]. rewrite IH. apply orb_true_r.
Qed.

Lemma includes_app a p c : includes (a +:+ p +:+ c) p = true.
Proof. unfold includes. rewrite !chars_app. apply includesChars_app. Qed.

Lemma endsWith_app s p : endsWith (s +:+ p) p = true.
Proof.
  unfold endsWith. rewrite chars_app, rev_app_distr. apply startsWithChars_app.
Qed.

(** X24.  The double-slash guard refuses, with 403 and
    [{ error: 'Invalid path' }], every path that holds two separators in a
    row and, anywhere, the extension [.pdf] in any letter case. *)
Theorem doubleSlashGuard_blocks path :
  (exists a b, path = a +:+ "//" +:+ b) ->
  (exists a ext b, path = a +:+ ext +:+ b /\ toLowerCase ext = ".pdf") ->
  doubleSlashGuard path = Respond (jsonError 403 "Invalid path").
Proof.
  intros (a & b & Hslashes) (a' & ext & b' & Hext & Hlower).
  unfold doubleSlashGuard.
  rewrite Hslashes at 1. rewrite includes_app.
  rewrite Hext, !toLowerCase_app, Hlower. by rewrite includes_app.
Qed.

Variable isMember : Z -> string -> bool.

(** X25.  For a file name that ends in [.pdf], in any letter case, the
    direct-access route lets the request through only for a logged-in
    user who is an administrator or a global moderator.  Everybody else,
    guests included, gets 403 with the fixed error text. *)
Theorem directAccessBlocker_admits_only_privileged stem ext uid :
  toLowerCase ext = ".pdf" ->
  (directAccessBlocker isMember (Some (stem +:+ ext)) uid = Next <->
     exists u, uid = Some u /\ u <> 0 /\ privileged isMember u = true) /\
  (directAccessBlocker isMember (Some (stem +:+ ext)) uid <> Next ->
     directAccessBlocker isMember (Some (stem +:+ ext)) uid
       = Respond directAccessDenied).
Proof.
  intros Hlower. unfold directAccessBlocker.
  assert (truthy (Some (stem +:+ ext)) = true) as ->.
  { cbn. rewrite falsy_false; [done|]. intros Hempty.
    apply (f_equal toLowerCase) in Hempty.
    rewrite toLowerCase_app, Hlower in Hempty.
    apply (f_equal chars) in Hempty. rewrite chars_app in Hempty.
    by destruct (chars (toLowerCase stem)). }
  rewrite toLowerCase_app, Hlower, endsWith_app. cbn [andb].
  destruct uid as [u|].
  - destruct (decide (u = 0)) as [->|Hu].
    + split; [|done]. split; [done|]. by intros (? & [= <-] & ? & _).
    + destruct (privileged isMember u) eqn:Hp.
      * split; [|done]. split; [|done]. intros _. by exists u.
      * split; [|done]. split; [done|]. intros (? & [= <-] & _ & ?). congruence.
  - split; [|done]. split; [done|]. by intros (? & ? & _).
Qed.

End Guards.

Lemma doubleSlashGuard_blocks_witness :
  (exists a b, "/assets/uploads//files/Report.PDF" = a +:+ "//" +:+ b) /\
  (exists a ext b,
     "/assets/uploads//files/Report.PDF" = a +:+ ext +:+ b /\
     JS.toLowerCase ext = ".pdf") /\
  Plugin.doubleSlashGuard "/assets/uploads//files/Report.PDF"
    = Plugin.Respond (Controllers.jsonError 403 "Invalid path").
Proof.
  assert (H1 : exists a b, "/assets/uploads//files/Report.PDF" = a +:+ "//" +:+ b)
    by (exists "/assets/uploads", "files/Report.PDF"; reflexivity).
  assert (H2 : exists a ext b,
     "/assets/uploads//files/Report.PDF" = a +:+ ext +:+ b /\
     JS.toLowerCase ext = ".pdf")
    by (exists "/assets/uploads//files/Report", ".PDF", ""; split; reflexivity).
  split; [exact H1|]. split; [exact H2|].
  exact (doubleSlashGuard_blocks "/assets/uploads//files/Report.PDF" H1 H2).
Defined.

Lemma directAccessBlocker_admits_only_privileged_witness :
  JS.toLowerCase ".Pdf" = ".pdf" /\
  (Plugin.directAccessBlocker Fixtures.isMember (Some ("Report" +:+ ".Pdf"))
     (Some 42) = Plugin.Next <->
     exists u, Some 42 = Some u /\ u <> 0 /\
       Plugin.privileged Fixtures.isMember u = true) /\
  (Plugin.directAccessBlocker Fixtures.isMember (Some ("Report" +:+ ".Pdf"))
     (Some 42) <> Plugin.Next ->
     Plugin.directAccessBlocker Fixtures.isMember (Some ("Report" +:+ ".Pdf"))
       (Some 42) = Plugin.Respond Plugin.directAccessDenied).
Proof.
  assert (H : JS.toLowerCase ".Pdf" = ".pdf") by reflexivity.
  split; [exact H|].
  exact (directAccessBlocker_admits_only_privileged Fixtures.isMember "Report" ".Pdf" (Some 42) H).
Defined.

Section MetaTags.
Import JS Controllers Plugin.

Variable isMember : Z -> string -> bool.

Lemma isDotPdf_starts a b c d rest :
  isDotPdf a b c d = true ->
  startsWithChars (chars ".pdf") (map lowerChar (a :: b :: c :: d :: rest))
    = true.
Proof.
  unfold isDotPdf. rewrite !andb_true_iff, !bool_decide_eq_true.
  intros [[[-> Hb] Hc] Hd].
  cbn [map startsWithChars chars String.list_ascii_of_string].
  rewrite Hb, Hc, Hd. reflexivity.
Qed.

(** A text without [.pdf] in it has nothing to replace. *)
Lemma removeDotPdfChars_clean cs :
  includesChars (chars ".pdf") (map lowerChar cs) = false ->
  removeDotPdfChars cs = cs.
Proof.
  induction cs as [|a tl IH]; [done|].
  cbn [map includesChars]. rewrite orb_false_iff. intros [Hhere Hlater].
  specialize (IH Hlater).
  destruct tl as [|b [|c [|d rest]]];
    try (cbn [removeDotPdfChars] in *; by rewrite ?IH).
  change (removeDotPdfChars (a :: b :: c :: d :: rest))
    with (if isDotPdf a b c d then removeDotPdfChars rest
          else a :: removeDotPdfChars (b :: c :: d :: rest)).
  destruct (isDotPdf a b c d) eqn:Hdot.
  - apply (isDotPdf_starts a b c d rest) in Hdot.
    cbn [map] in Hdot, Hhere. congruence.
  - by rewrite IH.
Qed.

Lemma removeDotPdf_clean s :
  includes (toLowerCase s) ".pdf" = false -> removeDotPdf s = s.
Proof.
  unfold includes, removeDotPdf. rewrite chars_toLowerCase. intros Hclean.
  rewrite removeDotPdfChars_clean by done. apply str_chars.
Qed.

(** A tag that does not mention a PDF comes out of [sanitizeTag] as it
    went in. *)
Lemma sanitizeTag_clean tag : mentionsPdf tag = false -> sanitizeTag tag = tag.
Proof.
  unfold mentionsPdf, sanitizeTag. intros Hclean.
  destruct ((strictEq (name tag) "description"
             || strictEq (property tag) "og:description")
            && truthy (content tag)) eqn:Hdesc; [|done].
  apply andb_true_iff in Hdesc as [_ Htruthy]. rewrite Htruthy in Hclean.
  destruct tag as [prop nm [c|]]; cbn in *; [|done].
  by rewrite removeDotPdf_clean.
Qed.

Lemma sanitizeTag_imageTag tag : imageTag (sanitizeTag tag) = imageTag tag.
Proof. unfold sanitizeTag. by destruct (_ && _). Qed.

Lemma keepTag_image tag :
  keepTag tag = true -> imageTag tag = true -> mentionsPdf tag = false.
Proof.
  unfold keepTag, imageTag.
  destruct (mentionsPdf tag); [|done]. rewrite !andb_true_r.
  destruct (strictEq (property tag) "og:image"
            || strictEq (property tag) "og:image:url"); [done|].
  cbn [orb]. by destruct (strictEq (name tag) "twitter:image").
Qed.

Lemma keepTag_clean tag : mentionsPdf tag = false -> keepTag tag = true.
Proof. unfold keepTag. intros ->. by rewrite !andb_false_r. Qed.

(** The hook for a requester who is not privileged. *)
Lemma filterMetaTags_filtered data allTags :
  tags data = Some allTags ->
  (forall uid, hook_uid data = Some uid -> uid <> 0 ->
     privileged isMember uid = false) ->
  filterMetaTags isMember (Some data)
    = Some {| tags := Some (map sanitizeTag (List.filter keepTag allTags));
              hook_uid := hook_uid data |}.
Proof.
  intros Ht Hunpriv. unfold filterMetaTags. rewrite Ht.
  destruct (hook_uid data) as [uid|]; [|done].
  destruct (decide (uid = 0)); [done|]. by rewrite Hunpriv.
Qed.

(** X26.  For a guest or a user who is neither administrator nor global
    moderator, no preview-image tag ([og:image], [og:image:url],
    [twitter:image]) whose content mentions [.pdf], in any letter case,
    is left among the tags the hook returns; and the hook never adds a
    tag. *)
Theorem filterMetaTags_hides_pdf_images data allTags :
  tags data = Some allTags ->
  (forall uid, hook_uid data = Some uid -> uid <> 0 ->
     privileged isMember uid = false) ->
  exists out,
    filterMetaTags isMember (Some data)
      = Some {| tags := Some out; hook_uid := hook_uid data |} /\
    (length out <= length allTags)%nat /\
    forall tag, In tag out -> imageTag tag = true -> mentionsPdf tag = false.
Proof.
  intros Ht Hunpriv. rewrite (filterMetaTags_filtered data allTags Ht Hunpriv).
  eexists. split; [reflexivity|]. split.
  - rewrite length_map. apply List.filter_length_le.
  - intros tag Hin Himage.
    apply in_map_iff in Hin as (tag0 & <- & Hin).
    apply filter_In in Hin as [_ Hkeep].
    rewrite sanitizeTag_imageTag in Himage.
    pose proof (keepTag_image tag0 Hkeep Himage) as Hclean.
    by rewrite sanitizeTag_clean.
Qed.

(** X27.  Whoever asks, a tag whose content does not mention [.pdf] is
    still there, unchanged, among the tags the hook returns. *)
Theorem filterMetaTags_keeps_clean_tags data allTags tag :
  tags data = Some allTags ->
  In tag allTags -> mentionsPdf tag = false ->
  exists data' out,
    filterMetaTags isMember (Some data) = Some data' /\
    tags data' = Some out /\ In tag out.
Proof.
  intros Ht Hin Hclean. unfold filterMetaTags. rewrite Ht.
  destruct (match hook_uid data with
            | Some uid => if decide (uid = 0) then false
                          else privileged isMember uid
            | None => false
            end).
  - exists data, allTags. done.
  - eexists _, _. split; [reflexivity|]. split; [reflexivity|].
    apply in_map_iff. exists tag. split; [by apply sanitizeTag_clean|].
    apply filter_In. split; [done|]. by apply keepTag_clean.
Qed.

End MetaTags.

Lemma filterMetaTags_hides_pdf_images_witness :
  Plugin.tags (Fixtures.hookOf (Some 42)) = Some Fixtures.pageTags /\
  (forall uid, Plugin.hook_uid (Fixtures.hookOf (Some 42)) = Some uid ->
     uid <> 0 -> Plugin.privileged Fixtures.isMember uid = false) /\
  exists out,
    Plugin.filterMetaTags Fixtures.isMember (Some (Fixtures.hookOf (Some 42)))
      = Some {| Plugin.tags := Some out;
                Plugin.hook_uid := Plugin.hook_uid (Fixtures.hookOf (Some 42)) |} /\
    (length out <= length Fixtures.pageTags)%nat /\
    forall tag, In tag out -> imageTag tag = true ->
      Plugin.mentionsPdf tag = false.
Proof.
  assert (H1 : Plugin.tags (Fixtures.hookOf (Some 42)) = Some Fixtures.pageTags)
    by reflexivity.
  assert (H2 : forall uid,
     Plugin.hook_uid (Fixtures.hookOf (Some 42)) = Some uid ->
     uid <> 0 -> Plugin.privileged Fixtures.isMember uid = false)
    by (intros uid Hu _; injection Hu as <-; reflexivity).
  split; [exact H1|]. split; [exact H2|].
  exact (filterMetaTags_hides_pdf_images Fixtures.isMember
           (Fixtures.hookOf (Some 42)) Fixtures.pageTags H1 H2).
Defined.

Lemma filterMetaTags_keeps_clean_tags_witness :
  Plugin.tags (Fixtures.hookOf None) = Some Fixtures.pageTags /\
  In {| Plugin.property := Some "og:title"; Plugin.name := None;
        Plugin.content := Some "Quarterly report" |} Fixtures.pageTags /\
  Plugin.mentionsPdf
    {| Plugin.property := Some "og:title"; Plugin.name := None;
       Plugin.content := Some "Quarterly report" |} = false /\
  exists data' out,
    Plugin.filterMetaTags Fixtures.isMember (Some (Fixtures.hookOf None))
      = Some data' /\
    Plugin.tags data' = Some out /\
    In {| Plugin.property := Some "og:title"; Plugin.name := None;
          Plugin.content := Some "Quarterly report" |} out.
Proof.
  assert (H1 : Plugin.tags (Fixtures.hookOf None) = Some Fixtures.pageTags)
    by reflexivity.
  assert (H2 : In {| Plugin.property := Some "og:title"; Plugin.name := None;
                     Plugin.content := Some "Quarterly report" |}
                  Fixtures.pageTags)
    by (left; reflexivity).
  assert (H3 : Plugin.mentionsPdf
                 {| Plugin.property := Some "og:title"; Plugin.name := None;
                    Plugin.content := Some "Quarterly report" |} = false)
    by reflexivity.
  split; [exact H1|]. split; [exact H2|]. split; [exact H3|].
  exact (filterMetaTags_keeps_clean_tags Fixtures.isMember
           (Fixtures.hookOf None) Fixtures.pageTags _ H1 H2 H3).
Defined.

(* ===================================================================== *)
(** * The running plugin: what it reads and what it never runs *)
(* ===================================================================== *)

Section RunningPlugin.
Import JS Controllers.

Variable cfg : PdfHandler.Config.
Variable firstPageOf : list Z -> Completion (list Z).
Variable viewerHtmlCache : option string.

Lemma viewer_pdfNamed req nonce key now
    (store : gmap string NonceStore.NonceData) :
  pdfNamed store ->
  pdfNamed (Plugin.viewer viewerHtmlCache req nonce key now store).2.
Proof.
  intros Hall.
  destruct (viewer_cases viewerHtmlCache req)
    as [(file & html & Hq & Hpdf & Hc & Hhtml)|Hno].
  - rewrite (viewer_issues _ req nonce key now store file html Hq Hpdf Hc Hhtml).
    cbn [snd]. intros token data. rewrite lookup_insert.
    case_decide; [|by apply Hall]. by intros [= <-].
  - by destruct (viewer_refuses viewerHtmlCache req nonce key now store Hno)
      as (code & text & -> & _).
Qed.

(** [getFullPdf] logs nothing, or one [readFile] on the resolved path. *)
Lemma getFullPdf_calls (s : PdfHandler.State) filename :
  PdfHandler.calls (PdfHandler.getFullPdf cfg filename s).2 = PdfHandler.calls s \/
  exists p,
    PdfHandler.resolveFilePath cfg filename = Some p /\
    PdfHandler.calls (PdfHandler.getFullPdf cfg filename s).2
      = PdfHandler.ReadFile p :: PdfHandler.calls s.
Proof.
  destruct (PdfHandler.resolveFilePath cfg filename) as [p|] eqn:Hr.
  - destruct (PdfHandler.disk s !! resolve (PdfHandler.cwd cfg) [p])
      as [[content|]|] eqn:Hd.
    + rewrite (getFullPdf_found cfg s filename p content Hr Hd).
      right. by exists p.
    + rewrite (getFullPdf_directory cfg s filename p Hr Hd).
      right. by exists p.
    + rewrite (getFullPdf_not_found cfg s filename p Hr Hd). by left.
  - rewrite getFullPdf_invalid by done. by left.
Qed.

Lemma servePdfBinary_reads (w : World) req clock :
  allPremium (nonces w) -> pdfNamed (nonces w) ->
  Forall (readsPdf cfg) (PdfHandler.calls (pdf w)) ->
  Forall (readsPdf cfg)
    (PdfHandler.calls (pdf (servePdfBinary cfg firstPageOf req clock w).2)).
Proof.
  intros Hprem Hnamed Hreads. unfold servePdfBinary.
  destruct (query_nonce req) as [nonce|]; [|done].
  destruct (falsy nonce); [done|].
  unfold inNonceStore, inPdfHandler. unfold_js.
  destruct (nonces w !! nonce) as [known|] eqn:Hn.
  - rewrite (validate_known _ _ _ _ _ Hn).
    destruct (if decide _ then _ else _) as [data'|] eqn:Hres; [|done].
    assert (data' = known) as -> by (repeat case_decide; congruence).
    clear Hres. cbn [pdf nonces]. unfold fetchPdf. rewrite (Hprem _ _ Hn).
    assert (Forall (readsPdf cfg)
              (PdfHandler.calls
                 (PdfHandler.getFullPdf cfg (NonceStore.file known) (pdf w)).2))
      as Hfull.
    { destruct (getFullPdf_calls (pdf w) (NonceStore.file known))
        as [->|(p & Hr & ->)]; [done|].
      apply Forall_cons. split; [|done].
      apply resolveFilePath_simpleName in Hr as [Hsimple ->].
      exists (NonceStore.file known). split; [done|]. split; [done|].
      by eapply Hnamed. }
    destruct (PdfHandler.getFullPdf _ _ _) as [[b|msg] p1];
      cbn [fst snd pdf nonces] in *.
    + unfold partialXorEncode.
      by destruct (Codec.partialXorEncode b (NonceStore.xorKey known)
                     (PdfHandler.heap p1)).
    + case_decide; exact Hfull.
  - by rewrite (validate_unknown _ _ _ _ Hn).
Qed.

(** In every state the running plugin can reach, the stored tokens name
    PDFs and the log holds nothing but reads of PDFs in the files
    directory. *)
Lemma reachable_reads disk w :
  System.reachable cfg firstPageOf viewerHtmlCache disk w ->
  pdfNamed (nonces w) /\ Forall (readsPdf cfg) (PdfHandler.calls (pdf w)).
Proof.
  intros Hreach.
  induction Hreach as [|a w Hreach [IHn IHc] Hdrawn]; [by split|].
  destruct (reachable_all_premium cfg firstPageOf viewerHtmlCache disk w Hreach)
    as [Hprem _].
  destruct a as [req nonce key now|req clock|now|now];
    cbn [System.handle]; unfold inNonceStore, inPdfHandler; unfold_js.
  - pose proof (viewer_pdfNamed req nonce key now (nonces w) IHn) as Hissue.
    destruct (Plugin.viewer _ _ _ _ _ _) as [res store'].
    cbn [snd nonces pdf] in *. by split.
  - pose proof (servePdfBinary_reads w req clock Hprem IHn IHc) as Hcalls.
    pose proof (servePdfBinary_nonces cfg firstPageOf w req clock) as Hnon.
    destruct (servePdfBinary _ _ _ _ _) as [res w']. cbn [snd] in *.
    split; [|done].
    intros token data Hnew. eapply IHn, Hnon, Hnew.
  - cbn [snd nonces pdf]. split; [|done].
    intros token data Hnew. unfold NonceStore.cleanup, modify in Hnew.
    cbn [snd] in Hnew. apply map_lookup_filter_Some in Hnew as [Hnew _].
    by eapply IHn.
  - cbn [snd nonces pdf]. by split.
Qed.

(** X28.  Whatever requests and timer ticks the plugin has gone through,
    every file it has read is a file named [x.pdf] (extension in any
    letter case, no separator and no [".."] in the name) addressed as
    upload directory, [files], name; and the canonical form of that path
    is the files root followed by the name (or the root itself, for a name
    that normalises away). *)
Theorem reachable_reads_only_pdfs disk w e :
  System.reachable cfg firstPageOf viewerHtmlCache disk w ->
  In e (PdfHandler.calls (pdf w)) ->
  exists f,
    e = PdfHandler.ReadFile (join [PdfHandler.uploadPath cfg; "files"; f]) /\
    f <> "" /\ ~ In slash (chars f) /\ includes f ".." = false /\
    endsWith (toLowerCase f) ".pdf" = true /\
    (resolve (PdfHandler.cwd cfg)
       [join [PdfHandler.uploadPath cfg; "files"; f]] = filesRoot cfg \/
     resolve (PdfHandler.cwd cfg)
       [join [PdfHandler.uploadPath cfg; "files"; f]]
       = filesRoot cfg +:+ "/" +:+ f).
Proof.
  intros Hreach Hin.
  destruct (reachable_reads disk w Hreach) as [_ Hcalls].
  rewrite List.Forall_forall in Hcalls.
  destruct (Hcalls e Hin) as (f & -> & Hsimple & Hpdf).
  exists f. split; [done|].
  pose proof (resolve_simpleName cfg f Hsimple) as Hroot.
  destruct Hsimple as (? & ? & ?). done.
Qed.

(** X29.  In the running plugin the first-page branch is dead: in every
    reachable state the derivative cache is empty, [pdf-lib] has never
    been called, and for every stored token the gateway's choice of
    variant is [getFullPdf]. *)
Theorem reachable_first_page_never_served disk w :
  System.reachable cfg firstPageOf viewerHtmlCache disk w ->
  PdfHandler.singlePageCache (pdf w) = ∅ /\
  (forall bytes, ~ In (PdfHandler.PdfLoad bytes) (PdfHandler.calls (pdf w))) /\
  forall nonce data clock,
    nonces w !! nonce = Some data ->
    fetchPdf cfg firstPageOf data clock
      = PdfHandler.getFullPdf cfg (NonceStore.file data).
Proof.
  intros Hreach.
  destruct (reachable_all_premium cfg firstPageOf viewerHtmlCache disk w Hreach)
    as [Hprem Hempty].
  destruct (reachable_reads disk w Hreach) as [_ Hcalls].
  split; [done|]. split.
  - intros bytes Hin. rewrite List.Forall_forall in Hcalls.
    by destruct (Hcalls _ Hin) as (f & ? & _).
  - intros nonce data clock Hn. unfold fetchPdf. by rewrite (Hprem _ _ Hn).
Qed.

(** X30.  In every reachable state each stored key has eight bytes, so
    the key read [xorKey[i % keyLen]] is a byte at every offset and what
    the codec stores for a byte [b] there is the plain [b XOR k]; the
    [undefined] read of an empty key does not occur. *)
Theorem reachable_keys_cover_every_offset disk w nonce data i :
  System.reachable cfg firstPageOf viewerHtmlCache disk w ->
  nonces w !! nonce = Some data ->
  length (NonceStore.xorKey data) = 8%nat /\
  exists k, keyAt (NonceStore.xorKey data) i = Some k /\ is_byte k /\
    forall b, is_byte b -> xorByte (NonceStore.xorKey data) i b = Z.lxor b k.
Proof.
  intros Hreach Hn.
  destruct (reachable_bytes cfg firstPageOf viewerHtmlCache disk w Hreach)
    as [_ Hkeys].
  destruct (Hkeys nonce data Hn) as [Hbytes Hlen]. split; [done|].
  destruct (keyAt_nonempty (NonceStore.xorKey data) i) as [k Hk].
  { intros Hnil. by rewrite Hnil in Hlen. }
  assert (is_byte k) as Hkb by exact (Forall_lookup_1 _ _ _ _ Hbytes Hk).
  exists k. split; [done|]. split; [done|].
  intros b Hb. by apply xorByte_lxor.
Qed.

End RunningPlugin.

(** The two fixture states are reachable. *)
Lemma afterViewer_reachable :
  System.reachable Fixtures.cfg Fixtures.firstPageOf Fixtures.html
    Fixtures.disk (Fixtures.afterViewer "report.pdf").
Proof.
  apply (System.reachable_step Fixtures.cfg Fixtures.firstPageOf Fixtures.html
           Fixtures.disk
           (System.ViewerRequest (Fixtures.viewerOf "report.pdf" 42) "n-1"
              Fixtures.key 1000)
           (System.start Fixtures.disk)).
  - apply System.reachable_start.
  - split; [|reflexivity].
    unfold JS.is_bytes, JS.is_byte. repeat constructor; lia.
Defined.

Lemma afterData_reachable :
  System.reachable Fixtures.cfg Fixtures.firstPageOf Fixtures.html
    Fixtures.disk Fixtures.afterData.
Proof.
  apply (System.reachable_step Fixtures.cfg Fixtures.firstPageOf Fixtures.html
           Fixtures.disk
           (System.PdfDataRequest (Fixtures.dataOf "n-1" 42) (Fixtures.at_ 2000))
           (Fixtures.afterViewer "report.pdf")).
  - exact afterViewer_reachable.
  - exact I.
Defined.

Lemma reachable_reads_only_pdfs_witness :
  System.reachable Fixtures.cfg Fixtures.firstPageOf Fixtures.html
    Fixtures.disk Fixtures.afterData /\
  In (PdfHandler.ReadFile "/srv/nodebb/public/uploads/files/report.pdf")
     (PdfHandler.calls (Controllers.pdf Fixtures.afterData)) /\
  exists f,
    PdfHandler.ReadFile "/srv/nodebb/public/uploads/files/report.pdf"
      = PdfHandler.ReadFile
          (JS.join [PdfHandler.uploadPath Fixtures.cfg; "files"; f]) /\
    f <> "" /\ ~ In JS.slash (JS.chars f) /\ JS.includes f ".." = false /\
    JS.endsWith (JS.toLowerCase f) ".pdf" = true /\
    (JS.resolve (PdfHandler.cwd Fixtures.cfg)
       [JS.join [PdfHandler.uploadPath Fixtures.cfg; "files"; f]]
       = filesRoot Fixtures.cfg \/
     JS.resolve (PdfHandler.cwd Fixtures.cfg)
       [JS.join [PdfHandler.uploadPath Fixtures.cfg; "files"; f]]
       = filesRoot Fixtures.cfg +:+ "/" +:+ f).
Proof.
  assert (H : In (PdfHandler.ReadFile "/srv/nodebb/public/uploads/files/report.pdf")
                 (PdfHandler.calls (Controllers.pdf Fixtures.afterData)))
    by (vm_compute; left; reflexivity).
  split; [exact afterData_reachable|]. split; [exact H|].
  exact (reachable_reads_only_pdfs Fixtures.cfg Fixtures.firstPageOf
           Fixtures.html Fixtures.disk Fixtures.afterData _
           afterData_reachable H).
Defined.

Lemma reachable_first_page_never_served_witness :
  System.reachable Fixtures.cfg Fixtures.firstPageOf Fixtures.html
    Fixtures.disk Fixtures.afterData /\
  PdfHandler.singlePageCache (Controllers.pdf Fixtures.afterData) = ∅ /\
  (forall bytes,
     ~ In (PdfHandler.PdfLoad bytes)
          (PdfHandler.calls (Controllers.pdf Fixtures.afterData))) /\
  forall nonce data clock,
    Controllers.nonces Fixtures.afterData !! nonce = Some data ->
    Controllers.fetchPdf Fixtures.cfg Fixtures.firstPageOf data clock
      = PdfHandler.getFullPdf Fixtures.cfg (NonceStore.file data).
Proof.
  split; [exact afterData_reachable|].
  exact (reachable_first_page_never_served Fixtures.cfg Fixtures.firstPageOf
           Fixtures.html Fixtures.disk Fixtures.afterData afterData_reachable).
Defined.

Lemma reachable_keys_cover_every_offset_witness :
  System.reachable Fixtures.cfg Fixtures.firstPageOf Fixtures.html
    Fixtures.disk (Fixtures.afterViewer "report.pdf") /\
  Controllers.nonces (Fixtures.afterViewer "report.pdf") !! "n-1"
    = Some (Fixtures.token "report.pdf" true Fixtures.key) /\
  length (NonceStore.xorKey (Fixtures.token "report.pdf" true Fixtures.key))
    = 8%nat /\
  exists k,
    JS.keyAt (NonceStore.xorKey (Fixtures.token "report.pdf" true Fixtures.key))
      13 = Some k /\
    JS.is_byte k /\
    forall b, JS.is_byte b ->
      xorByte (NonceStore.xorKey (Fixtures.token "report.pdf" true Fixtures.key))
        13 b = Z.lxor b k.
Proof.
  assert (H : Controllers.nonces (Fixtures.afterViewer "report.pdf") !! "n-1"
              = Some (Fixtures.token "report.pdf" true Fixtures.key))
    by (vm_compute; reflexivity).
  split; [exact afterViewer_reachable|]. split; [exact H|].
  exact (reachable_keys_cover_every_offset Fixtures.cfg Fixtures.firstPageOf
           Fixtures.html Fixtures.disk (Fixtures.afterViewer "report.pdf")
           "n-1" _ 13 afterViewer_reachable H).
Defined.

(* ===================================================================== *)
(** * The operations on concrete inputs *)
(* ===================================================================== *)

(** Node's documented answers for the path functions. *)
Example basename_examples :
  JS.basename "a/b/c.pdf" = "c.pdf" /\
  JS.basename "dir/" = "dir" /\
  JS.basename "/" = "" /\
  JS.basename ".." = ".." /\
  JS.join ["public/uploads"; "files"; "a.pdf"] = "public/uploads/files/a.pdf" /\
  JS.join ["/srv//nodebb/"; "public"; "uploads"] = "/srv/nodebb/public/uploads" /\
  JS.join ["a"; ".."; ".."; "b"] = "../b" /\
  JS.resolve "/home/nb" ["public/uploads/files"] = "/home/nb/public/uploads/files" /\
  JS.resolve "/home/nb" ["../x/./y/"] = "/home/x/y" /\
  JS.toBase64 [77; 97; 110] = "TWFu" /\
  JS.toBase64 [77; 97] = "TWE=" /\
  JS.toBase64 [77] = "TQ==".
Proof. vm_compute. repeat split. Qed.

(** The resolver on plain, hostile and odd names.  The name ["."] passes
    every test and resolves to the upload-files directory itself. *)
Example resolveFilePath_examples :
  PdfHandler.resolveFilePath Fixtures.cfg "report.pdf"
    = Some "/srv/nodebb/public/uploads/files/report.pdf" /\
  PdfHandler.resolveFilePath Fixtures.cfg "../report.pdf" = None /\
  PdfHandler.resolveFilePath Fixtures.cfg "sub/report.pdf" = None /\
  PdfHandler.resolveFilePath Fixtures.cfg "a..pdf" = None /\
  PdfHandler.resolveFilePath Fixtures.cfg "" = None /\
  PdfHandler.resolveFilePath Fixtures.cfg "."
    = Some "/srv/nodebb/public/uploads/files".
Proof. vm_compute. repeat split. Qed.

(** The scenario of the specification: [generate(42, "report.pdf", true)],
    then [validate] by 42 returns the record, and again returns [null]; a
    nonce presented by another user, or 30001 ms after its creation, is
    [null] at the first attempt and is gone all the same. *)
Example validate_scenario :
  let issued := (NonceStore.generate 42 "report.pdf" true "T" Fixtures.key 1000 ∅).2 in
  let record := {| NonceStore.uid := 42; NonceStore.file := "report.pdf";
                   NonceStore.isPremium := true;
                   NonceStore.xorKey := Fixtures.key;
                   NonceStore.createdAt := 1000 |} in
  NonceStore.getKey "T" issued = (Some "pVoBAgMEBQY=", issued) /\
  NonceStore.validate "T" 42 31000 issued = (Some record, ∅) /\
  NonceStore.validate "T" 42 31000 (NonceStore.validate "T" 42 31000 issued).2
    = (None, ∅) /\
  NonceStore.validate "T" 7 2000 issued = (None, ∅) /\
  NonceStore.validate "T" 42 31001 issued = (None, ∅).
Proof. vm_compute. repeat split. Qed.

(** The freshness window runs from the creation time of the cached entry,
    not from the previous call: with an entry created at 1000, a call at
    3600999 is still served from the cache, and a call one millisecond
    later reads and parses the file again. *)
Example getSinglePagePdf_window :
  PdfHandler.getSinglePagePdf Fixtures.cfg Fixtures.firstPageOf
      "report.pdf" 3600999 3601000 Fixtures.cachedState
    = (JS.Return 0%nat, Fixtures.cachedState) /\
  PdfHandler.calls
    (PdfHandler.getSinglePagePdf Fixtures.cfg Fixtures.firstPageOf
       "report.pdf" 3601000 3601001 Fixtures.cachedState).2
    = [PdfHandler.PdfLoad Fixtures.reportBytes;
       PdfHandler.ReadFile "/srv/nodebb/public/uploads/files/report.pdf"].
Proof. vm_compute. repeat split. Qed.

(** A whole session: the viewer issues a nonce for [report.pdf], the
    gateway answers 200 with the encoded file in a new buffer, the file's
    own buffer is untouched, and encoding the answer once more with the
    same key gives the file back.  A second request with the same nonce
    is refused. *)
Example session :
  let w1 := Fixtures.afterViewer "report.pdf" in
  let '(res, w2) :=
    Controllers.servePdfBinary Fixtures.cfg Fixtures.firstPageOf
      (Fixtures.dataOf "n-1" 42) (Fixtures.at_ 2000) w1 in
  Controllers.status res = 200 /\
  Controllers.body res = Controllers.Binary 1%nat /\
  PdfHandler.heap (Controllers.pdf w2)
    = [Fixtures.reportBytes; [128; 10; 69; 68; 46; 15; 19; 39; 137; 109]] /\
  JS.bytesOf
    (Codec.partialXorEncode 1%nat Fixtures.key
       (PdfHandler.heap (Controllers.pdf w2))).2 2%nat
    = Fixtures.reportBytes /\
  (Controllers.servePdfBinary Fixtures.cfg Fixtures.firstPageOf
     (Fixtures.dataOf "n-1" 42) (Fixtures.at_ 2001) w2).1
    = Controllers.jsonError 403 "Invalid or expired nonce".
Proof. vm_compute. repeat split. Qed.
